(** * Vector-Replay: trip segmentation, replay pipeline and measurement start

    A shallow embedding of [driving_info_speed.py] (the .asc trace parser,
    the trip state machine, the replay producer and the sampling consumer,
    the csv export and [replay_trip]) and of [CANoe.start_Measurement],
    [CANoe.stop_Measurement], [CANoe.get_EnvVar] and [CANoe.set_EnvVar]
    from [Python_CANoe.py].

    Python values are modelled as the interpreter has them: [int] is an
    unbounded integer ([Z]), [float] is an IEEE-754 binary64 number (the
    kernel's primitive [float]), a number that may be either is a [pynum],
    strings are [string], lists are [list], and an exception is the [Raise]
    branch of [result].  The [context] dictionary of the parser has a fixed
    set of keys, so it is a record; keys that the code only adds later are
    optional fields. *)

From Stdlib Require Import ZArith List String Ascii Bool Lia Floats QArith Qround.
From Stdlib Require Import DecimalString.
Import ListNotations.

Set Implicit Arguments.

(* ------------------------------------------------------------------ *)
(** ** Exceptions as results *)

Inductive exn : Set :=
| IndexError | ValueError | OverflowError | KeyError | NameError
| ZeroDivisionError | RuntimeWarning.

Inductive result (A : Type) : Type :=
| Ok (a : A)
| Raise (e : exn).
Arguments Ok {A} a.
Arguments Raise {A} e.

Definition bind {A B} (r : result A) (k : A -> result B) : result B :=
  match r with
  | Ok a => k a
  | Raise e => Raise e
  end.

Declare Scope py_scope.
Delimit Scope py_scope with py.
Notation "x <- r ;; k" := (bind r (fun x => k))
  (at level 61, r at next level, right associativity) : py_scope.
Notation "' p <- r ;; k" := (bind r (fun x => let p := x in k))
  (at level 61, p pattern, r at next level, right associativity) : py_scope.
Open Scope py_scope.
Open Scope Z_scope.

Definition is_ok {A} (r : result A) : bool :=
  match r with Ok _ => true | Raise _ => false end.

(** A dictionary key that may be absent: reading it raises [KeyError]. *)
Definition getitem {A} (o : option A) : result A :=
  match o with Some a => Ok a | None => Raise KeyError end.

(** A Python number: an [int] or a [float]. *)
Inductive pynum : Set :=
| PyInt (z : Z)
| PyFloat (f : PrimFloat.float).

(* ------------------------------------------------------------------ *)
(** ** The Python built-ins the parser relies on

    Only the behaviour on ASCII text is modelled: [str.split()] with no
    argument, [int(s, 16)], [int(s)], [float(s)], [int(x)] on a float,
    list indexing and slicing, and arithmetic between [int] and [float].
    (Non-ASCII digits and white space, and the interpreter's configurable
    limit on the length of decimal integer literals, are outside it.) *)

Module Py.

(** [str.isspace] on the ASCII range: TAB, LF, VT, FF, CR, FS, GS, RS, US
    and the space. *)
Definition is_space (c : ascii) : bool :=
  let n := nat_of_ascii c in
  ((9 <=? n) && (n <=? 13) || (28 <=? n) && (n <=? 32))%nat.

Fixpoint split_aux (cs : list ascii) (cur : list ascii) : list string :=
  let flush (k : list string) :=
    match cur with
    | [] => k
    | _ :: _ => string_of_list_ascii (rev cur) :: k
    end in
  match cs with
  | [] => flush []
  | c :: cs' =>
      if is_space c then flush (split_aux cs' [])
      else split_aux cs' (c :: cur)
  end.

(** [s.split()]: the maximal runs of non-space characters, in order. *)
Definition split (s : string) : list string :=
  split_aux (list_ascii_of_string s) [].

(** The white space that [int()] and [float()] skip around the number in
    ASCII text: TAB, LF, VT, FF, CR and the space. FS, GS, RS and US
    separate the tokens of [split], but are refused there
    ([ValueError]). *)
Definition is_blank (c : ascii) : bool :=
  let n := nat_of_ascii c in
  ((9 <=? n) && (n <=? 13) || (n =? 32))%nat.

Fixpoint lstrip (cs : list ascii) : list ascii :=
  match cs with
  | c :: cs' => if is_blank c then lstrip cs' else cs
  | [] => []
  end.

Definition strip (cs : list ascii) : list ascii :=
  rev (lstrip (rev (lstrip cs))).

(** [l[i]] for an index [i >= 0]. *)
Definition index {A} (l : list A) (i : nat) : result A :=
  match nth_error l i with
  | Some a => Ok a
  | None => Raise IndexError
  end.

(** [l[start:stop]] with an [int] stop that may be negative or past the
    end, and a start [>= 0]: a slice never raises. *)
Definition slice {A} (l : list A) (start : nat) (stop : Z) : list A :=
  let len := Z.of_nat (List.length l) in
  let stop := if stop <? 0 then Z.max 0 (stop + len) else Z.min stop len in
  let start := Z.min (Z.of_nat start) len in
  firstn (Z.to_nat (stop - start)) (skipn (Z.to_nat start) l).

(** The value of a digit in a base up to 36. *)
Definition digit_val (base : Z) (c : ascii) : option Z :=
  let n := Z.of_nat (nat_of_ascii c) in
  let v := if (48 <=? n) && (n <=? 57) then n - 48
           else if (97 <=? n) && (n <=? 122) then n - 87
           else if (65 <=? n) && (n <=? 90) then n - 55
           else 36 in
  if v <? base then Some v else None.

Definition underscore : ascii := "_"%char.

(** Consumes [(["_"] digit)*]; an underscore that no digit follows is left
    in the rest. The digits come out last first. *)
Fixpoint more_digits (base : Z) (cs : list ascii) (acc : list Z)
  : list Z * list ascii :=
  match cs with
  | [] => (acc, [])
  | c :: cs' =>
      match digit_val base c with
      | Some d => more_digits base cs' (d :: acc)
      | None =>
          if Ascii.eqb c underscore then
            match cs' with
            | c2 :: cs'' =>
                match digit_val base c2 with
                | Some d => more_digits base cs'' (d :: acc)
                | None => (acc, cs)
                end
            | [] => (acc, cs)
            end
          else (acc, cs)
      end
  end.

(** [digitpart ::= digit (["_"] digit)*]: its digits in order, and what
    follows it. *)
Definition digitpart (base : Z) (cs : list ascii)
  : option (list Z * list ascii) :=
  match cs with
  | c :: cs' =>
      match digit_val base c with
      | Some d => let '(ds, rest) := more_digits base cs' [d] in
                  Some (rev ds, rest)
      | None => None
      end
  | [] => None
  end.

Definition of_digits (base : Z) (ds : list Z) : Z :=
  fold_left (fun a d => a * base + d) ds 0.

Definition take_sign (cs : list ascii) : bool * list ascii :=
  match cs with
  | "-"%char :: cs' => (true, cs')
  | "+"%char :: cs' => (false, cs')
  | _ => (false, cs)
  end.

(** [int(s, 16)]: optional sign, optional [0x] prefix (one underscore may
    follow it), digits with single underscores between them. *)
Definition int16 (s : string) : result Z :=
  let '(neg, cs) := take_sign (strip (list_ascii_of_string s)) in
  let cs := match cs with
            | "0"%char :: "x"%char :: cs' | "0"%char :: "X"%char :: cs' =>
                match cs' with
                | "_"%char :: cs'' => cs''
                | _ => cs'
                end
            | _ => cs
            end in
  match digitpart 16 cs with
  | Some (ds, []) => let v := of_digits 16 ds in Ok (if neg then - v else v)
  | _ => Raise ValueError
  end.

(** [int(s)]: optional sign and decimal digits. *)
Definition int10 (s : string) : result Z :=
  let '(neg, cs) := take_sign (strip (list_ascii_of_string s)) in
  match digitpart 10 cs with
  | Some (ds, []) => let v := of_digits 10 ds in Ok (if neg then - v else v)
  | _ => Raise ValueError
  end.

(** The binary64 number nearest to [d * 10^e] (ties to even). *)
Definition decimal_to_SF (neg : bool) (d e : Z) : spec_float :=
  if d =? 0 then S754_zero neg
  else if 0 <=? e then
    binary_normalize prec emax ((if neg then - d else d) * 10 ^ e) 0 neg
  else
    let '(q, e', l) := SFdiv_core_binary prec emax d 0 (10 ^ (- e)) 0 in
    binary_round_aux prec emax neg q e' l.

Definition lower (c : ascii) : ascii :=
  let n := nat_of_ascii c in
  if ((65 <=? n) && (n <=? 90))%nat then ascii_of_nat (n + 32) else c.

Definition is_e (c : ascii) : bool :=
  Ascii.eqb c "e"%char || Ascii.eqb c "E"%char.

(** The exponent part [("e"|"E") [sign] digitpart], when present. *)
Definition exponent (cs : list ascii) : option (Z * list ascii) :=
  match cs with
  | [] => Some (0, [])
  | c :: cs' =>
      if is_e c then
        let '(neg, cs'') := take_sign cs' in
        match digitpart 10 cs'' with
        | Some (ds, rest) =>
            let v := of_digits 10 ds in Some (if neg then - v else v, rest)
        | None => None
        end
      else Some (0, cs)
  end.

(** [number ::= [digitpart] "." digitpart | digitpart ["."]]:
    the digits without the point, and how many follow the point. *)
Definition number (cs : list ascii) : option (list Z * Z * list ascii) :=
  match digitpart 10 cs with
  | Some (ip, "."%char :: rest) =>
      match digitpart 10 rest with
      | Some (fp, rest') => Some (ip ++ fp, Z.of_nat (List.length fp), rest')
      | None => Some (ip, 0, rest)
      end
  | Some (ip, rest) => Some (ip, 0, rest)
  | None =>
      match cs with
      | "."%char :: rest =>
          match digitpart 10 rest with
          | Some (fp, rest') => Some (fp, Z.of_nat (List.length fp), rest')
          | None => None
          end
      | _ => None
      end
  end.

(** [float(s)]: a signed decimal number with optional exponent, or
    [inf], [infinity], [nan] in any letter case. *)
Definition float (s : string) : result PrimFloat.float :=
  let '(neg, cs) := take_sign (strip (list_ascii_of_string s)) in
  let word := string_of_list_ascii (map lower cs) in
  if (String.eqb word "inf" || String.eqb word "infinity")%string then
    Ok (if neg then neg_infinity else infinity)
  else if String.eqb word "nan" then Ok nan
  else
    match number cs with
    | Some (ds, nfrac, rest) =>
        match exponent rest with
        | Some (e, []) =>
            Ok (SF2Prim (decimal_to_SF neg (of_digits 10 ds) (e - nfrac)))
        | _ => Raise ValueError
        end
    | None => Raise ValueError
    end.

(** [int(x)] for a float [x]: truncation towards zero. *)
Definition int_of_float (x : PrimFloat.float) : result Z :=
  match Prim2SF x with
  | S754_zero _ => Ok 0
  | S754_infinity _ => Raise OverflowError
  | S754_nan => Raise ValueError
  | S754_finite s m e =>
      let a := Z.shiftl (Z.pos m) e in Ok (if s then - a else a)
  end.

(** The conversion of an [int] operand to [float]: nearest, ties to even;
    [OverflowError] when the integer is too large. *)
Definition float_of_int (z : Z) : result PrimFloat.float :=
  match binary_normalize prec emax z 0 false with
  | S754_infinity _ => Raise OverflowError
  | r => Ok (SF2Prim r)
  end.

(** An operand of mixed arithmetic, as a float. *)
Definition to_float (x : pynum) : result PrimFloat.float :=
  match x with
  | PyInt z => float_of_int z
  | PyFloat f => Ok f
  end.

(** [x - y]. *)
Definition sub (x y : pynum) : result pynum :=
  match x, y with
  | PyInt a, PyInt b => Ok (PyInt (a - b))
  | _, _ => a <- to_float x ;; b <- to_float y ;; Ok (PyFloat (a - b))
  end.

(** [x + y]. *)
Definition add (x y : pynum) : result pynum :=
  match x, y with
  | PyInt a, PyInt b => Ok (PyInt (a + b))
  | _, _ => a <- to_float x ;; b <- to_float y ;; Ok (PyFloat (a + b))
  end.

(** [x / c] for a float divisor [c]. *)
Definition truediv (x : pynum) (c : PrimFloat.float) : result pynum :=
  a <- to_float x ;;
  if PrimFloat.eqb c 0 then Raise ZeroDivisionError
  else Ok (PyFloat (a / c)).

(** [sum(l)]: left to right from the integer 0. *)
Definition sum (l : list pynum) : result pynum :=
  fold_left (fun acc x => a <- acc ;; add a x) l (Ok (PyInt 0)).

(** The integer a finite float is equal to, when it is one. *)
Definition integral (x : PrimFloat.float) : option Z :=
  match Prim2SF x with
  | S754_zero _ => Some 0
  | S754_finite s m e =>
      let a := Z.shiftl (Z.pos m) e in
      if Z.shiftl a (- e) =? Z.pos m then Some (if s then - a else a)
      else None
  | _ => None
  end.

(** [x == y] on numbers: by value, exactly, also between int and float. *)
Definition eqb (x y : pynum) : bool :=
  match x, y with
  | PyInt a, PyInt b => a =? b
  | PyFloat a, PyFloat b => PrimFloat.eqb a b
  | PyInt a, PyFloat b | PyFloat b, PyInt a =>
      match integral b with
      | Some z => z =? a
      | None => false
      end
  end.

End Py.


(* ------------------------------------------------------------------ *)
(** ** Arithmetic between any two numbers *)

(** The arithmetic of [delay], [replay_trip] and [save_to_csv]: [/], [%],
    [*], [int] of a number and [str] of an int. *)
Module PyArith.

(** [a / b] on ints: the binary64 number nearest to the quotient (ties to
    even), whatever the size of the operands; [ZeroDivisionError] for a
    zero divisor, [OverflowError] when the quotient is too large. As the
    interpreter does, operands below [2^53] (which convert to float
    without rounding) are converted and divided as floats; the quotient
    of larger ones is rounded once, from the exact quotient. *)
Definition int_truediv (a b : Z) : result PrimFloat.float :=
  if b =? 0 then Raise ZeroDivisionError
  else if (Z.abs a <? 2 ^ 53) && (Z.abs b <? 2 ^ 53) then
    x <- Py.float_of_int a ;;
    y <- Py.float_of_int b ;;
    Ok (x / y)%float
  else
    let neg := xorb (a <? 0) (b <? 0) in
    if a =? 0 then Ok (SF2Prim (S754_zero neg))
    else
      let '(q, e, l) :=
        SFdiv_core_binary prec emax (Z.abs a) 0 (Z.abs b) 0 in
      match binary_round_aux prec emax neg q e l with
      | S754_infinity _ => Raise OverflowError
      | r => Ok (SF2Prim r)
      end.

(** [x / y]: always a float. *)
Definition truediv (x y : pynum) : result PrimFloat.float :=
  match x, y with
  | PyInt a, PyInt b => int_truediv a b
  | _, _ =>
      a <- Py.to_float x ;;
      b <- Py.to_float y ;;
      if PrimFloat.eqb b 0 then Raise ZeroDivisionError else Ok (a / b)%float
  end.

(** [a % b] on ints: the sign of the result is that of [b]. *)
Definition mod_ (a b : Z) : result Z :=
  if b =? 0 then Raise ZeroDivisionError else Ok (a mod b).

(** [x * y]. *)
Definition mul (x y : pynum) : result pynum :=
  match x, y with
  | PyInt a, PyInt b => Ok (PyInt (a * b))
  | _, _ => a <- Py.to_float x ;; b <- Py.to_float y ;; Ok (PyFloat (a * b))
  end.

(** [int(x)] *)
Definition int_ (x : pynum) : result Z :=
  match x with
  | PyInt z => Ok z
  | PyFloat f => Py.int_of_float f
  end.

(** [str(z)]. *)
Definition str (z : Z) : string := NilZero.string_of_int (Z.to_int z).

End PyArith.

(* ------------------------------------------------------------------ *)
(** ** The decode context and the configuration *)

(** A CAN payload: the byte tokens of a data line. *)
Definition frame := list string.

(** One entry of a trip: (time delta in ms, speed). *)
Abbreviation sample := (pynum * pynum)%type.

(** The [context] dictionary of [parse_file]. The keys ['time'], ['speed'],
    ['speed_unit'], ['rpm'], ['ign'] and ['on'] are absent until the code
    first stores them. ['trips'] is an index that only ever counts up from
    0, hence a [nat]. *)
Record context : Set := mkContext {
  old_time : pynum;
  trips : nat;
  engine : bool;
  time_speed : list (list sample);
  time : option Z;
  speed : option pynum;
  speed_unit : option pynum;
  rpm : option pynum;
  ign : option pynum;
  on : option pynum
}.

Definition set_old_time (v : pynum) (c : context) : context :=
  mkContext v (trips c) (engine c) (time_speed c) (time c) (speed c)
            (speed_unit c) (rpm c) (ign c) (on c).
Definition set_trips (v : nat) (c : context) : context :=
  mkContext (old_time c) v (engine c) (time_speed c) (time c) (speed c)
            (speed_unit c) (rpm c) (ign c) (on c).
Definition set_engine (v : bool) (c : context) : context :=
  mkContext (old_time c) (trips c) v (time_speed c) (time c) (speed c)
            (speed_unit c) (rpm c) (ign c) (on c).
Definition set_time_speed (v : list (list sample)) (c : context) : context :=
  mkContext (old_time c) (trips c) (engine c) v (time c) (speed c)
            (speed_unit c) (rpm c) (ign c) (on c).
Definition set_time (v : Z) (c : context) : context :=
  mkContext (old_time c) (trips c) (engine c) (time_speed c) (Some v)
            (speed c) (speed_unit c) (rpm c) (ign c) (on c).
Definition set_speed (v : pynum) (c : context) : context :=
  mkContext (old_time c) (trips c) (engine c) (time_speed c) (time c)
            (Some v) (speed_unit c) (rpm c) (ign c) (on c).
Definition set_speed_unit (v : pynum) (c : context) : context :=
  mkContext (old_time c) (trips c) (engine c) (time_speed c) (time c)
            (speed c) (Some v) (rpm c) (ign c) (on c).
Definition set_rpm (v : pynum) (c : context) : context :=
  mkContext (old_time c) (trips c) (engine c) (time_speed c) (time c)
            (speed c) (speed_unit c) (Some v) (ign c) (on c).
Definition set_ign (v : pynum) (c : context) : context :=
  mkContext (old_time c) (trips c) (engine c) (time_speed c) (time c)
            (speed c) (speed_unit c) (rpm c) (Some v) (on c).
Definition set_on (v : pynum) (c : context) : context :=
  mkContext (old_time c) (trips c) (engine c) (time_speed c) (time c)
            (speed c) (speed_unit c) (rpm c) (ign c) (Some v).

(** What the module fixes at its top and what the integrator plugs in: the
    three message identifiers, the signal decoders and the engine-status
    decision. [driving_info_speed.py] gives each a placeholder (see
    [Reference] below); the functions of the parser are written against
    this record so that they can be run with either. *)
Record config : Type := mkConfig {
  ENG_MSG_STD : Z;
  ENG_MSG_EV : Z;
  SPD_MSG_1 : Z;
  get_speed_signal_a : frame -> result pynum;
  get_speed_signal_b : frame -> result pynum;
  get_engine_signal_a : frame -> result pynum;
  get_engine_signal_b : frame -> result pynum;
  get_engine_signal_EV_a : frame -> result pynum;
  engine_status : context -> bool
}.

(** The values of [driving_info_speed.py] itself. *)
Module Reference.

Definition EV := false.
Definition PHEV := false.
Definition HEV := false.
Definition STANDARD := true.

Definition KM : Z := 0.
Definition MI : Z := 1.

(** The literal [1.609], i.e. the binary64 number nearest to it. *)
Definition KPH_TO_MPH : PrimFloat.float := 0x1.9be76c8b43958p+0%float.

Definition ENG_MSG_STD : Z := 0x000.
Definition ENG_MSG_EV : Z := 0x000.
Definition SPD_MSG_1 : Z := 0x000.

Definition engine_status (context : context) : bool :=
  if EV then true
  else if PHEV then true
  else if HEV then true
  else if STANDARD then true
  else true.

Definition get_engine_ev_a (frame : frame) : result pynum := Ok (PyInt 0).
Definition get_speed_signal_a (frame : frame) : result pynum := Ok (PyInt 0).
Definition get_speed_signal_b (frame : frame) : result pynum := Ok (PyInt 0).
Definition get_engine_signal_a (frame : frame) : result pynum := Ok (PyInt 0).
Definition get_engine_signal_b (frame : frame) : result pynum := Ok (PyInt 0).

(** [process_frame] calls [get_engine_signal_EV_a], a name the module
    never defines ([get_engine_ev_a] is the one it has): the call would
    raise [NameError]. *)
Definition get_engine_signal_EV_a (frame : frame) : result pynum :=
  Raise NameError.

End Reference.

Definition reference : config :=
  mkConfig Reference.ENG_MSG_STD Reference.ENG_MSG_EV Reference.SPD_MSG_1
           Reference.get_speed_signal_a Reference.get_speed_signal_b
           Reference.get_engine_signal_a Reference.get_engine_signal_b
           Reference.get_engine_signal_EV_a Reference.engine_status.

(* ------------------------------------------------------------------ *)
(** ** The line decoder *)

(** [int(float(offset[0]) * 1000)] *)
Definition get_offset_ms (offset : list string) : result Z :=
  tok <- Py.index offset 0 ;;
  f <- Py.float tok ;;
  Py.int_of_float (f * 1000)%float.

(** [line[6:int(line[5]) + 6]] *)
Definition get_frame (line : list string) : result frame :=
  tok <- Py.index line 5 ;;
  n <- Py.int10 tok ;;
  Ok (Py.slice line 6 (n + 6)).

(* ------------------------------------------------------------------ *)
(** ** The trip state machine *)

(** [l[i].append(x)] *)
Definition append_at (l : list (list sample)) (i : nat) (x : sample)
  : result (list (list sample)) :=
  t <- Py.index l i ;;
  Ok (firstn i l ++ (t ++ [x]) :: skipn (i + 1) l).

(** The text of the two [print] calls is not modelled, but evaluating
    their argument [context['time'] / 1000.0] is, since it can raise. *)
Definition print_time (ctx : context) : result unit :=
  t <- getitem (time ctx) ;;
  _ <- Py.truediv (PyInt t) 1000 ;;
  Ok tt.

Definition speed_events_logic (cfg : config) (id : Z) (ctx : context)
  : result context :=
  if id =? SPD_MSG_1 cfg then
    if negb (engine ctx) then Ok ctx
    else
      _ <- Py.index (time_speed ctx) (trips ctx) ;;
      t <- getitem (time ctx) ;;
      d <- Py.sub (PyInt t) (old_time ctx) ;;
      v <- getitem (speed ctx) ;;
      ts <- append_at (time_speed ctx) (trips ctx) (d, v) ;;
      let ctx := set_time_speed ts ctx in
      Ok (set_old_time (PyInt t) ctx)
  else if id =? ENG_MSG_STD cfg then
    let engine' := engine_status cfg ctx in
    if negb engine' && engine ctx then
      let ctx := set_trips (trips ctx + 1) ctx in
      let ctx := set_time_speed (time_speed ctx ++ [[]]) ctx in
      let ctx := set_engine false ctx in
      _ <- print_time ctx ;;
      Ok ctx
    else if engine' && negb (engine ctx) then
      let ctx := set_engine true ctx in
      _ <- print_time ctx ;;
      Ok ctx
    else Ok ctx
  else if id =? ENG_MSG_EV cfg then
    let engine' := engine_status cfg ctx in
    if negb engine' && engine ctx then
      let ctx := set_trips (trips ctx + 1) ctx in
      let ctx := set_time_speed (time_speed ctx ++ [[]]) ctx in
      let ctx := set_engine false ctx in
      _ <- print_time ctx ;;
      Ok ctx
    else if engine' && negb (engine ctx) then
      let ctx := set_engine true ctx in
      _ <- print_time ctx ;;
      Ok ctx
    else Ok ctx
  else Ok ctx.

(** The dispatcher; [func] is the business logic called at each id. *)
Definition process_frame (cfg : config) (id : Z) (frame : frame)
    (func : Z -> context -> result context) (ctx : context)
  : result context :=
  if id =? SPD_MSG_1 cfg then
    a <- get_speed_signal_a cfg frame ;;
    let ctx := set_speed a ctx in
    b <- get_speed_signal_b cfg frame ;;
    let ctx := set_speed_unit b ctx in
    func id ctx
  else if id =? ENG_MSG_STD cfg then
    a <- get_engine_signal_a cfg frame ;;
    let ctx := set_rpm a ctx in
    b <- get_engine_signal_b cfg frame ;;
    let ctx := set_ign b ctx in
    func id ctx
  else if id =? ENG_MSG_EV cfg then
    a <- get_engine_signal_EV_a cfg frame ;;
    let ctx := set_on a ctx in
    func id ctx
  else Ok ctx.

(** The context [parse_file] starts from, before the engine status is
    initialised. *)
Definition context0 : context :=
  mkContext (PyFloat 0) 0 false [[]] None None None None None None.

(** The body of the [for] loop for a line past the header. *)
Definition parse_line (cfg : config) (line : string) (ctx : context)
  : result context :=
  let split := Py.split line in
  t <- get_offset_ms split ;;
  let ctx := set_time t ctx in
  tok <- Py.index split 2 ;;
  id <- Py.int16 tok ;;
  frame <- get_frame split ;;
  process_frame cfg id frame (speed_events_logic cfg) ctx.

(** The [for line in file] loop, with its header counter. *)
Fixpoint parse_lines (cfg : config) (file : list string) (count : nat)
    (ctx : context) : result context :=
  match file with
  | [] => Ok ctx
  | line :: rest =>
      if (count <? 3)%nat then parse_lines cfg rest (count + 1) ctx
      else
        ctx' <- parse_line cfg line ctx ;;
        parse_lines cfg rest count ctx'
  end.

(** [parse_file], on the lines that iterating the opened file yields. *)
Definition parse_file (cfg : config) (file : list string)
  : result (list (list sample)) :=
  let ctx := set_engine (engine_status cfg context0) context0 in
  ctx <- parse_lines cfg file 0 ctx ;;
  Ok (time_speed ctx).

(* ------------------------------------------------------------------ *)
(** ** The replay producer and the sampling consumer *)

(** The two threads run under the interpreter's global lock: a read or
    a write of an attribute of the shared cell is atomic, and an
    execution is an interleaving of the steps of the two threads.
    A [delay] that returns only lets time pass, and which thread moves
    next is left to the schedule, so the runs of the model cover every
    timing of the two threads. A [delay] that does not return (it raises,
    or busy-waits for ever) stops its thread where it stands. *)

Module Replay.

(** [class Speed]: the cell shared by the two threads. [e] is true while
    the replay is running; [end()] clears it. *)
Record Speed : Set := mkSpeed { s : pynum; e : bool }.

Definition Speed_init : Speed := mkSpeed (PyFloat 0) true.
Definition set_speed (self : Speed) (speed : pynum) : Speed :=
  mkSpeed speed (e self).
Definition end_ (self : Speed) : Speed := mkSpeed (s self) false.
Definition get_speed (self : Speed) : pynum := s self.
Definition get_end (self : Speed) : bool := e self.

(** What a thread does in one step, as the other thread or an observer
    could tell: the calls on the shared cell with the value written or
    read, the delays, and the calls of the two accumulation hooks. *)
Inductive event : Set :=
| Delay (millis : pynum)
| SetSpeed (v : pynum)
| End
| GetEnd (b : bool)
| GetSpeed (v : pynum)
| AccelMph (speed_diff : pynum)
| AccelKph (speed_diff : pynum)
| Raised (ex : exn).

(** [ReplayThread.replay_speed]: where the thread stands. [PLoop rest] is
    the head of the [for] loop with [rest] still to replay, [PSet v rest]
    is after [delay(speed[0])] and before [set_speed(speed[1])]. *)
Inductive producer : Set :=
| PLoop (rest : list sample)
| PSet (v : pynum) (rest : list sample)
| PDone.

(** [ParseThread.read_speed]: at the [while] test, in the loop body before
    the delay, before the read, or returned; [old_speed] is the local. *)
Inductive consumer : Set :=
| CTest (old_speed : pynum)
| CDelay (old_speed : pynum)
| CRead (old_speed : pynum)
| CDone
| CFailed (ex : exn).

(** Whether [delay(millis)] returns. Its first line computes
    [perf_counter() + millis / 1000]: the division raises [OverflowError]
    for an int too large for a float, and then nothing catches it. The
    loop that follows busy-waits until the clock passes the sum; it never
    does when the sum is [+inf], and passes at once when it is [nan]. *)
Definition delay_returns (millis : pynum) : bool :=
  match PyArith.truediv millis (PyInt 1000) with
  | Ok secs => negb (PrimFloat.eqb secs infinity)
  | Raise _ => false
  end.

(** The argument of [process_accel_mph]: [speed - old_speed]. *)
Definition mph_diff (speed old_speed : pynum) : result pynum :=
  Py.sub speed old_speed.

(** The argument of [process_accel_kph]:
    [speed / 1.609 - old_speed / 1.609]. *)
Definition kph_diff (speed old_speed : pynum) : result pynum :=
  a <- Py.truediv speed Reference.KPH_TO_MPH ;;
  b <- Py.truediv old_speed Reference.KPH_TO_MPH ;;
  Py.sub a b.

Record system : Set := mkSystem {
  shared : Speed;
  replay : producer;
  parse : consumer
}.

Inductive thread : Set := T_replay | T_parse.

(** One atomic step of a thread: at most one access to the shared cell,
    together with the thread-local computation that follows it. [None]
    when the thread makes no step: it has ended, or it is the producer
    at a [delay] that does not return (the exception ends the thread
    inside the loop, or the thread waits for ever; either way [end()] is
    never called). The consumer's [delay(1000)] always returns.
    [process_accel_mph] and [process_accel_kph] are [pass], so the two
    accumulators stay empty and are left out. *)
Definition step (t : thread) (st : system) : option (system * list event) :=
  match t with
  | T_replay =>
      match replay st with
      | PLoop [] =>
          Some (mkSystem (end_ (shared st)) PDone (parse st), [End])
      | PLoop (speed :: rest) =>
          if delay_returns (fst speed) then
            Some (mkSystem (shared st) (PSet (snd speed) rest) (parse st),
                  [Delay (fst speed)])
          else None
      | PSet v rest =>
          Some (mkSystem (set_speed (shared st) v) (PLoop rest) (parse st),
                [SetSpeed v])
      | PDone => None
      end
  | T_parse =>
      match parse st with
      | CTest old_speed =>
          let b := get_end (shared st) in
          Some (mkSystem (shared st) (replay st)
                         (if b then CDelay old_speed else CDone),
                [GetEnd b])
      | CDelay old_speed =>
          Some (mkSystem (shared st) (replay st) (CRead old_speed),
                [Delay (PyInt 1000)])
      | CRead old_speed =>
          let speed := get_speed (shared st) in
          match mph_diff speed old_speed with
          | Raise ex =>
              Some (mkSystem (shared st) (replay st) (CFailed ex),
                    [GetSpeed speed; Raised ex])
          | Ok x =>
              match kph_diff speed old_speed with
              | Raise ex =>
                  Some (mkSystem (shared st) (replay st) (CFailed ex),
                        [GetSpeed speed; AccelMph x; Raised ex])
              | Ok y =>
                  Some (mkSystem (shared st) (replay st) (CTest speed),
                        [GetSpeed speed; AccelMph x; AccelKph y])
              end
          end
      | CDone | CFailed _ => None
      end
  end.

(** The run under a schedule: which thread moves next, turn by turn (a
    turn given to a thread that makes no step is skipped). *)
Fixpoint run (sched : list thread) (st : system) : system * list event :=
  match sched with
  | [] => (st, [])
  | t :: sched' =>
      match step t st with
      | None => run sched' st
      | Some (st', evs) =>
          let '(st'', evs') := run sched' st' in (st'', evs ++ evs')
      end
  end.

(** [start_dist]: a fresh cell, the producer at the head of its loop and
    the consumer at its first test with [old_speed = 0.0]. *)
Definition start_dist (time_speed : list sample) : system :=
  mkSystem Speed_init (PLoop time_speed) (CTest (PyFloat 0)).

(** *** Vocabulary for the claims about the pipeline *)

(** The speed of the last sample, i.e. the producer's final write; the
    initial [0.0] when there is no sample. *)
Definition final_speed (time_speed : list sample) : pynum :=
  last (map snd time_speed) (PyFloat 0).

(** Whether, along a trace, every observation of the end of the replay
    ([get_end()] returning [False]) comes after a read of the speed that
    itself comes after the last write so far. [seen] says whether the
    consumer has read the speed since the last write. *)
Fixpoint final_seen_before_end (seen : bool) (tr : list event) : bool :=
  match tr with
  | [] => true
  | SetSpeed _ :: tr' => final_seen_before_end false tr'
  | GetSpeed _ :: tr' => final_seen_before_end true tr'
  | GetEnd false :: tr' => seen && final_seen_before_end seen tr'
  | _ :: tr' => final_seen_before_end seen tr'
  end.

(** The pairs (argument of [process_accel_mph], argument of
    [process_accel_kph]) of the polling iterations of a trace. *)
Fixpoint accel_calls (tr : list event) : list (pynum * pynum) :=
  match tr with
  | AccelMph x :: AccelKph y :: tr' => (x, y) :: accel_calls tr'
  | _ :: tr' => accel_calls tr'
  | [] => []
  end.

(** The spec's replay scenario. *)
Definition two_samples : list sample :=
  [(PyInt 0, PyFloat 10); (PyInt 1000, PyFloat 20)].

(** The consumer tests and reads 10.0 while the producer waits for its
    second sample; the producer then writes 20.0 and ends; the consumer's
    next test sees the end. *)
Definition late_write : list thread :=
  [T_replay; T_replay; T_parse; T_parse; T_replay; T_parse;
   T_replay; T_replay; T_parse].

(** Where the producer stands fixes what the cell holds: the end flag is
    cleared exactly when the producer is done, and the speed still to
    come last (the one in the cell when nothing is to come) is the
    final speed. *)
Definition producer_inv (time_speed : list sample) (st : system) : Prop :=
  match replay st with
  | PLoop rest =>
      e (shared st) = true /\
      last (map snd rest) (s (shared st)) = final_speed time_speed
  | PSet v rest =>
      e (shared st) = true /\
      last (map snd rest) v = final_speed time_speed
  | PDone =>
      e (shared st) = false /\ s (shared st) = final_speed time_speed
  end.

Definition is_write (ev : event) : bool :=
  match ev with SetSpeed _ => true | _ => false end.

(** Along a trace, no write of the speed comes after an observation of
    the end. *)
Fixpoint writes_precede_end_seen (tr : list event) : bool :=
  match tr with
  | [] => true
  | GetEnd false :: tr' =>
      forallb (fun ev => negb (is_write ev)) tr'
      && writes_precede_end_seen tr'
  | _ :: tr' => writes_precede_end_seen tr'
  end.

(** The claim as the specification words it: in every interleaving, the
    consumer has read the speed after the final write before it observes
    the end. *)
Definition final_speed_seen_before_end : Prop :=
  forall time_speed sched,
    final_seen_before_end true (snd (run sched (start_dist time_speed)))
    = true.

(** A replay of 64.0 then 65.5, each read by the consumer. *)
Definition speeding_up : list sample :=
  [(PyInt 0, PyFloat 64); (PyInt 1000, PyFloat 0x1.06p+6)].

Definition in_step : list thread :=
  [T_replay; T_replay; T_parse; T_parse; T_parse;
   T_replay; T_replay; T_parse; T_parse; T_parse; T_replay; T_parse].

(** The claim as the specification words it: in every polling iteration
    of every run, the value passed to [process_accel_kph] is the value
    passed to [process_accel_mph] divided by 1.609. *)
Definition kph_is_mph_scaled : Prop :=
  forall time_speed sched x y,
    In (x, y) (accel_calls (snd (run sched (start_dist time_speed)))) ->
    exists q, Py.truediv x Reference.KPH_TO_MPH = Ok q /\ Py.eqb q y = true.

(** The consumer's local [old_speed], while it is still polling. *)
Definition old_speed_of (c : consumer) : option pynum :=
  match c with
  | CTest o | CDelay o | CRead o => Some o
  | CDone | CFailed _ => None
  end.

(** *** Vocabulary for further properties of the pipeline *)

(** The calls that change the shared cell. *)
Definition is_update (ev : event) : bool :=
  match ev with SetSpeed _ | End => true | _ => false end.

Definition updates (tr : list event) : list event := filter is_update tr.

(** What [replay_speed] does to the cell for a trip: one [set_speed] per
    sample, in the order of the trip, then [end()]. *)
Definition script (time_speed : list sample) : list event :=
  map (fun speed => SetSpeed (snd speed)) time_speed ++ [End].

(** The part of the script the producer still has to do. *)
Definition pending (p : producer) : list event :=
  match p with
  | PLoop rest => script rest
  | PSet v rest => SetSpeed v :: script rest
  | PDone => []
  end.

(** A speed that arithmetic with a float accepts: a float, or an int that
    converts to float. *)
Definition converts (v : pynum) : Prop := is_ok (Py.to_float v) = true.

(** The consumer has left its loop, by the end of the replay or by an
    exception. *)
Definition ended (c : consumer) : bool :=
  match c with CDone | CFailed _ => true | _ => false end.

(** The number of turns a schedule gives to a thread. *)
Definition turns (t : thread) (sched : list thread) : nat :=
  List.length
    (filter (fun t' => match t, t' with
                       | T_replay, T_replay | T_parse, T_parse => true
                       | _, _ => false
                       end) sched).

(** The turns the producer needs to get to the end of its loop. *)
Definition producer_turns (p : producer) : nat :=
  match p with
  | PLoop rest => 2 * List.length rest + 1
  | PSet _ rest => 2 * List.length rest + 2
  | PDone => 0
  end.

(** Every delay the producer has still to make returns. *)
Definition delays_return (p : producer) : Prop :=
  match p with
  | PLoop rest | PSet _ rest =>
      Forall (fun speed => delay_returns (fst speed) = true) rest
  | PDone => True
  end.

(** One of the delays the producer has still to make does not return. *)
Definition held_up (p : producer) : Prop :=
  match p with
  | PLoop rest | PSet _ rest =>
      Exists (fun speed => delay_returns (fst speed) = false) rest
  | PDone => False
  end.

(** A trip whose first delta is an int too large for a float. *)
Definition overlong : list sample :=
  [(PyInt (10 ^ 400), PyFloat 1)].

(** The turns the consumer needs to leave its loop once the replay has
    ended. *)
Definition consumer_turns (c : consumer) : nat :=
  match c with
  | CDelay _ => 3
  | CRead _ => 2
  | CTest _ => 1
  | CDone | CFailed _ => 0
  end.

(** Every speed the consumer can meet converts to float, and it has not
    failed. *)
Definition sound (st : system) : Prop :=
  converts (s (shared st)) /\
  match replay st with
  | PLoop rest => Forall (fun speed => converts (snd speed)) rest
  | PSet v rest => converts v /\ Forall (fun speed => converts (snd speed)) rest
  | PDone => True
  end /\
  match parse st with
  | CTest o | CDelay o | CRead o => converts o
  | CDone => True
  | CFailed _ => False
  end.

Definition quiet (evs : list event) : Prop :=
  forall ex, ~ In (Raised ex) evs.

(** The speeds the consumer reads, in the order of the trace. *)
Fixpoint reads (tr : list event) : list pynum :=
  match tr with
  | [] => []
  | GetSpeed v :: tr' => v :: reads tr'
  | _ :: tr' => reads tr'
  end.

(** [rs] can be read off [l] from left to right: each value is the
    element one stands on, and one may stay on it or move on to a later
    one, never back. *)
Inductive in_order : list pynum -> list pynum -> Prop :=
| in_order_nil (l : list pynum) : in_order [] l
| in_order_stay (v : pynum) (rs l : list pynum) :
    in_order rs (v :: l) -> in_order (v :: rs) (v :: l)
| in_order_skip (v : pynum) (rs l : list pynum) :
    in_order rs l -> in_order rs (v :: l).

(** The speed in the cell, followed by those the producer has still to
    write. *)
Definition ahead (st : system) : list pynum :=
  s (shared st) ::
  match replay st with
  | PLoop rest => map snd rest
  | PSet v rest => v :: map snd rest
  | PDone => []
  end.

End Replay.

(* ------------------------------------------------------------------ *)
(** ** [CANoe.start_Measurement] *)

Module CANoe.

Definition retry_counter : Z := 5.

Section Application.

(** The COM application object is not part of the repository. Its
    state, the property [Measurement.Running], the call
    [Measurement.Start()] and what the application does during a
    [time.sleep] are taken as given. *)
Variable application : Type.
Variable Running : application -> bool.
Variable Start : application -> application.
Variable sleep : Z -> application -> application.

(** The [while] loop; [fuel] bounds the iterations still allowed. *)
Fixpoint start_loop (fuel : nat) (app : application) (retry : Z)
  : application * Z :=
  match fuel with
  | O => (app, retry)
  | S fuel' =>
      if negb (Running app) && (retry <? retry_counter)
      then start_loop fuel' (sleep 1 (Start app)) (retry + 1)
      else (app, retry)
  end.

Definition start_Measurement (app : application)
  : application * result unit :=
  let retry := 0 in
  let '(app, retry) := start_loop (Z.to_nat retry_counter) app retry in
  if retry =? retry_counter
  then (app, Raise RuntimeWarning)
  else (app, Ok tt).

End Application.

(** A simulated application that reports the measurement as running once
    [Start()] has been called [ack] times; it counts the calls and the
    seconds slept. *)
Record sim : Set := mkSim { starts : nat; clock : Z; ack : nat }.

Definition sim_Running (a : sim) : bool := (ack a <=? starts a)%nat.
Definition sim_Start (a : sim) : sim :=
  mkSim (S (starts a)) (clock a) (ack a).
Definition sim_sleep (secs : Z) (a : sim) : sim :=
  mkSim (starts a) (clock a + secs) (ack a).

End CANoe.

(* ------------------------------------------------------------------ *)
(** ** Concrete sessions *)

Module Scenario.

Definition nl : string := String (ascii_of_nat 10) EmptyString.

(** The two data lines of the docstring of [parse_file], with the
    masked identifier written as [000], after three header lines. *)
Definition docstring_file : list string := [
  "date Thu Dec 19 01:32:07.156 pm 2019" ++ nl;
  "base hex  timestamps absolute" ++ nl;
  "internal events logged" ++ nl;
  "  12.940318 1  000             Tx   d 6 00 00 00 00 00 00  Length = 205987 BitCount = 106 ID = 000X" ++ nl;
  "  13.140300 1  000             Tx   d 6 01 00 00 00 00 00  Length = 205987 BitCount = 106 ID = 000X" ++ nl
]%string.

(** A decoder that reads the first payload byte as a float. *)
Definition byte0 (fr : frame) : result pynum :=
  tok <- Py.index fr 0 ;;
  v <- Py.int16 tok ;;
  f <- Py.float_of_int v ;;
  Ok (PyFloat f).

(** The reference identifiers and engine status with a speed decoder
    plugged in: the two lines above decode to 0.0 and 1.0. *)
Definition decoding : config :=
  mkConfig Reference.ENG_MSG_STD Reference.ENG_MSG_EV Reference.SPD_MSG_1
           byte0 Reference.get_speed_signal_b
           Reference.get_engine_signal_a Reference.get_engine_signal_b
           Reference.get_engine_signal_EV_a Reference.engine_status.

(** A configuration with three distinct identifiers, in which the
    engine is off exactly when the last decoded rpm is 0. *)
Definition segmenting : config :=
  mkConfig 0x200 0x300 0x100
           byte0 (fun _ => Ok (PyInt Reference.MI))
           byte0 (fun _ => Ok (PyInt 0))
           byte0
           (fun c => match rpm c with
                     | Some (PyFloat f) => negb (PrimFloat.eqb f 0)
                     | _ => true
                     end).

(** Speed, speed, engine off, speed (dropped), engine on, speed, speed,
    an unknown id, engine off. *)
Definition two_trips_file : list string := [
  "date"; "base"; "internal";
  "1.000 1 100 Tx d 1 0A";
  "2.000 1 100 Tx d 1 14";
  "2.500 1 200 Tx d 1 00";
  "3.000 1 100 Tx d 1 1E";
  "3.500 1 200 Tx d 1 08";
  "4.001 1 100 Tx d 1 28";
  "5.000 1 100 Tx d 1 32";
  "5.000 1 999 Tx d 8 00";
  "6.500 1 200 Tx d 1 00"
]%string.

(** A configuration with the same identifiers, in which the engine is
    off exactly when the last decoded [on] signal of the EV engine frame
    is 0. *)
Definition electric : config :=
  mkConfig 0x200 0x300 0x100
           byte0 (fun _ => Ok (PyInt Reference.MI))
           byte0 (fun _ => Ok (PyInt 0))
           byte0
           (fun c => match on c with
                     | Some (PyFloat f) => negb (PrimFloat.eqb f 0)
                     | _ => true
                     end).

(** Speed, EV engine off, speed (dropped), EV engine on, speed, a
    standard engine frame (which reports the engine still on), EV engine
    off. *)
Definition electric_file : list string := [
  "date"; "base"; "internal";
  "1.000 1 100 Tx d 1 0A";
  "2.500 1 300 Tx d 1 00";
  "3.000 1 100 Tx d 1 1E";
  "3.500 1 300 Tx d 1 01";
  "4.001 1 100 Tx d 1 28";
  "4.500 1 200 Tx d 1 00";
  "6.500 1 300 Tx d 1 00"
]%string.

(** A data line that declares 8 payload bytes and carries 2. *)
Definition truncated_line : list string :=
  ["1.0"; "1"; "0"; "Tx"; "d"; "8"; "00"; "01"]%string.

End Scenario.

(* ------------------------------------------------------------------ *)
(** ** Vocabulary for the claims about the parse *)

(** *** The parse as a sequence of contexts *)

(** The contexts a parse goes through: the one it starts from, then the
    one left by each data line, up to the end of the file or to the line
    that raises. *)
Fixpoint parse_trace (cfg : config) (file : list string) (count : nat)
    (ctx : context) : list context :=
  match file with
  | [] => [ctx]
  | line :: rest =>
      if (count <? 3)%nat then parse_trace cfg rest (count + 1) ctx
      else
        match parse_line cfg line ctx with
        | Ok ctx' => ctx :: parse_trace cfg rest count ctx'
        | Raise _ => [ctx]
        end
  end.

(** The context the loop of [parse_file] is entered with. *)
Definition initial (cfg : config) : context :=
  set_engine (engine_status cfg context0) context0.

(** The number of places where the engine flag goes from on to off. *)
Fixpoint on_off_edges (l : list context) : nat :=
  match l with
  | [] => 0
  | c :: l' =>
      match l' with
      | [] => 0
      | c' :: _ =>
          ((if engine c && negb (engine c') then 1 else 0)
           + on_off_edges l')%nat
      end
  end.

(** [R] holds between every context of the list and the next one. *)
Fixpoint chain (R : context -> context -> Prop) (l : list context) : Prop :=
  match l with
  | [] => True
  | c :: l' =>
      match l' with
      | [] => True
      | c' :: _ => R c c' /\ chain R l'
      end
  end.

(** What a step may do to the trip list: append one empty trip exactly
    when the engine goes from on to off, keep its length otherwise. *)
Definition trip_opened_on_edge (c c' : context) : Prop :=
  if engine c && negb (engine c')
  then time_speed c' = time_speed c ++ [[]]
  else List.length (time_speed c') = List.length (time_speed c).

(** *** Engine edges as the engine frames report them *)

(** A data line as [parse_file] reads it: timestamp, identifier and
    payload. *)
Definition read_line (line : string) : result (Z * Z * frame) :=
  let split := Py.split line in
  t <- get_offset_ms split ;;
  tok <- Py.index split 2 ;;
  id <- Py.int16 tok ;;
  frame <- get_frame split ;;
  Ok (t, id, frame).

(** What a data line tells about the engine. A standard engine frame
    (its identifier is [ENG_MSG_STD] and not [SPD_MSG_1]) tells what
    [engine_status] says of the context once the timestamp and the
    ['rpm'] and ['ign'] of the frame are stored in it; an EV engine frame
    (its identifier is [ENG_MSG_EV] and none of the two others) tells
    what it says once the timestamp and the ['on'] of the frame are
    stored. Any other line tells nothing. *)
Definition engine_report (cfg : config) (line : string) (c : context)
  : option bool :=
  match read_line line with
  | Ok (t, id, fr) =>
      if id =? SPD_MSG_1 cfg then None
      else if id =? ENG_MSG_STD cfg then
        match get_engine_signal_a cfg fr, get_engine_signal_b cfg fr with
        | Ok a, Ok b =>
            Some (engine_status cfg (set_ign b (set_rpm a (set_time t c))))
        | _, _ => None
        end
      else if id =? ENG_MSG_EV cfg then
        match get_engine_signal_EV_a cfg fr with
        | Ok a => Some (engine_status cfg (set_on a (set_time t c)))
        | Raise _ => None
        end
      else None
  | Raise _ => None
  end.

(** What a data line does to the engine flag and to the trip list, given
    what it reports: after an engine frame the flag is the reported
    status, and one empty trip has been appended when the report is off
    while the flag was on, nothing otherwise; any other line leaves the
    flag and the number of trips as they are. *)
Definition follows_report (cfg : config) (line : string) (c c' : context)
  : Prop :=
  match engine_report cfg line c with
  | Some status =>
      engine c' = status /\
      if engine c && negb status
      then time_speed c' = time_speed c ++ [[]] /\
           trips c' = (trips c + 1)%nat
      else time_speed c' = time_speed c /\ trips c' = trips c
  | None =>
      engine c' = engine c /\ trips c' = trips c /\
      List.length (time_speed c') = List.length (time_speed c)
  end.

(** [R] holds for every line, between the context before it and the
    context after it; there is one context more than there are lines. *)
Fixpoint along (R : string -> context -> context -> Prop)
    (lines : list string) (tr : list context) : Prop :=
  match lines, tr with
  | [], [_] => True
  | line :: lines', c :: tr' =>
      match tr' with
      | c' :: _ => R line c c' /\ along R lines' tr'
      | [] => False
      end
  | _, _ => False
  end.

(** The number of on-to-off edges in the engine status as it is
    reported along the parse: [status] is the last status reported (at
    first, the one [parse_file] initialises the flag with), and an edge
    is an engine frame that reports off when the last report was on. *)
Fixpoint reported_edges (cfg : config) (status : bool)
    (lines : list string) (tr : list context) : nat :=
  match lines, tr with
  | line :: lines', c :: tr' =>
      match engine_report cfg line c with
      | Some status' =>
          ((if status && negb status' then 1 else 0)
           + reported_edges cfg status' lines' tr')%nat
      | None => reported_edges cfg status lines' tr'
      end
  | _, _ => 0%nat
  end.

(** *** The steps of the trip state machine *)

(** The four things a successfully processed line with timestamp [t] can
    do to the fields that carry the trips: nothing; record a sample in
    the current trip; close the trip (engine on to off); switch the
    engine on. *)
Inductive trip_step (t : Z) (c c' : context) : Prop :=
| step_idle :
    old_time c' = old_time c -> trips c' = trips c ->
    engine c' = engine c -> time_speed c' = time_speed c ->
    trip_step t c c'
| step_sample (d v : pynum) :
    engine c = true -> engine c' = true -> trips c' = trips c ->
    Py.sub (PyInt t) (old_time c) = Ok d ->
    append_at (time_speed c) (trips c) (d, v) = Ok (time_speed c') ->
    old_time c' = PyInt t ->
    trip_step t c c'
| step_off :
    engine c = true -> engine c' = false ->
    trips c' = (trips c + 1)%nat ->
    time_speed c' = time_speed c ++ [[]] ->
    old_time c' = old_time c ->
    trip_step t c c'
| step_on :
    engine c = false -> engine c' = true -> trips c' = trips c ->
    time_speed c' = time_speed c -> old_time c' = old_time c ->
    trip_step t c c'.

(** *** Frames and timestamps *)

(** The claim as the specification words it: a declared length above the
    number of remaining tokens makes the decoding fail. *)
Definition truncated_frame_raises : Prop :=
  forall line tok n,
    Py.index line 5 = Ok tok -> Py.int10 tok = Ok n ->
    Z.of_nat (List.length line - 6) < n ->
    exists ex, get_frame line = Raise ex.

(** The rational number a finite float stands for (0 for the others). *)
Definition SF_value (x : spec_float) : Q :=
  match x with
  | S754_finite s m e =>
      let v := match e with
               | Z.neg p => Z.pos m # (2 ^ p)
               | _ => inject_Z (Z.pos m * 2 ^ e)
               end in
      if s then Qopp v else v
  | _ => 0%Q
  end.

Definition float_value (f : PrimFloat.float) : Q := SF_value (Prim2SF f).

Definition float_finite (f : PrimFloat.float) : bool :=
  match Prim2SF f with
  | S754_zero _ | S754_finite _ _ _ => true
  | _ => false
  end.

(** An int that converts to float without loss: [float(t) == t]. *)
Definition exact_int (t : Z) : Prop :=
  exists f, Py.float_of_int t = Ok f /\ Py.integral f = Some t.

(** The number a decimal token denotes, exactly: sign, digits, point and
    exponent as [float()] reads them, without the rounding to binary64.
    [None] for a token that is no decimal number. *)
Definition decimal_value (tok : string) : option Q :=
  let '(neg, cs) := Py.take_sign (Py.strip (list_ascii_of_string tok)) in
  match Py.number cs with
  | Some (ds, nfrac, rest) =>
      match Py.exponent rest with
      | Some (e, []) =>
          let d := Py.of_digits 10 ds in
          Some (inject_Z (if neg then - d else d)
                * Qpower (inject_Z 10) (e - nfrac))%Q
      | _ => None
      end
  | None => None
  end.

(** The claim as the specification words it: the timestamp of a data
    line is its seconds token times 1000, cut to an integer, so that
    [get_offset_ms] returns the floor of that product for every
    nonnegative token. *)
Definition timestamp_is_floor_of_seconds : Prop :=
  forall offset tok sec,
    Py.index offset 0 = Ok tok -> decimal_value tok = Some sec ->
    (0 <= sec)%Q ->
    get_offset_ms offset = Ok (Qfloor (sec * 1000)).


(** *** Comparing outputs *)

(** [a == b] on trip lists, as Python compares them. *)
Definition sample_eqb (a b : sample) : bool :=
  Py.eqb (fst a) (fst b) && Py.eqb (snd a) (snd b).

Fixpoint list_eqb {A} (eqb : A -> A -> bool) (l1 l2 : list A) : bool :=
  match l1 with
  | [] => match l2 with [] => true | _ :: _ => false end
  | a :: l1' =>
      match l2 with
      | [] => false
      | b :: l2' => eqb a b && list_eqb eqb l1' l2'
      end
  end.

Definition trips_eqb : list (list sample) -> list (list sample) -> bool :=
  list_eqb (list_eqb sample_eqb).

(** *** Lines that decode *)

(** A data line all of whose tokens can be read: the timestamp, the
    identifier and the declared length. *)
Definition line_decodes (line : string) : bool :=
  let split := Py.split line in
  is_ok (t <- get_offset_ms split ;;
         tok <- Py.index split 2 ;;
         _ <- Py.int16 tok ;;
         get_frame split).

(** The context is fit for another sample: the trip index is in range
    and [old_time] is the initial [0.0] or an int. *)
Definition ready (c : context) : Prop :=
  (trips c < List.length (time_speed c))%nat /\
  (old_time c = PyFloat 0 \/ exists z, old_time c = PyInt z).

(** *** The speed events behind a trip *)

(** The number of samples recorded so far, over all trips. *)
Definition nsamples (c : context) : nat :=
  List.length (List.concat (time_speed c)).

(** The speed events behind the samples, read off the parse: when a step
    has added a sample, the timestamp of its line goes to the trip that
    was current; when it has added a trip, an empty trip is added. *)
Definition record_step (c c' : context) (st : list (list Z))
  : list (list Z) :=
  if (nsamples c <? nsamples c')%nat then
    match time c' with
    | Some t =>
        firstn (trips c) st
        ++ (nth (trips c) st [] ++ [t]) :: skipn (trips c + 1) st
    | None => st
    end
  else if (List.length (time_speed c) <? List.length (time_speed c'))%nat
       then st ++ [[]]
       else st.

Fixpoint underlying (tr : list context) (st : list (list Z))
  : list (list Z) :=
  match tr with
  | [] => st
  | c :: tr' =>
      match tr' with
      | [] => st
      | c' :: _ => underlying tr' (record_step c c' st)
      end
  end.

(** The timestamps of the speed events of each trip of a parse. *)
Definition speed_events (cfg : config) (file : list string)
  : list (list Z) :=
  underlying (parse_trace cfg file 0 (initial cfg)) [[]].

(** The value [old_time] has after the events [ts], from [base]. *)
Definition next_base (base : pynum) (ts : list Z) : pynum :=
  match ts with
  | [] => base
  | _ :: _ => PyInt (last ts 0)
  end.

(** The value of [old_time] when trip [k] receives its first sample. *)
Definition base_before (st : list (list Z)) (k : nat) : pynum :=
  fold_left next_base (firstn k st) (PyFloat 0).

(** Each delta is measured against the event before it. *)
Fixpoint expected_deltas (base : pynum) (ts : list Z)
  : list (result pynum) :=
  match ts with
  | [] => []
  | t :: ts' => Py.sub (PyInt t) base :: expected_deltas (PyInt t) ts'
  end.

Fixpoint expected_trips (base : pynum) (st : list (list Z))
  : list (list (result pynum)) :=
  match st with
  | [] => []
  | ts :: st' =>
      expected_deltas base ts :: expected_trips (next_base base ts) st'
  end.

Definition deltas (trip : list sample) : list (result pynum) :=
  map (fun x => Ok (fst x)) trip.

(** The integer a delta is equal to, when it is one. *)
Definition ms_value (d : pynum) : option Z :=
  match d with
  | PyInt z => Some z
  | PyFloat f => Py.integral f
  end.

(** The deltas of a trip, added up as integers. *)
Fixpoint sum_ms (trip : list sample) : option Z :=
  match trip with
  | [] => Some 0
  | x :: rest =>
      match ms_value (fst x), sum_ms rest with
      | Some a, Some b => Some (a + b)
      | _, _ => None
      end
  end.

(** The invariant of the parse: the deltas are those of the recorded
    events, [old_time] is the last recorded event, and the current trip
    is the last one. *)
Definition tracked (c : context) (st : list (list Z)) : Prop :=
  map deltas (time_speed c) = expected_trips (PyFloat 0) st /\
  old_time c = fold_left next_base st (PyFloat 0) /\
  List.length st = (trips c + 1)%nat.

(** The claim as the specification words it: the deltas of a trip add up
    (as Python adds and compares numbers) to the timestamp of its last
    speed event minus that of its first. *)
Definition trip_sum_is_last_minus_first (cfg : config) (file : list string)
  : Prop :=
  forall trs k trip ts t1 total,
    parse_file cfg file = Ok trs ->
    nth_error trs k = Some trip ->
    nth_error (speed_events cfg file) k = Some ts ->
    hd_error ts = Some t1 ->
    Py.sum (map fst trip) = Ok total ->
    Py.eqb total (PyInt (last ts 0 - t1)) = true.

(** *** Vocabulary for further properties of the parse *)

(** The decoders that [process_frame] calls for [id] return. *)
Definition signals_decode (cfg : config) (id : Z) (fr : frame) : bool :=
  if id =? SPD_MSG_1 cfg then
    is_ok (get_speed_signal_a cfg fr) && is_ok (get_speed_signal_b cfg fr)
  else if id =? ENG_MSG_STD cfg then
    is_ok (get_engine_signal_a cfg fr) && is_ok (get_engine_signal_b cfg fr)
  else if id =? ENG_MSG_EV cfg then
    is_ok (get_engine_signal_EV_a cfg fr)
  else true.

(** The trips of [c] as they stand in a later list [trs]: those already
    closed are there unchanged, the current one has only grown, and
    trips may have been added. *)
Definition kept_in (c : context) (trs : list (list sample)) : Prop :=
  exists closed cur more tail,
    time_speed c = closed ++ [cur] /\
    List.length closed = trips c /\
    trs = closed ++ (cur ++ more) :: tail.

(** The timestamps of the data lines never go back, from [prev] on. *)
Fixpoint monotone (prev : Z) (data : list string) : Prop :=
  match data with
  | [] => True
  | line :: rest =>
      match get_offset_ms (Py.split line) with
      | Ok t => prev <= t /\ monotone t rest
      | Raise _ => True
      end
  end.

(** A delta that is equal to an integer [>= 0]. *)
Definition nonneg_delta (x : sample) : Prop :=
  exists z, ms_value (fst x) = Some z /\ 0 <= z.

(** [old_time] is not later than [prev], and no delta so far is
    negative. *)
Definition on_time (prev : Z) (c : context) : Prop :=
  (old_time c = PyFloat 0 \/ exists z, old_time c = PyInt z /\ z <= prev) /\
  Forall (Forall nonneg_delta) (time_speed c).

(** A data line that decodes and whose identifier is none of the three
    that [process_frame] knows. *)
Definition ignored (cfg : config) (line : string) : bool :=
  line_decodes line &&
  match (tok <- Py.index (Py.split line) 2 ;; Py.int16 tok) with
  | Ok id =>
      negb (id =? SPD_MSG_1 cfg) && negb (id =? ENG_MSG_STD cfg)
      && negb (id =? ENG_MSG_EV cfg)
  | Raise _ => false
  end.

(** The log without the lines that are ignored, header kept. *)
Definition trimmed (cfg : config) (file : list string) : list string :=
  firstn 3 file ++ filter (fun line => negb (ignored cfg line)) (skipn 3 file).

(** The context without the scratch key ['time']. *)
Definition forget (c : context) : context :=
  mkContext (old_time c) (trips c) (engine c) (time_speed c) None
            (speed c) (speed_unit c) (rpm c) (ign c) (on c).

(** Two outcomes of the loop that a caller of [parse_file] cannot tell
    apart. *)
Definition alike (r1 r2 : result context) : Prop :=
  match r1, r2 with
  | Ok c1, Ok c2 => forget c1 = forget c2
  | Raise e1, Raise e2 => e1 = e2
  | _, _ => False
  end.

(** A delta that is an int. *)
Definition int_delta (x : sample) : Prop := exists z, fst x = PyInt z.

(** Among the samples recorded so far, in order, the first has a float
    delta and the others an int delta; [old_time] is an int once a
    sample has been recorded. *)
Definition first_is_float (c : context) : Prop :=
  match List.concat (time_speed c) with
  | [] => old_time c = PyFloat 0
  | first :: rest =>
      (exists f, fst first = PyFloat f) /\ Forall int_delta rest /\
      exists z, old_time c = PyInt z
  end.

(* ------------------------------------------------------------------ *)
(** ** [replay_trip] and [CANoe.stop_Measurement] *)

Module Trip.

(** How a call ends: it returns, it raises, or it never ends (the busy
    loop of [delay] when its target is [+inf]). *)
Inductive outcome (A : Type) : Type :=
| Returns (a : A)
| Raises (ex : exn)
| Hangs.
Arguments Returns {A} a.
Arguments Raises {A} ex.
Arguments Hangs {A}.

Section Application.

(** The COM application, as for [start_Measurement]: its state, the
    property [Measurement.Running], the call [Measurement.Stop()], the
    signal objects that [GetBus(bus).GetSignal(channel, message, signal)]
    returns, the assignment to the property [Value] of a signal, and what
    the application does while [delay] waits for so many seconds, are
    taken as given. *)
Variable application : Type.
Variable Running : application -> bool.
Variable Stop : application -> application.
Variable signal : Type.
Variable GetSignal : string -> Z -> string -> string -> signal.
Variable set_Value : signal -> Z -> application -> application.
Variable wait : PrimFloat.float -> application -> application.

(** What [replay_trip] acts on: the application and the text printed. *)
Record world : Type := mkWorld { app : application; stdout : list string }.

(** A computation on the world; the world is kept as it is at the point
    where the computation raises or hangs. *)
Definition action (A : Type) : Type := world -> world * outcome A.

Definition ret {A} (a : A) : action A := fun w => (w, Returns a).

Definition then_ {A B} (m : action A) (k : A -> action B) : action B :=
  fun w =>
    match m w with
    | (w', Returns a) => k a w'
    | (w', Raises ex) => (w', Raises ex)
    | (w', Hangs) => (w', Hangs)
    end.

Definition lift {A} (r : result A) : action A :=
  fun w => (w, match r with Ok a => Returns a | Raise ex => Raises ex end).

Definition on_app (f : application -> application) : action unit :=
  fun w => (mkWorld (f (app w)) (stdout w), Returns tt).

Definition print (text : string) : action unit :=
  fun w => (mkWorld (app w) (stdout w ++ [text]), Returns tt).

(** [CANoe.stop_Measurement] *)
Definition stop_Measurement : action unit :=
  fun w =>
    if Running (app w) then on_app Stop w else ret tt w.

(** [CANoe.set_GetSigVal], on an object whose application is there. *)
Definition set_GetSigVal (channel_num : Z) (msg_name sig_name : string)
  : signal :=
  GetSignal "CAN" channel_num msg_name sig_name.

(** The busy loop of [delay] ends: the clock passes every target but
    [+inf]. *)
Definition delay_ends (secs : PrimFloat.float) : bool :=
  negb (PrimFloat.eqb secs infinity).

(** [delay(millis)]: the target is [millis / 1000] seconds from now. *)
Definition delay (millis : pynum) : action unit :=
  then_ (lift (PyArith.truediv millis (PyInt 1000)))
        (fun secs =>
           if delay_ends secs then on_app (wait secs)
           else fun w => (w, Hangs)).

Definition CR : string := String (ascii_of_nat 13) EmptyString.

(** The text of the progress line: [str(int(i / length * 100)) + "%\r"]. *)
Definition progress (i length : Z) : result string :=
  q <- PyArith.truediv (PyInt i) (PyInt length) ;;
  p <- PyArith.mul (PyFloat q) (PyInt 100) ;;
  n <- PyArith.int_ p ;;
  Ok (PyArith.str n ++ "%" ++ CR)%string.

(** The body of the [for] loop, from index [i] on. *)
Fixpoint replay_loop (speed_signal : signal) (length per : Z)
    (data : list sample) (i : Z) : action unit :=
  match data with
  | [] => ret tt
  | row :: rest =>
      then_ (delay (fst row)) (fun _ =>
      then_ (lift (x <- PyArith.mul (snd row) (PyFloat 2) ;; PyArith.int_ x))
            (fun v =>
      then_ (on_app (set_Value speed_signal v)) (fun _ =>
      then_ (lift (PyArith.mod_ i per)) (fun r =>
      then_ (if r =? 0
             then then_ (lift (progress i length)) print
             else ret tt) (fun _ =>
      replay_loop speed_signal length per rest (i + 1))))))
  end.

(** [replay_trip], from the freshly dispatched application on: the
    world it is run in is the one [app = CANoe()] leaves, the two lines
    that the constructor prints being part of its [stdout]. *)
Definition replay_trip (data : list sample) : action unit :=
  let unit_signal := set_GetSigVal 1 "XXX_XXX" "XX_XXX_XXXXXXX" in
  then_ (on_app (set_Value unit_signal Reference.MI)) (fun _ =>
  let speed_signal := set_GetSigVal 1 "XXX_XXX" "XX_XXX_XXXXXXX" in
  let length := Z.of_nat (List.length data) in
  then_ (lift (q <- PyArith.truediv (PyInt length) (PyInt 100) ;;
               PyArith.int_ (PyFloat q)))
        (fun per =>
  then_ (replay_loop speed_signal length per data 0) (fun _ =>
  stop_Measurement))).

(** [range(start, start + n)] *)
Fixpoint range (start : Z) (n : nat) : list Z :=
  match n with
  | O => []
  | S n' => start :: range (start + 1) n'
  end.

(** The indices of [range(start, start + n)] at which the loop prints its
    progress: the multiples of [per]. *)
Definition printing (per start : Z) (n : nat) : list Z :=
  filter (fun i => i mod per =? 0) (range start n).

(** [texts] are the progress texts of the indices [is], one each, in
    order. *)
Definition progress_texts (length : Z) (indices : list Z)
    (texts : list string) : Prop :=
  Forall2 (fun i text => progress i length = Ok text) indices texts.

(** The samples written to the signal one after the other, each after
    its delay. *)
Fixpoint written (speed_signal : signal) (data : list (PrimFloat.float * Z))
    (a : application) : application :=
  match data with
  | [] => a
  | (secs, v) :: rest =>
      written speed_signal rest (set_Value speed_signal v (wait secs a))
  end.

(** What [replay_trip] computes from a sample: the seconds to wait and
    the value to write. *)
Definition command (row : sample) : result (PrimFloat.float * Z) :=
  secs <- PyArith.truediv (fst row) (PyInt 1000) ;;
  x <- PyArith.mul (snd row) (PyFloat 2) ;;
  v <- PyArith.int_ x ;;
  Ok (secs, v).

Fixpoint commands (data : list sample) : result (list (PrimFloat.float * Z)) :=
  match data with
  | [] => Ok []
  | row :: rest =>
      c <- command row ;;
      cs <- commands rest ;;
      Ok (c :: cs)
  end.

End Application.

(** A simulated application: whether the measurement runs, and the log
    of what it was told (a value written, seconds waited). *)
Inductive told : Set :=
| Wrote (v : Z)
| Waited (secs : PrimFloat.float).

Record sim : Set := mkSim { running : bool; log : list told }.

Definition sim_Stop (a : sim) : sim := mkSim false (log a).
Definition sim_GetSignal (bus : string) (channel : Z) (msg sig : string)
  : unit := tt.
Definition sim_set_Value (_ : unit) (v : Z) (a : sim) : sim :=
  mkSim (running a) (log a ++ [Wrote v]).
Definition sim_wait (secs : PrimFloat.float) (a : sim) : sim :=
  mkSim (running a) (log a ++ [Waited secs]).

Definition sim_replay_trip (data : list sample) (a : sim)
  : world sim * outcome unit :=
  replay_trip running sim_Stop sim_GetSignal sim_set_Value sim_wait data
              (mkWorld a []).

End Trip.

(* ------------------------------------------------------------------ *)
(** ** [save_to_csv] and [save_to_file_logic] *)

Module Csv.

(** [s.split(sep)] for a separator of one character: the pieces between
    the separators, empty ones included. *)
Fixpoint split_on_aux (sep : ascii) (cs cur : list ascii) : list string :=
  match cs with
  | [] => [string_of_list_ascii (rev cur)]
  | c :: cs' =>
      if Ascii.eqb c sep
      then string_of_list_ascii (rev cur) :: split_on_aux sep cs' []
      else split_on_aux sep cs' (c :: cur)
  end.

Definition split_on (sep : ascii) (s : string) : list string :=
  split_on_aux sep (list_ascii_of_string s) [].

(** [s[:-n]] for [n > 0]. *)
Definition drop_last (n : nat) (s : string) : string :=
  let cs := list_ascii_of_string s in
  string_of_list_ascii (firstn (List.length cs - n) cs).

Definition LF : string := String (ascii_of_nat 10) EmptyString.

Section Library.

(** [datetime] is the standard library's: the type, [strptime] with the
    format of the first header line, the sum of a [datetime] and
    [timedelta(seconds=s, milliseconds=ms)], [strftime] with the format
    ['%Y-%m-%d %H:%M:%S.%f'], and [str] of a float are taken as given. *)
Variable datetime : Type.
Variable strptime : string -> result datetime.
Variable plus_timedelta : datetime -> Z -> Z -> result datetime.
Variable strftime : datetime -> string.
Variable str_float : PrimFloat.float -> string.

(** A row of the export: the time of the event as text, and the speed. *)
Definition row : Type := string * PrimFloat.float.

(** The context of [save_to_csv], from the first data line on:
    ['first_time'] has been read from the first header line by then. *)
Record csv_context : Type := mkCsv {
  first_time : datetime;
  trips : nat;
  engine : bool;
  time_speed : list (list row);
  time_s : Z;
  time_ms : Z;
  speed : option pynum;
  speed_unit : option pynum;
  rpm : option pynum;
  ign : option pynum;
  on : option pynum
}.

Definition set_trips (v : nat) (c : csv_context) : csv_context :=
  mkCsv (first_time c) v (engine c) (time_speed c) (time_s c) (time_ms c)
        (speed c) (speed_unit c) (rpm c) (ign c) (on c).
Definition set_engine (v : bool) (c : csv_context) : csv_context :=
  mkCsv (first_time c) (trips c) v (time_speed c) (time_s c) (time_ms c)
        (speed c) (speed_unit c) (rpm c) (ign c) (on c).
Definition set_time_speed (v : list (list row)) (c : csv_context)
  : csv_context :=
  mkCsv (first_time c) (trips c) (engine c) v (time_s c) (time_ms c)
        (speed c) (speed_unit c) (rpm c) (ign c) (on c).
Definition set_time_s (v : Z) (c : csv_context) : csv_context :=
  mkCsv (first_time c) (trips c) (engine c) (time_speed c) v (time_ms c)
        (speed c) (speed_unit c) (rpm c) (ign c) (on c).
Definition set_time_ms (v : Z) (c : csv_context) : csv_context :=
  mkCsv (first_time c) (trips c) (engine c) (time_speed c) (time_s c) v
        (speed c) (speed_unit c) (rpm c) (ign c) (on c).
Definition set_speed (v : pynum) (c : csv_context) : csv_context :=
  mkCsv (first_time c) (trips c) (engine c) (time_speed c) (time_s c)
        (time_ms c) (Some v) (speed_unit c) (rpm c) (ign c) (on c).
Definition set_speed_unit (v : pynum) (c : csv_context) : csv_context :=
  mkCsv (first_time c) (trips c) (engine c) (time_speed c) (time_s c)
        (time_ms c) (speed c) (Some v) (rpm c) (ign c) (on c).
Definition set_rpm (v : pynum) (c : csv_context) : csv_context :=
  mkCsv (first_time c) (trips c) (engine c) (time_speed c) (time_s c)
        (time_ms c) (speed c) (speed_unit c) (Some v) (ign c) (on c).
Definition set_ign (v : pynum) (c : csv_context) : csv_context :=
  mkCsv (first_time c) (trips c) (engine c) (time_speed c) (time_s c)
        (time_ms c) (speed c) (speed_unit c) (rpm c) (Some v) (on c).
Definition set_on (v : pynum) (c : csv_context) : csv_context :=
  mkCsv (first_time c) (trips c) (engine c) (time_speed c) (time_s c)
        (time_ms c) (speed c) (speed_unit c) (rpm c) (ign c) (Some v).

(** The identifiers and the decoders are those of a [config];
    [engine_status] is read on this context. *)
Variable cfg : config.
Variable engine_status : csv_context -> bool.

(** [l[i].append(x)] *)
Definition append_row (l : list (list row)) (i : nat) (x : row)
  : result (list (list row)) :=
  t <- Py.index l i ;;
  Ok (firstn i l ++ (t ++ [x]) :: skipn (i + 1) l).

Definition save_to_file_logic (id : Z) (ctx : csv_context)
  : result csv_context :=
  if id =? SPD_MSG_1 cfg then
    if negb (engine ctx) then Ok ctx
    else
      curr <- plus_timedelta (first_time ctx) (time_s ctx) (time_ms ctx) ;;
      _ <- Py.index (time_speed ctx) (trips ctx) ;;
      let text := drop_last 3 (strftime curr) in
      v <- getitem (speed ctx) ;;
      f <- Py.to_float v ;;
      ts <- append_row (time_speed ctx) (trips ctx) (text, f) ;;
      Ok (set_time_speed ts ctx)
  else if id =? ENG_MSG_STD cfg then
    let engine' := engine_status ctx in
    if negb engine' && engine ctx then
      let ctx := set_trips (trips ctx + 1) ctx in
      let ctx := set_time_speed (time_speed ctx ++ [[]]) ctx in
      Ok (set_engine false ctx)
    else if engine' && negb (engine ctx) then
      Ok (set_engine true ctx)
    else Ok ctx
  else if id =? ENG_MSG_EV cfg then
    let engine' := engine_status ctx in
    if negb engine' && engine ctx then
      let ctx := set_trips (trips ctx + 1) ctx in
      let ctx := set_time_speed (time_speed ctx ++ [[]]) ctx in
      Ok (set_engine false ctx)
    else if engine' && negb (engine ctx) then
      Ok (set_engine true ctx)
    else Ok ctx
  else Ok ctx.

(** [process_frame], on the context of [save_to_csv]. *)
Definition process_frame (id : Z) (frame : frame)
    (func : Z -> csv_context -> result csv_context) (ctx : csv_context)
  : result csv_context :=
  if id =? SPD_MSG_1 cfg then
    a <- get_speed_signal_a cfg frame ;;
    let ctx := set_speed a ctx in
    b <- get_speed_signal_b cfg frame ;;
    let ctx := set_speed_unit b ctx in
    func id ctx
  else if id =? ENG_MSG_STD cfg then
    a <- get_engine_signal_a cfg frame ;;
    let ctx := set_rpm a ctx in
    b <- get_engine_signal_b cfg frame ;;
    let ctx := set_ign b ctx in
    func id ctx
  else if id =? ENG_MSG_EV cfg then
    a <- get_engine_signal_EV_a cfg frame ;;
    let ctx := set_on a ctx in
    func id ctx
  else Ok ctx.

(** The body of the [for] loop for a line past the header. *)
Definition export_line (line : string) (ctx : csv_context)
  : result csv_context :=
  let split := Py.split line in
  tok <- Py.index split 0 ;;
  let split_time := split_on "." tok in
  whole <- Py.index split_time 0 ;;
  s <- Py.int10 whole ;;
  let ctx := set_time_s s ctx in
  tok <- Py.index split 0 ;;
  f <- Py.float tok ;;
  d <- Py.sub (PyFloat f) (PyInt (time_s ctx)) ;;
  p <- PyArith.mul d (PyInt 1000) ;;
  ms <- PyArith.int_ p ;;
  let ctx := set_time_ms ms ctx in
  tok <- Py.index split 2 ;;
  id <- Py.int16 tok ;;
  frame <- get_frame split ;;
  process_frame id frame save_to_file_logic ctx.

(** The [for line in file] loop after its first iteration, with the
    header counter. *)
Fixpoint export_lines (file : list string) (count : nat) (ctx : csv_context)
  : result csv_context :=
  match file with
  | [] => Ok ctx
  | line :: rest =>
      if (count <? 3)%nat then export_lines rest (count + 1) ctx
      else
        ctx' <- export_line line ctx ;;
        export_lines rest count ctx'
  end.

(** The text of a file of the export. *)
Definition csv_text (trip : list row) : string :=
  String.concat ""
    (map (fun r => (fst r ++ "," ++ str_float (snd r) ++ LF)%string) trip).

(** The files written by the second loop: name and text. *)
Fixpoint csv_files (time_speed : list (list row)) (i : nat)
  : list (string * string) :=
  match time_speed with
  | [] => []
  | trip :: rest =>
      (("save_to_mph_" ++ PyArith.str (Z.of_nat i) ++ ".csv")%string,
       csv_text trip) :: csv_files rest (i + 1)
  end.

(** [save_to_csv], on the lines that iterating the opened file yields;
    the result is the list of the files written. The first iteration of
    the loop is the one with [count == 0]: it reads the start time from
    the first line and makes the context complete. *)
Definition save_to_csv (file : list string)
  : result (list (string * string)) :=
  match file with
  | [] => Ok (csv_files [[]] 0)
  | line :: rest =>
      t <- strptime (drop_last 1 line) ;;
      let ctx := mkCsv t 0 false [[]] 0 0 None None None None None in
      ctx <- export_lines rest 1 ctx ;;
      Ok (csv_files (time_speed ctx) 0)
  end.

(** A data line that reaches one of the engine branches of
    [save_to_file_logic]. *)
Definition engine_frame (line : string) : bool :=
  match (tok <- Py.index (Py.split line) 2 ;; Py.int16 tok) with
  | Ok id =>
      negb (id =? SPD_MSG_1 cfg)
      && ((id =? ENG_MSG_STD cfg) || (id =? ENG_MSG_EV cfg))
  | Raise _ => false
  end.

End Library.

(** A stand-in for the library: a [datetime] is the text of the header
    line, kept as it is; adding an offset appends it in brackets. *)
Definition text_strptime (s : string) : result string := Ok s.
Definition text_plus (d : string) (s ms : Z) : result string :=
  Ok (d ++ "[" ++ PyArith.str s ++ "." ++ PyArith.str ms ++ "]000")%string.
Definition text_strftime (d : string) : string := d.
Definition text_str_float (f : PrimFloat.float) : string :=
  match Py.int_of_float f with
  | Ok z => (PyArith.str z ++ ".0")%string
  | Raise _ => "nan"%string
  end.

End Csv.

(* ------------------------------------------------------------------ *)
(** ** [CANoe.get_EnvVar] and [CANoe.set_EnvVar] *)

Module EnvVar.

Section Application.

(** The COM application runs beside the script: its state, the object
    that [Environment.GetVariable(var)] returns, the reading of and the
    assignment to the property [Value] of such an object, and what the
    application does on its own between two calls, are taken as given.
    The values are numbers. The methods are modelled on an object whose
    [application] is there (after [__init__], before
    [close_simulation]). *)
Variable application : Type.
Variable variable : Type.
Variable GetVariable : string -> variable.
Variable get_Value : variable -> application -> pynum.
Variable set_Value : variable -> pynum -> application -> application.
Variable meanwhile : application -> application.

(** [get_EnvVar(var)]: the application as the call finds it, and the
    value it reads. *)
Definition get_EnvVar (var : string) (app : application)
  : application * pynum :=
  let app := meanwhile app in
  let result := GetVariable var in
  (app, get_Value result app).

(** The [while] loop of [set_EnvVar]; [fuel] bounds the readbacks still
    allowed, and the result is [None] when they are used up. *)
Fixpoint check_loop (fuel : nat) (var : string) (value checker : pynum)
    (app : application) : option application :=
  if negb (Py.eqb checker value) then
    match fuel with
    | O => None
    | S fuel' =>
        let '(app, checker) := get_EnvVar var app in
        check_loop fuel' var value checker app
    end
  else Some app.

(** [set_EnvVar(var, value)], with at most [fuel] readbacks after the
    first one. *)
Definition set_EnvVar (fuel : nat) (var : string) (value : pynum)
    (app : application) : option application :=
  let app := meanwhile app in
  let result := GetVariable var in
  let app := set_Value result value app in
  let '(app, checker) := get_EnvVar var app in
  check_loop fuel var value checker app.

(** The application after the assignment and [k] more readbacks, and
    the value the last of them read. *)
Fixpoint readback (k : nat) (var : string) (value : pynum)
    (app : application) : application * pynum :=
  match k with
  | O => get_EnvVar var (set_Value (GetVariable var) value (meanwhile app))
  | S k' => get_EnvVar var (fst (readback k' var value app))
  end.

End Application.

(** A simulated application that stores what it is given at once, in
    one cell. *)
Definition cell_get (_ : unit) (a : pynum) : pynum := a.
Definition cell_set (_ : unit) (v : pynum) (_ : pynum) : pynum := v.

End EnvVar.

(* ------------------------------------------------------------------ *)
(** ** Lemmas on the built-ins *)

Lemma bind_ok {A B} (r : result A) (k : A -> result B) (b : B) :
  bind r k = Ok b -> exists a, r = Ok a /\ k a = Ok b.
Proof.
  destruct r as [a|e]; simpl; intros H; [exists a; auto | discriminate].
Qed.

Lemma index_ok {A} (l : list A) (i : nat) (a : A) :
  Py.index l i = Ok a -> nth_error l i = Some a.
Proof.
  unfold Py.index. destruct (nth_error l i); congruence.
Qed.

Lemma index_lt {A} (l : list A) (i : nat) :
  (i < List.length l)%nat -> exists a, Py.index l i = Ok a.
Proof.
  intros H. unfold Py.index.
  destruct (nth_error l i) eqn:E; [eauto|].
  apply nth_error_None in E. lia.
Qed.

Lemma append_at_length l i x l' :
  append_at l i x = Ok l' -> List.length l' = List.length l.
Proof.
  unfold append_at. intros H.
  apply bind_ok in H. destruct H as (t & Hi & H). injection H as <-.
  apply index_ok in Hi.
  assert (Hlt : (i < List.length l)%nat)
    by (apply nth_error_Some; congruence).
  rewrite length_app, length_firstn.
  cbn [List.length]. rewrite length_skipn. lia.
Qed.

(** Appending to the last trip. *)
Lemma append_at_last l t x :
  append_at (l ++ [t]) (List.length l) x = Ok (l ++ [t ++ [x]]).
Proof.
  unfold append_at, Py.index.
  rewrite nth_error_app2, Nat.sub_diag by lia. simpl.
  rewrite firstn_app, Nat.sub_diag, firstn_all. simpl.
  rewrite app_nil_r.
  rewrite skipn_all2 by (rewrite length_app; simpl; lia).
  reflexivity.
Qed.

Ltac inv_bind H :=
  let a := fresh "a" in
  let E := fresh "E" in
  apply bind_ok in H; destruct H as (a & E & H).

(* ------------------------------------------------------------------ *)
(** ** Lemmas on the conversions between int and float

    [int(x)] of a finite float is an integer that converts back to float
    without rounding and without overflow. The lemmas follow the rounding
    of [SpecFloat]: a mantissa that is already canonical is left alone,
    an integer below [2^53] is only shifted into place, and a mantissa of
    53 bits followed by zeros loses the zeros. *)

Lemma digits_iter_xO (m k : positive) :
  digits2_pos (Pos.iter xO m k) = (digits2_pos m + k)%positive.
Proof.
  induction k as [|k IH] using Pos.peano_ind.
  - simpl. lia.
  - rewrite Pos.iter_succ. simpl digits2_pos. rewrite IH. lia.
Qed.

Lemma iter_xO_pow2 (m k : positive) :
  Z.pos (Pos.iter xO m k) = Z.pos m * 2 ^ Z.pos k.
Proof.
  induction k as [|k IH] using Pos.peano_ind.
  - simpl. lia.
  - rewrite Pos.iter_succ, Pos2Z.inj_succ, Z.pow_succ_r by lia.
    rewrite Pos2Z.inj_xO, IH. lia.
Qed.

Lemma iter_pos_iter {A} (f : A -> A) (n : positive) : forall x,
  SpecFloat.iter_pos f n x = Pos.iter f x n.
Proof.
  induction n as [n IH | n IH | ]; intros x; simpl.
  - rewrite !IH, !Pos.iter_swap. reflexivity.
  - rewrite !IH. reflexivity.
  - reflexivity.
Qed.

Lemma shr_zeros (q n : positive) :
  SpecFloat.iter_pos shr_1 n
    (Build_shr_record (Z.pos (Pos.iter xO q n)) false false)
  = Build_shr_record (Z.pos q) false false.
Proof.
  rewrite iter_pos_iter.
  induction n as [|n IH] using Pos.peano_ind.
  - reflexivity.
  - rewrite (Pos.iter_succ n _ xO), Pos.iter_succ, <- Pos.iter_swap.
    simpl shr_1. exact IH.
Qed.

Lemma round_canonical sx m e :
  canonical_mantissa prec emax m e = true -> e <= emax - prec ->
  binary_round_aux prec emax sx (Z.pos m) e loc_Exact = S754_finite sx m e.
Proof.
  intros Hc He. unfold canonical_mantissa in Hc. apply Z.eqb_eq in Hc.
  unfold binary_round_aux, shr_fexp.
  change (Zdigits2 (Z.pos m)) with (Z.pos (digits2_pos m)).
  rewrite Hc, Z.sub_diag.
  cbn [shr shr_record_of_loc loc_of_shr_record shr_m shr_r shr_s
       round_nearest_even].
  change (Zdigits2 (Z.pos m)) with (Z.pos (digits2_pos m)).
  rewrite Hc, Z.sub_diag.
  cbn [shr shr_record_of_loc shr_m].
  apply Z.leb_le in He. rewrite He. reflexivity.
Qed.

Lemma fexp_normal x : SpecFloat.emin prec emax <= x - prec -> fexp prec emax x = x - prec.
Proof. intros H. unfold fexp. apply Z.max_l. exact H. Qed.

Lemma round_small sx (p : positive) :
  Z.pos (digits2_pos p) <= prec ->
  exists m e,
    binary_round prec emax sx p 0 = S754_finite sx m e /\
    valid_binary (S754_finite sx m e) = true /\
    e <= 0 /\ Z.pos m = Z.pos p * 2 ^ (- e).
Proof.
  intros Hd. unfold binary_round.
  rewrite Z.add_0_r.
  rewrite fexp_normal by (unfold SpecFloat.emin, prec, emax in *; lia).
  unfold shl_align. rewrite Z.sub_0_r.
  destruct (Z.pos (digits2_pos p) - prec) as [|j|j] eqn:Ej; [| lia |].
  - assert (Hc : canonical_mantissa prec emax p 0 = true).
    { unfold canonical_mantissa. apply Z.eqb_eq.
      rewrite Z.add_0_r, fexp_normal by (unfold SpecFloat.emin, prec, emax in *; lia).
      exact Ej. }
    exists p, 0. split; [|split; [|split]].
    + apply round_canonical; [exact Hc | unfold prec, emax; lia].
    + simpl. unfold bounded. rewrite Hc. reflexivity.
    + lia.
    + simpl. lia.
  - assert (Hc : canonical_mantissa prec emax (Pos.iter xO p j) (Z.neg j)
                 = true).
    { unfold canonical_mantissa. apply Z.eqb_eq.
      rewrite digits_iter_xO, Pos2Z.inj_add.
      rewrite fexp_normal by (unfold SpecFloat.emin, prec, emax in *; lia).
      lia. }
    exists (Pos.iter xO p j), (Z.neg j). split; [|split; [|split]].
    + apply round_canonical; [exact Hc | unfold prec, emax; lia].
    + simpl. unfold bounded. rewrite Hc. reflexivity.
    + lia.
    + rewrite iter_xO_pow2. reflexivity.
Qed.

Lemma round_big sx (q k : positive) :
  Z.pos (digits2_pos q) = prec -> Z.pos k <= emax - prec ->
  binary_round prec emax sx (Pos.iter xO q k) 0 = S754_finite sx q (Z.pos k).
Proof.
  intros Hd Hk.
  assert (Hf : fexp prec emax (Z.pos (digits2_pos (Pos.iter xO q k)) + 0)
               = Z.pos k).
  { rewrite digits_iter_xO, Pos2Z.inj_add, Z.add_0_r.
    rewrite fexp_normal by (unfold SpecFloat.emin, prec, emax in *; lia). lia. }
  unfold binary_round. rewrite Hf.
  unfold shl_align. rewrite Z.sub_0_r.
  unfold binary_round_aux, shr_fexp.
  change (Zdigits2 (Z.pos (Pos.iter xO q k)))
    with (Z.pos (digits2_pos (Pos.iter xO q k))).
  rewrite Hf, Z.sub_0_r.
  cbn [shr shr_record_of_loc]. rewrite shr_zeros.
  cbn [loc_of_shr_record shr_m round_nearest_even].
  change (Zdigits2 (Z.pos q)) with (Z.pos (digits2_pos q)).
  rewrite Z.add_0_l.
  assert (Hf2 : fexp prec emax (Z.pos (digits2_pos q) + Z.pos k) = Z.pos k).
  { rewrite fexp_normal by (unfold SpecFloat.emin, prec, emax in *; lia). lia. }
  rewrite Hf2, Z.sub_diag.
  cbn [shr shr_record_of_loc shr_m].
  apply Z.leb_le in Hk. rewrite Hk. reflexivity.
Qed.

Lemma digits_bound (p : positive) : forall n,
  0 <= n -> Z.pos p < 2 ^ n -> Z.pos (digits2_pos p) <= n.
Proof.
  induction p as [q IH | q IH | ]; intros n Hn Hp.
  - assert (n <> 0) by (intros ->; simpl in Hp; lia).
    replace n with (Z.succ (n - 1)) in Hp by lia.
    rewrite Z.pow_succ_r in Hp by lia.
    specialize (IH (n - 1)). simpl digits2_pos. lia.
  - assert (n <> 0) by (intros ->; simpl in Hp; lia).
    replace n with (Z.succ (n - 1)) in Hp by lia.
    rewrite Z.pow_succ_r in Hp by lia.
    specialize (IH (n - 1)). simpl digits2_pos. lia.
  - assert (n <> 0) by (intros ->; simpl in Hp; lia).
    simpl. lia.
Qed.

Lemma digits_gt (p : positive) : Z.pos p < 2 ^ Z.pos (digits2_pos p).
Proof.
  induction p as [q IH | q IH | ]; simpl digits2_pos;
    rewrite ?Pos2Z.inj_succ, ?Z.pow_succ_r by lia; lia.
Qed.

Lemma exact_of_round t s m e :
  binary_normalize prec emax t 0 false = S754_finite s m e ->
  valid_binary (S754_finite s m e) = true ->
  (if s then - Z.shiftl (Z.pos m) e else Z.shiftl (Z.pos m) e) = t ->
  Z.shiftl (Z.shiftl (Z.pos m) e) (- e) = Z.pos m ->
  exact_int t.
Proof.
  intros Hr Hv Ht Hback. unfold exact_int, Py.float_of_int.
  rewrite Hr. eexists. split; [reflexivity|].
  unfold Py.integral. rewrite Prim2SF_SF2Prim by exact Hv.
  rewrite Hback, Z.eqb_refl, Ht. reflexivity.
Qed.

Lemma exact_small (s : bool) (p : positive) :
  Z.pos p < 2 ^ prec -> exact_int (if s then Z.neg p else Z.pos p).
Proof.
  intros Hp.
  assert (Hd : Z.pos (digits2_pos p) <= prec)
    by (apply digits_bound; [unfold prec; lia | exact Hp]).
  destruct (round_small s p Hd) as (m & e & Hr & Hv & He & Hm).
  assert (Hsh : Z.shiftl (Z.pos m) e = Z.pos p).
  { replace e with (- (- e)) by lia.
    rewrite Z.shiftl_opp_r, Z.shiftr_div_pow2, Hm by lia.
    apply Z.div_mul. apply Z.pow_nonzero; lia. }
  apply (@exact_of_round _ s m e).
  - destruct s; exact Hr.
  - exact Hv.
  - rewrite Hsh. destruct s; reflexivity.
  - rewrite Hsh, Z.shiftl_mul_pow2 by lia. symmetry. exact Hm.
Qed.

Lemma shiftl_pos_iter (m k : positive) :
  Z.shiftl (Z.pos m) (Z.pos k) = Z.pos (Pos.iter xO m k).
Proof.
  rewrite Z.shiftl_mul_pow2 by lia. symmetry. apply iter_xO_pow2.
Qed.

Lemma int_of_float_exact g t : Py.int_of_float g = Ok t -> exact_int t.
Proof.
  unfold Py.int_of_float. pose proof (Prim2SF_valid g) as Hv.
  destruct (Prim2SF g) as [s | s | | s m e]; try discriminate.
  - intros H. injection H as <-.
    exists 0%float. split; vm_compute; reflexivity.
  - intros H. injection H as <-.
    pose proof Hv as Hb. simpl in Hb. unfold bounded in Hb.
    apply andb_true_iff in Hb. destruct Hb as [Hc He].
    unfold canonical_mantissa in Hc.
    apply Z.eqb_eq in Hc. apply Z.leb_le in He.
    unfold fexp, SpecFloat.emin in Hc.
    pose proof (digits_gt m) as Hm.
    destruct e as [|k|k].
    + (* an integer mantissa *)
      simpl Z.shiftl. apply exact_small.
      eapply Z.lt_le_trans; [exact Hm|].
      apply Z.pow_le_mono_r; unfold prec, emax in *; lia.
    + (* a multiple of a power of two *)
      rewrite shiftl_pos_iter.
      apply (@exact_of_round _ s m (Z.pos k)).
      * assert (Hd : Z.pos (digits2_pos m) = prec)
          by (unfold prec, emax in *; lia).
        destruct s; apply round_big; assumption.
      * exact Hv.
      * rewrite shiftl_pos_iter. destruct s; reflexivity.
      * rewrite Z.shiftl_opp_r, Z.shiftr_shiftl_l by lia.
        rewrite Z.sub_diag. reflexivity.
    + (* the integer part of a fraction *)
      assert (Hlt : Z.shiftl (Z.pos m) (Z.neg k) < 2 ^ prec).
      { change (Z.neg k) with (- Z.pos k).
        rewrite Z.shiftl_opp_r, Z.shiftr_div_pow2 by lia.
        apply Z.le_lt_trans with (Z.pos m).
        - assert (0 < 2 ^ Z.pos k) by (apply Z.pow_pos_nonneg; lia).
          apply Z.div_le_upper_bound; [assumption | nia].
        - eapply Z.lt_le_trans; [exact Hm|].
          apply Z.pow_le_mono_r; unfold prec, emax in *; lia. }
      assert (Hge : 0 <= Z.shiftl (Z.pos m) (Z.neg k))
        by (apply Z.shiftl_nonneg; lia).
      destruct (Z.shiftl (Z.pos m) (Z.neg k)) as [|p|p]; [| | lia].
      * replace (if s then - 0 else 0) with 0 by (destruct s; reflexivity).
        exists 0%float. split; vm_compute; reflexivity.
      * replace (if s then - Z.pos p else Z.pos p)
          with (if s then Z.neg p else Z.pos p) by (destruct s; reflexivity).
        apply exact_small. exact Hlt.
Qed.

Lemma get_offset_ms_exact offset t :
  get_offset_ms offset = Ok t -> exact_int t.
Proof.
  unfold get_offset_ms. intros H. inv_bind H. inv_bind H.
  eapply int_of_float_exact. eassumption.
Qed.

(** Subtracting [0.0] changes no float. *)
Lemma float_sub_zero (x : PrimFloat.float) : (x - 0)%float = x.
Proof.
  apply Prim2SF_inj. rewrite sub_spec.
  set (z := Prim2SF 0). vm_compute in z. subst z.
  destruct (Prim2SF x) as [[|] | [|] | | sx m ex]; reflexivity.
Qed.

(* ------------------------------------------------------------------ *)
(** ** What one data line does to the trip state *)

Lemma engine_edge_cases (e e' : bool) :
  (negb e' && e = true /\ e = true /\ e' = false) \/
  (negb e' && e = false /\ e' && negb e = true /\ e = false /\ e' = true) \/
  (negb e' && e = false /\ e' && negb e = false /\ e' = e).
Proof. destruct e, e'; simpl; tauto. Qed.

Lemma speed_events_logic_step cfg id c c' t :
  time c = Some t ->
  speed_events_logic cfg id c = Ok c' ->
  trip_step t c c' /\ time c' = Some t.
Proof.
  intros Ht H. unfold speed_events_logic in H.
  destruct (id =? SPD_MSG_1 cfg).
  { destruct (engine c) eqn:En; simpl in H.
    - inv_bind H. rewrite Ht in H. simpl in H.
      inv_bind H. inv_bind H. inv_bind H.
      injection H as <-. simpl. split; [|assumption].
      eapply step_sample; simpl; eauto.
    - injection H as <-. split; [apply step_idle; reflexivity | assumption]. }
  assert (Hengine :
    (if negb (engine_status cfg c) && engine c
     then let ctx := set_trips (trips c + 1) c in
          let ctx := set_time_speed (time_speed ctx ++ [[]]) ctx in
          let ctx := set_engine false ctx in
          _ <- print_time ctx ;; Ok ctx
     else if engine_status cfg c && negb (engine c)
          then let ctx := set_engine true c in _ <- print_time ctx ;; Ok ctx
          else Ok c) = Ok c' ->
    trip_step t c c' /\ time c' = Some t).
  { clear H. intros H.
    destruct (engine_edge_cases (engine c) (engine_status cfg c))
      as [(E1 & Eon & Eoff) | [(E1 & E2 & Eoff & Eon) | (E1 & E2 & Esame)]];
      rewrite E1 in H; [| rewrite E2 in H | rewrite E2 in H].
    - cbv zeta in H. inv_bind H. injection H as <-. simpl.
      split; [apply step_off; simpl; auto | assumption].
    - cbv zeta in H. inv_bind H. injection H as <-. simpl.
      split; [apply step_on; simpl; auto | assumption].
    - injection H as <-. split; [apply step_idle; reflexivity | assumption]. }
  destruct (id =? ENG_MSG_STD cfg); [exact (Hengine H)|].
  destruct (id =? ENG_MSG_EV cfg); [exact (Hengine H)|].
  injection H as <-. split; [apply step_idle; reflexivity | assumption].
Qed.

(** A step from a context that differs from [c] only in scratch keys is
    a step from [c]. *)
Lemma trip_step_from t c1 c2 c' :
  old_time c1 = old_time c2 -> trips c1 = trips c2 ->
  engine c1 = engine c2 -> time_speed c1 = time_speed c2 ->
  trip_step t c1 c' -> trip_step t c2 c'.
Proof.
  intros Ho Hn He Hs H.
  destruct H;
    [ apply step_idle | eapply step_sample | apply step_off | apply step_on ];
    rewrite <- ?Ho, <- ?Hn, <- ?He, <- ?Hs; eauto.
Qed.

Lemma process_frame_step cfg id fr c c' t :
  time c = Some t ->
  process_frame cfg id fr (speed_events_logic cfg) c = Ok c' ->
  trip_step t c c' /\ time c' = Some t.
Proof.
  intros Ht H. unfold process_frame in H.
  destruct (id =? SPD_MSG_1 cfg).
  { inv_bind H. inv_bind H.
    apply speed_events_logic_step with (t := t) in H; [|assumption].
    destruct H as [H Ht']. split; [|assumption].
    eapply trip_step_from; [| | | | exact H]; reflexivity. }
  destruct (id =? ENG_MSG_STD cfg).
  { inv_bind H. inv_bind H.
    apply speed_events_logic_step with (t := t) in H; [|assumption].
    destruct H as [H Ht']. split; [|assumption].
    eapply trip_step_from; [| | | | exact H]; reflexivity. }
  destruct (id =? ENG_MSG_EV cfg).
  { inv_bind H.
    apply speed_events_logic_step with (t := t) in H; [|assumption].
    destruct H as [H Ht']. split; [|assumption].
    eapply trip_step_from; [| | | | exact H]; reflexivity. }
  injection H as <-. split; [apply step_idle; reflexivity | assumption].
Qed.

Lemma parse_line_step cfg line c c' :
  parse_line cfg line c = Ok c' ->
  exists t, get_offset_ms (Py.split line) = Ok t /\
            time c' = Some t /\ trip_step t c c'.
Proof.
  intros H. unfold parse_line in H.
  inv_bind H. exists a. split; [assumption|].
  inv_bind H. inv_bind H. inv_bind H.
  apply process_frame_step with (t := a) in H; [|reflexivity].
  destruct H as [H Ht]. split; [assumption|].
  eapply trip_step_from; [| | | | exact H]; reflexivity.
Qed.

Lemma trip_step_edge t c c' :
  trip_step t c c' -> trip_opened_on_edge c c'.
Proof.
  unfold trip_opened_on_edge.
  intros [Ho Hn He Hs | d v He He' Hn Hd Ha Ho | He He' Hn Hs Ho
         | He He' Hn Hs Ho].
  - rewrite He, Hs. destruct (engine c); reflexivity.
  - rewrite He, He'. simpl. eapply append_at_length; eassumption.
  - rewrite He, He'. simpl. assumption.
  - rewrite He, He', Hs. reflexivity.
Qed.

Lemma parse_trace_head cfg file count c :
  exists l, parse_trace cfg file count c = c :: l.
Proof.
  revert count c. induction file as [|line rest IH]; intros count c; simpl.
  - eauto.
  - destruct (count <? 3)%nat; [apply IH|].
    destruct (parse_line cfg line c); eauto.
Qed.

Lemma on_off_edges_cons c c' l :
  on_off_edges (c :: c' :: l) =
  ((if engine c && negb (engine c') then 1 else 0)
   + on_off_edges (c' :: l))%nat.
Proof. reflexivity. Qed.

Lemma chain_cons R c c' l :
  chain R (c :: c' :: l) <-> R c c' /\ chain R (c' :: l).
Proof. reflexivity. Qed.

Lemma parse_lines_edges cfg file : forall count c c',
  parse_lines cfg file count c = Ok c' ->
  chain trip_opened_on_edge (parse_trace cfg file count c) /\
  List.length (time_speed c') =
    (List.length (time_speed c)
     + on_off_edges (parse_trace cfg file count c))%nat.
Proof.
  induction file as [|line rest IH]; intros count c c' H; simpl in *.
  - injection H as <-. split; [exact I | lia].
  - destruct (count <? 3)%nat; [apply IH; assumption|].
    destruct (parse_line cfg line c) as [c1|e] eqn:E; simpl in H;
      [|discriminate].
    destruct (IH _ _ _ H) as [Hc Hl].
    destruct (parse_trace_head cfg rest count c1) as [l Hhd].
    rewrite Hhd in *.
    apply parse_line_step in E. destruct E as (t & _ & _ & Hstep).
    apply trip_step_edge in Hstep.
    rewrite chain_cons, on_off_edges_cons.
    split; [split; assumption|].
    rewrite Hl. unfold trip_opened_on_edge in Hstep.
    destruct (engine c && negb (engine c1)).
    + rewrite Hstep, length_app. simpl. lia.
    + rewrite Hstep. lia.
Qed.

(** *** What a data line does, by what it reports *)

(** The two engine branches of [speed_events_logic] are the same text. *)
Lemma engine_branch_follows (status : bool) (c1 c' : context) :
  (if negb status && engine c1
   then let ctx := set_trips (trips c1 + 1) c1 in
        let ctx := set_time_speed (time_speed ctx ++ [[]]) ctx in
        let ctx := set_engine false ctx in
        _ <- print_time ctx ;; Ok ctx
   else if status && negb (engine c1)
        then let ctx := set_engine true c1 in _ <- print_time ctx ;; Ok ctx
        else Ok c1) = Ok c' ->
  engine c' = status /\
  if engine c1 && negb status
  then time_speed c' = time_speed c1 ++ [[]] /\
       trips c' = (trips c1 + 1)%nat
  else time_speed c' = time_speed c1 /\ trips c' = trips c1.
Proof.
  intros H.
  destruct status, (engine c1) eqn:En; cbn [negb andb] in *; cbv zeta in H.
  - injection H as <-. auto.
  - inv_bind H. injection H as <-. cbn. auto.
  - inv_bind H. injection H as <-. cbn. auto.
  - injection H as <-. auto.
Qed.

Lemma parse_line_follows_report cfg line c c' :
  parse_line cfg line c = Ok c' -> follows_report cfg line c c'.
Proof.
  intros H. unfold parse_line in H.
  inv_bind H. rename a into t, E into Et.
  inv_bind H. rename a into tok, E into Etok.
  inv_bind H. rename a into id, E into Eid.
  inv_bind H. rename a into fr, E into Efr.
  unfold follows_report, engine_report, read_line.
  rewrite Et. cbn [bind]. rewrite Etok. cbn [bind].
  rewrite Eid. cbn [bind]. rewrite Efr. cbn [bind].
  unfold process_frame in H.
  destruct (id =? SPD_MSG_1 cfg) eqn:Es.
  - inv_bind H. inv_bind H.
    unfold speed_events_logic in H. rewrite Es in H.
    cbn [engine set_speed set_speed_unit set_time] in H.
    destruct (engine c) eqn:En; cbn [negb] in H.
    + inv_bind H. inv_bind H. inv_bind H. inv_bind H. inv_bind H.
      injection H as <-. cbn. rewrite En.
      split; [reflexivity|]. split; [reflexivity|].
      cbn in E5. eapply append_at_length. exact E5.
    + injection H as <-. cbn. rewrite En. auto.
  - unfold speed_events_logic in H. rewrite Es in H.
    destruct (id =? ENG_MSG_STD cfg) eqn:Estd.
    + inv_bind H. inv_bind H. rewrite E, E0.
      apply engine_branch_follows in H. exact H.
    + destruct (id =? ENG_MSG_EV cfg) eqn:Eev.
      * inv_bind H. rewrite E.
        apply engine_branch_follows in H. exact H.
      * injection H as <-. cbn. auto.
Qed.

Lemma along_cons R line lines c c' tr :
  along R (line :: lines) (c :: c' :: tr) <->
  R line c c' /\ along R lines (c' :: tr).
Proof. reflexivity. Qed.

Lemma parse_lines_reports cfg file : forall count c c',
  (count <= 3)%nat ->
  parse_lines cfg file count c = Ok c' ->
  along (follows_report cfg) (skipn (3 - count) file)
        (parse_trace cfg file count c) /\
  List.length (time_speed c') =
    (List.length (time_speed c)
     + reported_edges cfg (engine c) (skipn (3 - count) file)
                      (parse_trace cfg file count c))%nat.
Proof.
  induction file as [|line rest IH]; intros count c c' Hc H.
  - rewrite skipn_nil. simpl in *. injection H as <-. split; [exact I | lia].
  - simpl parse_lines in H. simpl parse_trace.
    destruct (count <? 3)%nat eqn:E3.
    + apply Nat.ltb_lt in E3.
      replace (3 - count)%nat with (S (3 - (count + 1)))%nat by lia.
      cbn [skipn]. apply IH; [lia | exact H].
    + apply Nat.ltb_ge in E3.
      replace (3 - count)%nat with 0%nat in * by lia. cbn [skipn].
      destruct (parse_line cfg line c) as [c1|ex] eqn:E; cbn [bind] in H;
        [|discriminate].
      destruct (IH count c1 c' Hc H) as [Ha Hl].
      replace (3 - count)%nat with 0%nat in * by lia. cbn [skipn] in *.
      destruct (parse_trace_head cfg rest count c1) as [l Hhd].
      rewrite Hhd in *.
      pose proof (@parse_line_follows_report cfg line c c1 E) as Hf.
      split; [apply along_cons; split; assumption|].
      rewrite Hl. cbn [reported_edges].
      unfold follows_report in Hf.
      destruct (engine_report cfg line c) as [status|].
      * destruct Hf as [He Hts]. rewrite He.
        destruct (engine c && negb status).
        -- destruct Hts as [-> _]. rewrite length_app. simpl. lia.
        -- destruct Hts as [-> _]. lia.
      * destruct Hf as (-> & _ & ->). lia.
Qed.

(* ------------------------------------------------------------------ *)
(** ** C1: one trip more than engine on-to-off edges *)

(** C1. For every file that [parse_file] parses, the returned list holds one
    trip more than the engine frames of the file report on-to-off edges.
    The list starts as one open trip and the flag as the engine status of
    the initial context. At every data line that [process_frame] takes as
    an engine frame (standard or EV), the flag becomes what
    [engine_status] reports once the signals of the frame are stored, and
    one empty trip is appended exactly when that report is off while the
    flag was on; every other line leaves the flag and the number of trips
    as they are. So the on-to-off edges of the flag are those of the
    reported status, and the number of trips is one more than their
    number. *)
Theorem trips_count_is_one_plus_edges cfg file trs :
  parse_file cfg file = Ok trs ->
  time_speed (initial cfg) = [[]] /\
  engine (initial cfg) = engine_status cfg context0 /\
  chain trip_opened_on_edge (parse_trace cfg file 0 (initial cfg)) /\
  along (follows_report cfg) (skipn 3 file)
        (parse_trace cfg file 0 (initial cfg)) /\
  on_off_edges (parse_trace cfg file 0 (initial cfg)) =
    reported_edges cfg (engine_status cfg context0) (skipn 3 file)
                   (parse_trace cfg file 0 (initial cfg)) /\
  List.length trs =
    (1 + on_off_edges (parse_trace cfg file 0 (initial cfg)))%nat.
Proof.
  unfold parse_file. fold (initial cfg). intros H.
  inv_bind H. injection H as <-.
  pose proof (@parse_lines_reports cfg file 0%nat (initial cfg) a
                ltac:(lia) E) as [Ha Hr].
  apply parse_lines_edges in E. destruct E as [Hc Hl].
  change (3 - 0)%nat with 3%nat in *.
  change (engine (initial cfg)) with (engine_status cfg context0) in Hr.
  split; [reflexivity|]. split; [reflexivity|]. split; [assumption|].
  split; [assumption|]. split; [lia|].
  rewrite Hl. reflexivity.
Qed.

(** A session whose standard engine frames report two engine-off edges,
    and one in which the EV engine frames do: three trips each. *)
Lemma trips_count_is_one_plus_edges_witness :
  (parse_file Scenario.segmenting Scenario.two_trips_file =
     Ok [[(PyFloat 1000, PyFloat 10); (PyInt 1000, PyFloat 20)];
         [(PyInt 2001, PyFloat 40); (PyInt 999, PyFloat 50)]; []] /\
   reported_edges Scenario.segmenting true
     (skipn 3 Scenario.two_trips_file)
     (parse_trace Scenario.segmenting Scenario.two_trips_file 0
                  (initial Scenario.segmenting)) = 2%nat /\
   3%nat = (1 + on_off_edges (parse_trace Scenario.segmenting
                                Scenario.two_trips_file 0
                                (initial Scenario.segmenting)))%nat) /\
  (parse_file Scenario.electric Scenario.electric_file =
     Ok [[(PyFloat 1000, PyFloat 10)]; [(PyInt 3001, PyFloat 40)]; []] /\
   reported_edges Scenario.electric true
     (skipn 3 Scenario.electric_file)
     (parse_trace Scenario.electric Scenario.electric_file 0
                  (initial Scenario.electric)) = 2%nat /\
   3%nat = (1 + on_off_edges (parse_trace Scenario.electric
                                Scenario.electric_file 0
                                (initial Scenario.electric)))%nat).
Proof.
  split.
  - split; [vm_compute; reflexivity|].
    split; [vm_compute; reflexivity|].
    apply (@trips_count_is_one_plus_edges Scenario.segmenting
             Scenario.two_trips_file
             [[(PyFloat 1000, PyFloat 10); (PyInt 1000, PyFloat 20)];
              [(PyInt 2001, PyFloat 40); (PyInt 999, PyFloat 50)]; []]).
    vm_compute; reflexivity.
  - split; [vm_compute; reflexivity|].
    split; [vm_compute; reflexivity|].
    apply (@trips_count_is_one_plus_edges Scenario.electric
             Scenario.electric_file
             [[(PyFloat 1000, PyFloat 10)]; [(PyInt 3001, PyFloat 40)]; []]).
    vm_compute; reflexivity.
Defined.

(* ------------------------------------------------------------------ *)
(** ** C7: a speed event while the engine is off *)

(** C7. A speed-class event processed while the engine flag is off is
    dropped: [speed_events_logic] returns the context it was given, and
    through [process_frame] (which stores the decoded speed and unit
    first) the trip list, [old_time], the trip index and the engine flag
    come out unchanged. *)
Theorem speed_event_dropped_when_engine_off cfg ctx :
  engine ctx = false ->
  speed_events_logic cfg (SPD_MSG_1 cfg) ctx = Ok ctx /\
  forall fr ctx',
    process_frame cfg (SPD_MSG_1 cfg) fr (speed_events_logic cfg) ctx
      = Ok ctx' ->
    time_speed ctx' = time_speed ctx /\ old_time ctx' = old_time ctx /\
    trips ctx' = trips ctx /\ engine ctx' = engine ctx.
Proof.
  intros He. split.
  - unfold speed_events_logic. rewrite Z.eqb_refl, He. reflexivity.
  - intros fr ctx' H. unfold process_frame in H.
    rewrite Z.eqb_refl in H. inv_bind H. inv_bind H.
    unfold speed_events_logic in H. rewrite Z.eqb_refl in H.
    simpl in H. rewrite He in H. simpl in H.
    injection H as <-. simpl. rewrite He. auto.
Qed.

Lemma speed_event_dropped_when_engine_off_witness :
  speed_events_logic reference (SPD_MSG_1 reference)
    (set_speed (PyInt 7) (set_time 3000 context0))
  = Ok (set_speed (PyInt 7) (set_time 3000 context0)).
Proof.
  apply (@speed_event_dropped_when_engine_off reference
           (set_speed (PyInt 7) (set_time 3000 context0))).
  reflexivity.
Defined.

(* ------------------------------------------------------------------ *)
(** ** C5: a declared length larger than the payload *)

Lemma firstn_min_length {A} (n : nat) (l : list A) :
  firstn (Nat.min n (List.length l)) l = firstn n l.
Proof.
  rewrite <- firstn_firstn, firstn_all. reflexivity.
Qed.

Lemma slice_from_6 {A} (l : list A) (n : Z) :
  (6 <= List.length l)%nat -> 0 <= n ->
  Py.slice l 6 (n + 6) = firstn (Z.to_nat n) (skipn 6 l).
Proof.
  intros Hlen Hn. unfold Py.slice.
  assert (E : (n + 6 <? 0) = false) by (apply Z.ltb_ge; lia).
  rewrite E.
  replace (Z.to_nat (Z.min (Z.of_nat 6) (Z.of_nat (List.length l))))
    with 6%nat by lia.
  replace (Z.to_nat (Z.min (n + 6) (Z.of_nat (List.length l))
                     - Z.min (Z.of_nat 6) (Z.of_nat (List.length l))))
    with (Nat.min (Z.to_nat n) (List.length (skipn 6 l)))
    by (rewrite length_skipn; lia).
  apply firstn_min_length.
Qed.

(** C5, as the code has it. A data line whose token 5 declares [n >= 0]
    payload bytes is decoded without any error to the first [n] tokens
    after token 5, or to all of them when fewer than [n] remain: the
    payload then is shorter than declared. *)
Theorem get_frame_takes_what_is_there line tok n :
  Py.index line 5 = Ok tok -> Py.int10 tok = Ok n -> 0 <= n ->
  get_frame line = Ok (firstn (Z.to_nat n) (skipn 6 line)) /\
  List.length (firstn (Z.to_nat n) (skipn 6 line)) =
    Nat.min (Z.to_nat n) (List.length line - 6).
Proof.
  intros Hi Hn Hpos. split.
  - unfold get_frame. rewrite Hi. simpl. rewrite Hn. simpl.
    rewrite slice_from_6; [reflexivity| |assumption].
    apply index_ok in Hi.
    assert ((5 < List.length line)%nat)
      by (apply nth_error_Some; congruence).
    lia.
  - rewrite length_firstn, length_skipn. reflexivity.
Qed.

Lemma get_frame_takes_what_is_there_witness :
  get_frame Scenario.truncated_line = Ok ["00"; "01"]%string /\
  List.length ["00"; "01"]%string = Nat.min 8 2.
Proof.
  apply (@get_frame_takes_what_is_there Scenario.truncated_line "8"%string 8);
    [reflexivity | reflexivity | lia].
Defined.

(** On a line that declares 8 bytes and carries 2, [get_frame] returns the
    2 bytes. *)
Lemma truncated_frame_is_returned_short :
  get_frame Scenario.truncated_line = Ok ["00"; "01"]%string /\
  ~ truncated_frame_raises.
Proof.
  split; [reflexivity|].
  intros H.
  destruct (H Scenario.truncated_line "8"%string 8) as [ex Hex];
    [reflexivity | reflexivity | simpl; lia | discriminate].
Qed.

(* ------------------------------------------------------------------ *)
(** ** C6: the timestamp is truncated to milliseconds *)

(** Rounding keeps the sign it is given. *)
Lemma binary_round_aux_sign sx mx ex lx :
  match binary_round_aux prec emax sx mx ex lx with
  | S754_finite s _ _ => s = sx
  | _ => True
  end.
Proof.
  unfold binary_round_aux.
  destruct (shr_fexp prec emax mx ex lx) as [mrs e1].
  destruct (shr_fexp prec emax _ e1 loc_Exact) as [mrs' e2].
  destruct (shr_m mrs'); auto.
  destruct (e2 <=? emax - prec); auto.
Qed.

Lemma nonneg_times_1000 (sec : PrimFloat.float) :
  (0 <=? sec)%float = true ->
  match Prim2SF (sec * 1000) with
  | S754_finite s _ _ => s = false
  | _ => True
  end.
Proof.
  intros H. rewrite leb_spec in H. rewrite mul_spec.
  set (zero := Prim2SF 0) in H. vm_compute in zero. subst zero.
  set (k := Prim2SF 1000). vm_compute in k. subst k.
  destruct (Prim2SF sec) as [s | s | | s m e]; simpl; auto.
  assert (s = false) by (destruct s; [discriminate H | reflexivity]).
  subst s. apply binary_round_aux_sign.
Qed.

Lemma shiftl_is_floor (m : positive) (e : Z) :
  Z.shiftl (Z.pos m) e = Qfloor (SF_value (S754_finite false m e)).
Proof.
  unfold SF_value. destruct e as [| p | p].
  - simpl. rewrite Z.div_1_r. lia.
  - rewrite Z.shiftl_mul_pow2 by lia.
    unfold inject_Z, Qfloor. rewrite Z.div_1_r. reflexivity.
  - change (Z.shiftl (Z.pos m) (Z.neg p))
      with (Z.shiftr (Z.pos m) (Z.pos p)).
    rewrite Z.shiftr_div_pow2 by lia.
    unfold Qfloor. rewrite Pos2Z.inj_pow. reflexivity.
Qed.

(** [save_to_csv] reads the timestamp in two parts, and what follows in
    the iteration leaves the two parts alone. *)
Lemma save_to_file_logic_keeps_time (datetime : Type)
    (plus_timedelta : datetime -> Z -> Z -> result datetime)
    (strftime : datetime -> string) (cfg : config)
    (engine_status : Csv.csv_context datetime -> bool)
    (id : Z) (c c' : Csv.csv_context datetime) :
  Csv.save_to_file_logic plus_timedelta strftime cfg engine_status id c
    = Ok c' ->
  Csv.time_s c' = Csv.time_s c /\ Csv.time_ms c' = Csv.time_ms c.
Proof.
  unfold Csv.save_to_file_logic. intros H.
  destruct (id =? SPD_MSG_1 cfg).
  { destruct (negb (Csv.engine c)).
    - injection H as <-. auto.
    - inv_bind H. inv_bind H. inv_bind H. inv_bind H. inv_bind H.
      injection H as <-. auto. }
  assert (Hengine :
    (if negb (engine_status c) && Csv.engine c
     then let ctx := Csv.set_trips (Csv.trips c + 1) c in
          let ctx := Csv.set_time_speed (Csv.time_speed ctx ++ [[]]) ctx in
          Ok (Csv.set_engine false ctx)
     else if engine_status c && negb (Csv.engine c)
          then Ok (Csv.set_engine true c)
          else Ok c) = Ok c' ->
    Csv.time_s c' = Csv.time_s c /\ Csv.time_ms c' = Csv.time_ms c).
  { clear H. intros H.
    destruct (negb (engine_status c) && Csv.engine c);
      [|destruct (engine_status c && negb (Csv.engine c))];
      injection H as <-; auto. }
  destruct (id =? ENG_MSG_STD cfg); [exact (Hengine H)|].
  destruct (id =? ENG_MSG_EV cfg); [exact (Hengine H)|].
  injection H as <-. auto.
Qed.

Lemma csv_process_frame_keeps_time (datetime : Type)
    (plus_timedelta : datetime -> Z -> Z -> result datetime)
    (strftime : datetime -> string) (cfg : config)
    (engine_status : Csv.csv_context datetime -> bool)
    (id : Z) (fr : frame) (c c' : Csv.csv_context datetime) :
  Csv.process_frame cfg id fr
    (Csv.save_to_file_logic plus_timedelta strftime cfg engine_status) c
    = Ok c' ->
  Csv.time_s c' = Csv.time_s c /\ Csv.time_ms c' = Csv.time_ms c.
Proof.
  unfold Csv.process_frame. intros H.
  destruct (id =? SPD_MSG_1 cfg).
  { inv_bind H. inv_bind H.
    apply save_to_file_logic_keeps_time in H. exact H. }
  destruct (id =? ENG_MSG_STD cfg).
  { inv_bind H. inv_bind H.
    apply save_to_file_logic_keeps_time in H. exact H. }
  destruct (id =? ENG_MSG_EV cfg).
  { inv_bind H. apply save_to_file_logic_keeps_time in H. exact H. }
  injection H as <-. auto.
Qed.

Lemma float_of_1000 : Py.float_of_int 1000 = Ok 1000%float.
Proof. vm_compute. reflexivity. Qed.

(** C6, as the code has it. [parse_file] takes the timestamp of a data
    line from [get_offset_ms]: for a token that reads as a float
    [sec >= 0], it is the floor of the (binary64) product [sec * 1000];
    the product is cut, not rounded, and only when it is not finite (a
    timestamp above about 1.8e305 s) is there no timestamp: [int]
    raises. [save_to_csv] computes the timestamp of a data line as two
    numbers instead: the seconds are the integer read before the point
    of the token, and the milliseconds are [int] of the (binary64)
    product of 1000 and the difference between the float the token reads
    as and those seconds. *)
Theorem get_offset_ms_is_floor :
  (forall offset tok sec,
     Py.index offset 0 = Ok tok -> Py.float tok = Ok sec ->
     (0 <=? sec)%float = true ->
     get_offset_ms offset =
       if float_finite (sec * 1000)
       then Ok (Qfloor (float_value (sec * 1000)))
       else match Prim2SF (sec * 1000) with
            | S754_nan => Raise ValueError
            | _ => Raise OverflowError
            end) /\
  (forall (datetime : Type)
          (plus_timedelta : datetime -> Z -> Z -> result datetime)
          (strftime : datetime -> string) (cfg : config)
          (engine_status : Csv.csv_context datetime -> bool)
          (line : string) (ctx ctx' : Csv.csv_context datetime),
     Csv.export_line plus_timedelta strftime cfg engine_status line ctx
       = Ok ctx' ->
     exists tok whole sec fs,
       Py.index (Py.split line) 0 = Ok tok /\
       Py.index (Csv.split_on "." tok) 0 = Ok whole /\
       Py.int10 whole = Ok (Csv.time_s ctx') /\
       Py.float tok = Ok sec /\
       Py.float_of_int (Csv.time_s ctx') = Ok fs /\
       Py.int_of_float ((sec - fs) * 1000) = Ok (Csv.time_ms ctx')).
Proof.
  split.
  - intros offset tok sec Hi Hf Hpos.
    unfold get_offset_ms. rewrite Hi. simpl. rewrite Hf. simpl.
    pose proof (nonneg_times_1000 Hpos) as Hs.
    unfold Py.int_of_float, float_value, float_finite in *.
    destruct (Prim2SF (sec * 1000)) as [s | s | | s m e]; try reflexivity.
    subst s. rewrite shiftl_is_floor. reflexivity.
  - intros datetime plus_timedelta strftime cfg engine_status line ctx ctx' H.
    unfold Csv.export_line in H.
    inv_bind H. rename a into tok, E into Etok.
    inv_bind H. rename a into whole, E into Ewhole.
    inv_bind H. rename a into s, E into Es.
    inv_bind H. rename a into tok', E into Etok'.
    inv_bind H. rename a into sec, E into Esec.
    inv_bind H. rename a into d, E into Ed.
    inv_bind H. rename a into p, E into Ep.
    inv_bind H. rename a into ms, E into Ems.
    inv_bind H. inv_bind H. inv_bind H.
    apply csv_process_frame_keeps_time in H. destruct H as [Hs Hms].
    cbn in Hs, Hms. rewrite Hs, Hms.
    rewrite Etok in Etok'. injection Etok' as <-.
    cbn [Csv.time_s Csv.set_time_s] in Ed.
    unfold Py.sub in Ed. cbn [Py.to_float bind] in Ed.
    inv_bind Ed. rename a2 into fs. injection Ed as <-.
    unfold PyArith.mul in Ep. cbn [Py.to_float bind] in Ep.
    rewrite float_of_1000 in Ep. cbn [bind] in Ep. injection Ep as <-.
    cbn [PyArith.int_] in Ems.
    exists tok, whole, sec, fs. repeat split; assumption.
Qed.

(** [12.940318] s is 12940 ms: the product is 12940.317999999999. And
    the export of a line at [1.025] s: 1 s and 24 ms. *)
Lemma get_offset_ms_is_floor_witness :
  get_offset_ms ["12.940318"%string] = Ok 12940 /\
  exists tok whole sec fs,
    Py.index (Py.split "1.025 1 100 Tx d 1 0A") 0 = Ok tok /\
    Py.index (Csv.split_on "." tok) 0 = Ok whole /\
    Py.int10 whole = Ok 1 /\
    Py.float tok = Ok sec /\
    Py.float_of_int 1 = Ok fs /\
    Py.int_of_float ((sec - fs) * 1000) = Ok 24.
Proof.
  split.
  - apply (proj1 get_offset_ms_is_floor ["12.940318"%string]
             "12.940318"%string 0x1.9e1715c63ae25p+3%float);
      vm_compute; reflexivity.
  - apply (proj2 get_offset_ms_is_floor string Csv.text_plus
             Csv.text_strftime Scenario.segmenting (fun _ => true)
             "1.025 1 100 Tx d 1 0A"%string
             (Csv.mkCsv "date"%string 0 false [[]] 0 0
                        None None None None None)
             (Csv.mkCsv "date"%string 0 false [[]] 1 24
                        (Some (PyFloat 10)) (Some (PyInt 1))
                        None None None)).
    vm_compute. reflexivity.
Defined.

(** Cut, not rounded: 0.9999 s is 0 ms. And it is the float product that
    is cut: [1.001 * 1000] is 1000.9999999999999, hence 1000 ms. *)
Example get_offset_ms_cuts :
  get_offset_ms ["12.940318"%string] = Ok 12940 /\
  get_offset_ms ["13.140300"%string] = Ok 13140 /\
  get_offset_ms ["0.0009999"%string] = Ok 0 /\
  get_offset_ms ["1.001"%string] = Ok 1000.
Proof. repeat split; vm_compute; reflexivity. Qed.

(** The token [1.001] denotes 1.001 s, whose product with 1000 has floor
    1001, but [get_offset_ms] returns 1000. Nor is the result the floor
    of 1000 times the float the token reads as: for [1.025] that float
    is 1.0249999999999999, 1000 times it has floor 1024, and
    [get_offset_ms] returns 1025, the product being rounded up before it
    is cut. For [1e306] there is no timestamp at all. And the two
    functions that read a timestamp differ: for [1.025], [save_to_csv]
    stores 1 s and 24 ms. *)
Lemma timestamp_below_floor_of_seconds :
  decimal_value "1.001" = Some (inject_Z 1001 * Qpower (inject_Z 10) (-3))%Q /\
  Qfloor (inject_Z 1001 * Qpower (inject_Z 10) (-3) * 1000) = 1001 /\
  get_offset_ms ["1.001"%string] = Ok 1000 /\
  (f <- Py.float "1.025" ;; Ok (Qfloor (float_value f * 1000))) = Ok 1024 /\
  get_offset_ms ["1.025"%string] = Ok 1025 /\
  get_offset_ms ["1e306"%string] = Raise OverflowError /\
  (c <- Csv.export_line Csv.text_plus Csv.text_strftime Scenario.segmenting
          (fun _ => true) "1.025 1 100 Tx d 1 0A"
          (Csv.mkCsv "date"%string 0 false [[]] 0 0
                     None None None None None) ;;
   Ok (Csv.time_s c, Csv.time_ms c)) = Ok (1, 24) /\
  ~ timestamp_is_floor_of_seconds.
Proof.
  split; [reflexivity|].
  do 6 (split; [vm_compute; reflexivity|]).
  intros H.
  specialize (H ["1.001"%string] "1.001"%string
                (inject_Z 1001 * Qpower (inject_Z 10) (-3))%Q
                eq_refl eq_refl).
  assert (Hpos : (0 <= inject_Z 1001 * Qpower (inject_Z 10) (-3))%Q)
    by (unfold Qle; vm_compute; discriminate).
  specialize (H Hpos). vm_compute in H. discriminate H.
Qed.

(* ------------------------------------------------------------------ *)
(** ** C2: the two speed lines of the docstring *)

(** A speed-class line processed while the engine is on. *)
Lemma parse_line_records_sample cfg line c tok t idtok fr v u d ts :
  Py.index (Py.split line) 0 = Ok tok ->
  get_offset_ms [tok] = Ok t ->
  Py.index (Py.split line) 2 = Ok idtok ->
  Py.int16 idtok = Ok (SPD_MSG_1 cfg) ->
  get_frame (Py.split line) = Ok fr ->
  get_speed_signal_a cfg fr = Ok v ->
  get_speed_signal_b cfg fr = Ok u ->
  engine c = true ->
  Py.sub (PyInt t) (old_time c) = Ok d ->
  append_at (time_speed c) (trips c) (d, v) = Ok ts ->
  parse_line cfg line c =
    Ok (set_old_time (PyInt t)
          (set_time_speed ts
             (set_speed_unit u (set_speed v (set_time t c))))).
Proof.
  intros H0 Ht H2 Hid Hfr Hv Hu He Hd Hts.
  unfold parse_line.
  assert (Ht' : get_offset_ms (Py.split line) = Ok t).
  { unfold get_offset_ms in *. rewrite H0. simpl in *. exact Ht. }
  rewrite Ht'. simpl. rewrite H2. simpl. rewrite Hid. simpl.
  rewrite Hfr. simpl.
  unfold process_frame. rewrite Z.eqb_refl, Hv. simpl. rewrite Hu. simpl.
  unfold speed_events_logic. rewrite Z.eqb_refl.
  cbn -[Py.sub append_at Py.index].
  rewrite He. cbn -[Py.sub append_at Py.index].
  assert (Hi : exists t0, Py.index (time_speed c) (trips c) = Ok t0).
  { unfold append_at in Hts. destruct (Py.index (time_speed c) (trips c));
      [eauto | discriminate]. }
  destruct Hi as [t0 Hi]. rewrite Hi. cbn -[Py.sub append_at Py.index].
  rewrite Hd. cbn -[Py.sub append_at Py.index].
  rewrite Hts. reflexivity.
Qed.

(** C2, as the code has it. Three header lines, then a speed-class line at
    12.940318 s decoding to 0.0 and one at 13.140300 s decoding to 1.0,
    with the engine on, give one trip [[(12940.0, 0.0), (200, 1.0)]]: the
    first delta is the first timestamp itself in ms, measured against the
    initial [old_time = 0.0] (hence a float), and the second is 200 ms. *)
Theorem docstring_scenario_output
    cfg h1 h2 h3 l1 l2 id1 id2 fr1 fr2 u1 u2 :
  engine_status cfg context0 = true ->
  Py.index (Py.split l1) 0 = Ok "12.940318"%string ->
  Py.index (Py.split l1) 2 = Ok id1 ->
  Py.int16 id1 = Ok (SPD_MSG_1 cfg) ->
  get_frame (Py.split l1) = Ok fr1 ->
  get_speed_signal_a cfg fr1 = Ok (PyFloat 0) ->
  get_speed_signal_b cfg fr1 = Ok u1 ->
  Py.index (Py.split l2) 0 = Ok "13.140300"%string ->
  Py.index (Py.split l2) 2 = Ok id2 ->
  Py.int16 id2 = Ok (SPD_MSG_1 cfg) ->
  get_frame (Py.split l2) = Ok fr2 ->
  get_speed_signal_a cfg fr2 = Ok (PyFloat 1) ->
  get_speed_signal_b cfg fr2 = Ok u2 ->
  parse_file cfg [h1; h2; h3; l1; l2] =
    Ok [[(PyFloat 12940, PyFloat 0); (PyInt 200, PyFloat 1)]].
Proof.
  intros He A0 A2 Aid Afr Av Au B0 B2 Bid Bfr Bv Bu.
  unfold parse_file. rewrite He. simpl.
  erewrite (@parse_line_records_sample cfg l1);
    [ | exact A0 | vm_compute; reflexivity | exact A2 | exact Aid
      | exact Afr | exact Av | exact Au | reflexivity
      | vm_compute; reflexivity | reflexivity ].
  simpl.
  erewrite (@parse_line_records_sample cfg l2);
    [ | exact B0 | vm_compute; reflexivity | exact B2 | exact Bid
      | exact Bfr | exact Bv | exact Bu | reflexivity
      | reflexivity | reflexivity ].
  reflexivity.
Qed.

Lemma docstring_scenario_output_witness :
  parse_file Scenario.decoding Scenario.docstring_file =
    Ok [[(PyFloat 12940, PyFloat 0); (PyInt 200, PyFloat 1)]].
Proof.
  apply (@docstring_scenario_output Scenario.decoding _ _ _ _ _
           "000"%string "000"%string
           ["00"; "00"; "00"; "00"; "00"; "00"]%string
           ["01"; "00"; "00"; "00"; "00"; "00"]%string
           (PyInt 0) (PyInt 0));
    vm_compute; reflexivity.
Defined.

(** The output on the docstring's session is not [[(0, 0.0), (200, 1.0)]],
    not even up to Python's [==] between [12940.0] and an int: the first
    delta is 12940 ms, not 0. *)
Lemma docstring_scenario_first_delta_not_zero :
  parse_file Scenario.decoding Scenario.docstring_file =
    Ok [[(PyFloat 12940, PyFloat 0); (PyInt 200, PyFloat 1)]] /\
  trips_eqb [[(PyFloat 12940, PyFloat 0); (PyInt 200, PyFloat 1)]]
            [[(PyInt 0, PyFloat 0); (PyInt 200, PyFloat 1)]] = false.
Proof. split; vm_compute; reflexivity. Qed.

(* ------------------------------------------------------------------ *)
(** ** C4: the reference identifiers make every frame a speed frame *)

Lemma process_frame_reference id fr func c :
  process_frame reference id fr func c =
  if id =? 0
  then func id (set_speed_unit (PyInt 0) (set_speed (PyInt 0) c))
  else Ok c.
Proof.
  unfold process_frame. simpl.
  change Reference.SPD_MSG_1 with 0.
  change Reference.ENG_MSG_STD with 0.
  change Reference.ENG_MSG_EV with 0.
  destruct (id =? 0); reflexivity.
Qed.

Lemma parse_line_reference line c c' :
  parse_line reference line c = Ok c' ->
  engine c' = engine c /\ trips c' = trips c /\
  List.length (time_speed c') = List.length (time_speed c).
Proof.
  intros H. unfold parse_line in H.
  inv_bind H. inv_bind H. inv_bind H. inv_bind H.
  rewrite process_frame_reference in H.
  destruct (a1 =? 0) eqn:Eid.
  - unfold speed_events_logic in H.
    change (SPD_MSG_1 reference) with 0 in H. rewrite Eid in H.
    cbn -[Py.sub append_at Py.index] in H.
    destruct (engine c) eqn:En; cbn -[Py.sub append_at Py.index] in H.
    + inv_bind H. inv_bind H. inv_bind H.
      injection H as <-. simpl.
      repeat split; try assumption.
      eapply append_at_length. eassumption.
    + injection H as <-. simpl. auto.
  - injection H as <-. simpl. auto.
Qed.

Lemma parse_trace_reference file : forall count c,
  Forall (fun c' => engine c' = engine c /\ trips c' = trips c /\
            List.length (time_speed c') = List.length (time_speed c))
         (parse_trace reference file count c).
Proof.
  induction file as [|line rest IH]; intros count c; simpl.
  - constructor; auto.
  - destruct (count <? 3)%nat; [apply IH|].
    destruct (parse_line reference line c) as [c1|ex] eqn:E.
    + constructor; [auto|].
      apply parse_line_reference in E. destruct E as (E1 & E2 & E3).
      eapply Forall_impl; [|apply IH].
      intros c' (H1 & H2 & H3). repeat split; congruence.
    + constructor; auto.
Qed.

Lemma parse_lines_reference file : forall count c c',
  parse_lines reference file count c = Ok c' ->
  List.length (time_speed c') = List.length (time_speed c).
Proof.
  induction file as [|line rest IH]; intros count c c' H; simpl in H.
  - injection H as <-. reflexivity.
  - destruct (count <? 3)%nat; [eapply IH; eassumption|].
    inv_bind H. apply parse_line_reference in E.
    apply IH in H. destruct E as (_ & _ & E). congruence.
Qed.

Lemma parse_line_reference_total line c :
  ready c -> line_decodes line = true ->
  exists c', parse_line reference line c = Ok c' /\ ready c'.
Proof.
  intros [Hidx Hold] Hdec. unfold line_decodes in Hdec.
  unfold parse_line.
  destruct (get_offset_ms (Py.split line)) as [t|] eqn:Et;
    [|discriminate]. simpl in Hdec |- *.
  destruct (get_offset_ms_exact _ Et) as (ft & Ef & _).
  destruct (Py.index (Py.split line) 2) as [tok|] eqn:Ei; [|discriminate].
  simpl in Hdec |- *.
  destruct (Py.int16 tok) as [id|] eqn:Eid; [|discriminate].
  simpl in Hdec |- *.
  destruct (get_frame (Py.split line)) as [fr|] eqn:Efr; [|discriminate].
  simpl. rewrite process_frame_reference.
  destruct (id =? 0) eqn:E0.
  - unfold speed_events_logic.
    change (SPD_MSG_1 reference) with 0. rewrite E0.
    cbn -[Py.sub append_at Py.index].
    destruct (engine c); cbn -[Py.sub append_at Py.index].
    + destruct (index_lt (time_speed c) Hidx) as [t0 Ht0].
      rewrite Ht0. cbn -[Py.sub append_at Py.index].
      assert (Hsub : exists d, Py.sub (PyInt t) (old_time c) = Ok d).
      { destruct Hold as [-> | [z ->]]; simpl.
        - rewrite Ef. simpl. eauto.
        - eauto. }
      destruct Hsub as [d Hd]. rewrite Hd.
      cbn -[Py.sub append_at Py.index].
      unfold append_at. rewrite Ht0. simpl.
      eexists. split; [reflexivity|].
      split; simpl; [|eauto].
      rewrite length_app, length_firstn. cbn [List.length].
      rewrite length_skipn. lia.
    + eexists. split; [reflexivity|]. split; simpl; assumption.
  - eexists. split; [reflexivity|]. split; simpl; assumption.
Qed.

Lemma parse_lines_skips_header cfg file : forall count c,
  (count <= 3)%nat ->
  parse_lines cfg file count c =
  parse_lines cfg (skipn (3 - count) file) 3 c.
Proof.
  induction file as [|line rest IH]; intros count c Hc.
  - rewrite skipn_nil. reflexivity.
  - simpl parse_lines at 1.
    destruct (count <? 3)%nat eqn:E.
    + apply Nat.ltb_lt in E. rewrite IH by lia.
      replace (3 - count)%nat with (S (3 - (count + 1)))%nat by lia.
      reflexivity.
    + apply Nat.ltb_ge in E.
      replace (3 - count)%nat with 0%nat by lia.
      simpl. replace count with 3%nat by lia. reflexivity.
Qed.

Lemma parse_lines_reference_total data : forall c,
  ready c -> forallb line_decodes data = true ->
  exists c', parse_lines reference data 3 c = Ok c'.
Proof.
  induction data as [|line rest IH]; intros c Hr Hd; simpl in *.
  - eauto.
  - apply andb_true_iff in Hd. destruct Hd as [Hl Hd].
    destruct (@parse_line_reference_total line c Hr Hl) as (c1 & E & Hr1).
    rewrite E. simpl. apply IH; assumption.
Qed.

(** C4. With the identifiers of the reference (all three are 0x000) and
    the speed class tested first, [process_frame] either runs its speed
    branch (identifier 0) or does nothing: the two engine branches are
    never taken. So, whatever the file, the engine flag never leaves the
    value it is initialised to, the trip index stays 0, every context of
    the parse holds exactly one trip, and what [parse_file] returns has
    length 1; it does return whenever every data line can be decoded. *)
Theorem reference_dispatches_speed_only :
  (SPD_MSG_1 reference = 0 /\ ENG_MSG_STD reference = 0 /\
   ENG_MSG_EV reference = 0) /\
  (forall id fr func c,
     process_frame reference id fr func c =
     if id =? 0
     then func id (set_speed_unit (PyInt 0) (set_speed (PyInt 0) c))
     else Ok c) /\
  (forall file,
     Forall (fun c => engine c = true /\ trips c = 0%nat /\
                      List.length (time_speed c) = 1%nat)
            (parse_trace reference file 0 (initial reference))) /\
  (forall file trs,
     parse_file reference file = Ok trs -> List.length trs = 1%nat) /\
  (forall file,
     forallb line_decodes (skipn 3 file) = true ->
     exists trs, parse_file reference file = Ok trs).
Proof.
  split; [repeat split|].
  split; [intros; apply process_frame_reference|].
  split; [intros file;
          exact (parse_trace_reference file 0 (initial reference))|].
  split.
  - intros file trs H. unfold parse_file in H. inv_bind H.
    injection H as <-. apply parse_lines_reference in E. exact E.
  - intros file Hd. unfold parse_file.
    rewrite parse_lines_skips_header by lia.
    destruct (@parse_lines_reference_total (skipn 3 file)
                (set_engine (engine_status reference context0) context0))
      as [c' E]; [split; simpl; [lia | auto] | exact Hd |].
    change (3 - 0)%nat with 3%nat. rewrite E. simpl. eauto.
Qed.

(** On the docstring's session the reference returns its single trip. *)
Lemma reference_dispatches_speed_only_witness :
  parse_file reference Scenario.docstring_file =
    Ok [[(PyFloat 12940, PyInt 0); (PyInt 200, PyInt 0)]] /\
  List.length [[(PyFloat 12940, PyInt 0); (PyInt 200, PyInt 0)]] = 1%nat.
Proof.
  split; [vm_compute; reflexivity|].
  apply (proj1 (proj2 (proj2 (proj2 reference_dispatches_speed_only)))
           Scenario.docstring_file).
  vm_compute; reflexivity.
Defined.

(* ------------------------------------------------------------------ *)
(** ** C3: what the deltas of a trip add up to *)

Lemma last_cons_default {A} (a d : A) (l : list A) :
  last (a :: l) d = last l a.
Proof.
  revert a d. induction l as [|b l IH]; intros a d; [reflexivity|].
  change (last (a :: b :: l) d) with (last (b :: l) d).
  rewrite !IH. reflexivity.
Qed.

Lemma next_base_cons base a ts :
  next_base base (a :: ts) = next_base (PyInt a) ts.
Proof.
  unfold next_base. rewrite last_cons_default.
  destruct ts as [|b ts]; [reflexivity|].
  rewrite !last_cons_default. reflexivity.
Qed.

Lemma next_base_snoc base ts t : next_base base (ts ++ [t]) = PyInt t.
Proof.
  unfold next_base. destruct (ts ++ [t]) eqn:E.
  - destruct ts; discriminate.
  - rewrite <- E, last_last. reflexivity.
Qed.

Lemma expected_deltas_app ts : forall base t,
  expected_deltas base (ts ++ [t]) =
  expected_deltas base ts ++ [Py.sub (PyInt t) (next_base base ts)].
Proof.
  induction ts as [|a ts IH]; intros base t.
  - reflexivity.
  - change (expected_deltas base ((a :: ts) ++ [t]))
      with (Py.sub (PyInt a) base :: expected_deltas (PyInt a) (ts ++ [t])).
    rewrite IH, next_base_cons. reflexivity.
Qed.

Lemma expected_trips_app sl : forall base ts,
  expected_trips base (sl ++ [ts]) =
  expected_trips base sl
  ++ [expected_deltas (fold_left next_base sl base) ts].
Proof.
  induction sl as [|s0 sl IH]; intros base ts; simpl.
  - reflexivity.
  - rewrite IH. reflexivity.
Qed.

Lemma expected_trips_length st : forall base,
  List.length (expected_trips base st) = List.length st.
Proof.
  induction st as [|ts st IH]; intros base; simpl; [|rewrite IH];
    reflexivity.
Qed.

Lemma tracked_length c st :
  tracked c st -> List.length (time_speed c) = List.length st.
Proof.
  intros (H & _ & _).
  rewrite <- (length_map deltas), H. apply expected_trips_length.
Qed.

Lemma snoc_of_length {A} (l : list A) (n : nat) :
  List.length l = (n + 1)%nat ->
  exists l' a, l = l' ++ [a] /\ List.length l' = n.
Proof.
  intros H. destruct (exists_last (l := l)) as (l' & a & E).
  - intros ->. simpl in H. lia.
  - exists l', a. split; [assumption|].
    subst l. rewrite length_app in H. simpl in H. lia.
Qed.

Lemma record_last (sl : list (list Z)) ts t :
  firstn (List.length sl) (sl ++ [ts])
  ++ (nth (List.length sl) (sl ++ [ts]) [] ++ [t])
     :: skipn (List.length sl + 1) (sl ++ [ts])
  = sl ++ [ts ++ [t]].
Proof.
  rewrite firstn_app, Nat.sub_diag, firstn_all. simpl firstn.
  rewrite app_nil_r.
  rewrite app_nth2, Nat.sub_diag by lia. simpl nth.
  rewrite skipn_all2 by (rewrite length_app; simpl; lia).
  reflexivity.
Qed.

Lemma tracked_step t c c' st :
  tracked c st -> trip_step t c c' -> time c' = Some t ->
  tracked c' (record_step c c' st).
Proof.
  intros Htr Hstep Ht.
  pose proof (tracked_length Htr) as Hlen.
  destruct Htr as (Hd & Ho & Hn).
  unfold record_step, nsamples.
  destruct Hstep as [Eo En Ee Es | d v Ee Ee' En Hsub Happ Eo
                    | Ee Ee' En Es Eo | Ee Ee' En Es Eo].
  - rewrite Es, !Nat.ltb_irrefl.
    unfold tracked. rewrite Es, Eo, En. auto.
  - destruct (@snoc_of_length _ st (trips c) Hn) as (sl & ts & -> & Hsl).
    assert (Hlen' : List.length (time_speed c) = (trips c + 1)%nat)
      by (rewrite Hlen, length_app; simpl; lia).
    destruct (@snoc_of_length _ (time_speed c) (trips c) Hlen')
      as (l & tr & El & Hl).
    rewrite El in *. rewrite <- Hl in Happ.
    rewrite append_at_last in Happ. injection Happ as Happ.
    rewrite <- Happ.
    assert (Hlt : (List.length (List.concat (l ++ [tr]))
                   <? List.length (List.concat (l ++ [tr ++ [(d, v)]])))%nat
                  = true).
    { apply Nat.ltb_lt. rewrite !List.concat_app, !length_app. simpl.
      rewrite !app_nil_r, length_app. simpl. lia. }
    rewrite Hlt, Ht. rewrite <- Hsl, record_last.
    rewrite map_app, expected_trips_app in Hd. simpl map in Hd.
    apply app_inj_tail in Hd. destruct Hd as [Hd1 Hd2].
    rewrite fold_left_app in Ho. simpl in Ho.
    unfold tracked. rewrite <- Happ.
    rewrite map_app, expected_trips_app, expected_deltas_app.
    simpl map. unfold deltas at 2. rewrite map_app. simpl map.
    fold (deltas tr). rewrite Hd1, Hd2, <- Ho, Hsub.
    split; [reflexivity|]. split.
    + rewrite Eo, fold_left_app. simpl.
      rewrite next_base_snoc. reflexivity.
    + rewrite En, !length_app. simpl. rewrite <- Hl, Hsl in *. lia.
  - rewrite Es.
    assert (Hlt : (List.length (List.concat (time_speed c))
                   <? List.length (List.concat (time_speed c ++ [[]])))%nat
                  = false).
    { apply Nat.ltb_ge. rewrite List.concat_app. simpl. rewrite app_nil_r. lia. }
    rewrite Hlt.
    assert (Hlt2 : (List.length (time_speed c)
                    <? List.length (time_speed c ++ [[]]))%nat = true).
    { apply Nat.ltb_lt. rewrite length_app. simpl. lia. }
    rewrite Hlt2. unfold tracked.
    rewrite Es, map_app, expected_trips_app, Hd, Eo, En.
    rewrite fold_left_app, length_app. simpl.
    split; [reflexivity|]. split; [assumption | lia].
  - rewrite Es, !Nat.ltb_irrefl.
    unfold tracked. rewrite Es, Eo, En. auto.
Qed.

Lemma underlying_cons c c' l st :
  underlying (c :: c' :: l) st = underlying (c' :: l) (record_step c c' st).
Proof. reflexivity. Qed.

Lemma parse_lines_tracked cfg file : forall count c c' st,
  parse_lines cfg file count c = Ok c' ->
  tracked c st ->
  tracked c' (underlying (parse_trace cfg file count c) st).
Proof.
  induction file as [|line rest IH]; intros count c c' st H Htr;
    simpl in *.
  - injection H as <-. exact Htr.
  - destruct (count <? 3)%nat; [apply IH; assumption|].
    destruct (parse_line cfg line c) as [c1|ex] eqn:E; simpl in H;
      [|discriminate].
    destruct (parse_trace_head cfg rest count c1) as [l Hhd].
    apply parse_line_step in E. destruct E as (t & _ & Ht & Hstep).
    pose proof (tracked_step Htr Hstep Ht) as Htr1.
    specialize (IH _ _ _ _ H Htr1).
    rewrite Hhd in *. rewrite underlying_cons. exact IH.
Qed.

Lemma nth_expected_trips st : forall base k ts,
  nth_error st k = Some ts ->
  nth_error (expected_trips base st) k =
  Some (expected_deltas (fold_left next_base (firstn k st) base) ts).
Proof.
  induction st as [|s0 st IH]; intros base k ts H.
  - destruct k; discriminate.
  - destruct k as [|k]; simpl in *.
    + injection H as <-. reflexivity.
    + apply IH. assumption.
Qed.

Lemma expected_deltas_length ts : forall base,
  List.length (expected_deltas base ts) = List.length ts.
Proof.
  induction ts as [|t ts IH]; intros base; simpl; [|rewrite IH];
    reflexivity.
Qed.

(** Deltas measured from an int are ints, and they telescope. *)
Lemma sum_int_deltas ts : forall t0 rest acc,
  deltas rest = expected_deltas (PyInt t0) ts ->
  fold_left (fun acc x => a <- acc ;; Py.add a x) (map fst rest)
            (Ok (PyInt acc))
  = Ok (PyInt (acc + last ts t0 - t0)).
Proof.
  induction ts as [|t ts IH]; intros t0 rest acc H.
  - destruct rest; [|discriminate]. simpl. f_equal. f_equal. lia.
  - destruct rest as [|[d v] rest]; [discriminate|].
    simpl in H. injection H as Hd Hrest. subst d.
    simpl fold_left. rewrite (IH t rest (acc + (t - t0)) Hrest).
    rewrite last_cons_default. f_equal. f_equal. lia.
Qed.

Lemma tracked_initial cfg : tracked (initial cfg) [[]].
Proof. repeat split. Qed.

Lemma Forall_firstn_skipn {A} (P : A -> Prop) (n : nat) : forall l,
  Forall P l -> Forall P (firstn n l) /\ Forall P (skipn n l).
Proof.
  induction n as [|n IH]; intros l Hl; simpl.
  - split; [constructor | exact Hl].
  - destruct Hl as [|a l Ha Hl]; [split; constructor|].
    destruct (IH l Hl). split; [constructor|]; assumption.
Qed.

Lemma record_step_exact c c' st :
  Forall (Forall exact_int) st ->
  (forall t, time c' = Some t -> exact_int t) ->
  Forall (Forall exact_int) (record_step c c' st).
Proof.
  intros Hst Ht. unfold record_step.
  destruct (nsamples c <? nsamples c')%nat.
  - destruct (time c') as [t|]; [|exact Hst].
    apply Forall_app.
    split; [apply (Forall_firstn_skipn (trips c) Hst)|].
    constructor; [|apply (Forall_firstn_skipn (trips c + 1) Hst)].
    apply Forall_app. split; [|constructor; [auto | constructor]].
    destruct (nth_in_or_default (trips c) st []) as [Hin | ->];
      [|constructor].
    rewrite Forall_forall in Hst. apply Hst. exact Hin.
  - destruct (_ <? _)%nat; [|exact Hst].
    apply Forall_app. split; [exact Hst | repeat constructor].
Qed.

Lemma underlying_exact cfg file : forall count c st,
  Forall (Forall exact_int) st ->
  Forall (Forall exact_int) (underlying (parse_trace cfg file count c) st).
Proof.
  induction file as [|line rest IH]; intros count c st Hst; simpl.
  - exact Hst.
  - destruct (count <? 3)%nat; [apply IH; exact Hst|].
    destruct (parse_line cfg line c) as [c1|ex] eqn:E; [|exact Hst].
    destruct (parse_trace_head cfg rest count c1) as [l Hhd].
    specialize (IH count c1 (record_step c c1 st)).
    rewrite Hhd in *. rewrite underlying_cons. apply IH.
    apply record_step_exact; [exact Hst|].
    apply parse_line_step in E. destruct E as (t & Hoff & Ht & _).
    intros t' Ht'. rewrite Ht in Ht'. injection Ht' as <-.
    eapply get_offset_ms_exact. eassumption.
Qed.

Lemma fold_next_base l : forall base,
  fold_left next_base l base = base \/
  exists b, fold_left next_base l base = PyInt b.
Proof.
  induction l as [|ts l IH]; intros base; simpl.
  - left. reflexivity.
  - destruct (IH (next_base base ts)) as [-> | [b ->]]; [|eauto].
    destruct ts; simpl; eauto.
Qed.

Lemma sum_ms_int_deltas ts : forall t0 rest,
  deltas rest = expected_deltas (PyInt t0) ts ->
  sum_ms rest = Some (last ts t0 - t0).
Proof.
  induction ts as [|t ts IH]; intros t0 rest H.
  - destruct rest; [|discriminate]. simpl. f_equal. lia.
  - destruct rest as [|[d v] rest]; [discriminate|].
    simpl in H. injection H as Hd Hrest. subst d.
    cbn [sum_ms fst ms_value]. rewrite (IH t rest Hrest).
    rewrite last_cons_default. f_equal. lia.
Qed.

(** C3, as the code has it. The samples of a trip answer one to one to
    its speed events, and each delta is measured against the speed event
    recorded before it, whatever trip that one belongs to. So the deltas
    of a trip add up to the timestamp of its last speed event minus the
    timestamp of the last speed event recorded before the trip (minus 0
    when there is none, [old_time] being [0.0] initially). The first
    delta is that of the first timestamp against this earlier one, not
    0, and only the deltas after it add up to last minus first. *)
Theorem trip_deltas_telescope cfg file trs :
  parse_file cfg file = Ok trs ->
  List.length (speed_events cfg file) = List.length trs /\
  forall k trip ts,
    nth_error trs k = Some trip ->
    nth_error (speed_events cfg file) k = Some ts ->
    List.length trip = List.length ts /\
    (ts <> [] ->
     exists b,
       ms_value (base_before (speed_events cfg file) k) = Some b /\
       sum_ms trip = Some (last ts 0 - b)) /\
    forall d1 v1 rest t1 ts',
      trip = (d1, v1) :: rest -> ts = t1 :: ts' ->
      Py.sub (PyInt t1) (base_before (speed_events cfg file) k) = Ok d1 /\
      Py.sum (map fst rest) = Ok (PyInt (last ts 0 - t1)).
Proof.
  intros H. unfold parse_file in H. fold (initial cfg) in H.
  inv_bind H. injection H as <-.
  pose proof (parse_lines_tracked _ _ _ E (tracked_initial cfg)) as Htr.
  fold (speed_events cfg file) in Htr.
  pose proof (tracked_length Htr) as Hlen.
  destruct Htr as (Hd & _ & _).
  split; [symmetry; exact Hlen|].
  intros k trip ts Hk Hs.
  assert (Heq : deltas trip =
                expected_deltas (base_before (speed_events cfg file) k) ts).
  { apply (map_nth_error deltas) in Hk. rewrite Hd in Hk.
    rewrite (nth_expected_trips _ _ _ Hs) in Hk.
    injection Hk as Hk. symmetry. exact Hk. }
  assert (Hex : Forall exact_int ts).
  { assert (Hall : Forall (Forall exact_int) (speed_events cfg file))
      by (apply underlying_exact; repeat constructor).
    rewrite Forall_forall in Hall. apply Hall.
    eapply nth_error_In. exact Hs. }
  split; [|split].
  - rewrite <- (length_map (fun x : sample => Ok (fst x))).
    fold (deltas trip). rewrite Heq. apply expected_deltas_length.
  - intros Hne.
    destruct ts as [|t1 ts']; [congruence|].
    destruct trip as [|[d1 v1] rest]; [discriminate|].
    cbn [deltas map expected_deltas fst] in Heq.
    injection Heq as Hd1 Hrest.
    rewrite last_cons_default.
    cbn [sum_ms fst]. rewrite (@sum_ms_int_deltas ts' t1 rest Hrest).
    unfold base_before in *.
    destruct (fold_next_base (firstn k (speed_events cfg file)) (PyFloat 0))
      as [Hb | [b Hb]]; rewrite Hb in *.
    + apply Forall_inv in Hex. destruct Hex as (f & Hf & Hint).
      cbn [Py.sub Py.to_float bind] in Hd1. rewrite Hf in Hd1.
      cbn [bind] in Hd1. rewrite float_sub_zero in Hd1.
      injection Hd1 as ->.
      exists 0. split; [vm_compute; reflexivity|].
      cbn [ms_value]. rewrite Hint. f_equal. lia.
    + cbn [Py.sub] in Hd1. injection Hd1 as ->.
      exists b. split; [reflexivity|].
      cbn [ms_value]. f_equal. lia.
  - intros d1 v1 rest t1 ts' -> ->.
    cbn [deltas map expected_deltas fst] in Heq.
    injection Heq as Hd1 Hrest.
    split; [symmetry; exact Hd1|].
    rewrite last_cons_default.
    unfold Py.sum. rewrite (@sum_int_deltas ts' t1 rest 0 Hrest).
    f_equal.
Qed.

(** The docstring's session: the deltas 12940.0 and 200 of its trip add
    up to 13140, the last timestamp, as no speed event came before. *)
Lemma trip_deltas_telescope_witness :
  exists b,
    ms_value (base_before
                (speed_events Scenario.decoding Scenario.docstring_file) 0)
      = Some b /\
    sum_ms [(PyFloat 12940, PyFloat 0); (PyInt 200, PyFloat 1)]
      = Some (last [12940; 13140] 0 - b).
Proof.
  destruct (@trip_deltas_telescope Scenario.decoding
              Scenario.docstring_file
              [[(PyFloat 12940, PyFloat 0); (PyInt 200, PyFloat 1)]])
    as [_ Hk]; [vm_compute; reflexivity|].
  destruct (Hk 0%nat [(PyFloat 12940, PyFloat 0); (PyInt 200, PyFloat 1)]
               [12940; 13140]) as (_ & Hs & _);
    [reflexivity | vm_compute; reflexivity |].
  apply Hs. discriminate.
Defined.

(** On the docstring's session the only trip has its speed events at
    12940 and 13140 ms; its deltas add up to 13140.0, not to 200. *)
Lemma first_trip_sum_counts_from_zero :
  speed_events Scenario.decoding Scenario.docstring_file
    = [[12940; 13140]] /\
  Py.sum (map fst [(PyFloat 12940, PyFloat 0); (PyInt 200, PyFloat 1)])
    = Ok (PyFloat 13140) /\
  ~ trip_sum_is_last_minus_first Scenario.decoding Scenario.docstring_file.
Proof.
  split; [vm_compute; reflexivity|].
  split; [vm_compute; reflexivity|].
  intros H.
  specialize (H [[(PyFloat 12940, PyFloat 0); (PyInt 200, PyFloat 1)]]
                0%nat [(PyFloat 12940, PyFloat 0); (PyInt 200, PyFloat 1)]
                [12940; 13140] 12940 (PyFloat 13140)).
  assert (Hf : Py.eqb (PyFloat 13140) (PyInt (last [12940; 13140] 0 - 12940))
               = false) by (vm_compute; reflexivity).
  rewrite H in Hf; [discriminate | | | | | ]; vm_compute; reflexivity.
Qed.

(* ------------------------------------------------------------------ *)
(** ** C8: the bounded retry of [start_Measurement] *)

Module CANoeFacts.
Import CANoe.

Section Application.

Variable application : Type.
Variable Running : application -> bool.
Variable Start : application -> application.
Variable sleep : Z -> application -> application.

Let loop := start_loop Running Start sleep.

(** With as much fuel as attempts are left, the loop stops because its
    condition fails, not because the fuel runs out. *)
Lemma start_loop_exits fuel : forall app retry,
  retry_counter <= retry + Z.of_nat fuel ->
  let '(app', retry') := loop fuel app retry in
  negb (Running app') && (retry' <? retry_counter) = false.
Proof.
  induction fuel as [|fuel IH]; intros app retry Hf; simpl.
  - replace (retry <? retry_counter) with false
      by (symmetry; apply Z.ltb_ge; lia).
    apply andb_false_r.
  - destruct (negb (Running app) && (retry <? retry_counter)) eqn:E.
    + apply IH. lia.
    + exact E.
Qed.

(** The counter only grows, by one per attempt, and never passes 5. *)
Lemma start_loop_bound fuel : forall app retry,
  retry <= retry_counter ->
  retry <= snd (loop fuel app retry) <= retry_counter.
Proof.
  induction fuel as [|fuel IH]; intros app retry Hr; simpl.
  - lia.
  - destruct (negb (Running app) && (retry <? retry_counter)) eqn:E.
    + apply andb_true_iff in E. destruct E as [_ E].
      apply Z.ltb_lt in E.
      specialize (IH (sleep 1 (Start app)) (retry + 1)). simpl in IH. lia.
    + simpl. lia.
Qed.

(** What the final test looks at is the counter alone. *)
Lemma start_Measurement_raises_iff app :
  snd (start_Measurement Running Start sleep app) = Raise RuntimeWarning
  <-> snd (loop (Z.to_nat retry_counter) app 0) = retry_counter.
Proof.
  unfold start_Measurement. fold loop.
  destruct (loop (Z.to_nat retry_counter) app 0) as [app' retry'].
  simpl. destruct (retry' =? retry_counter) eqn:E; simpl.
  - apply Z.eqb_eq in E. tauto.
  - apply Z.eqb_neq in E. split; [discriminate | tauto].
Qed.

End Application.

(** C8, where the code departs from it. An application that reports the
    measurement as running after the fifth [Start()]: the loop makes its
    five attempts, each followed by a sleep of 1 s, and the measurement
    is running when it ends; [start_Measurement] raises all the same,
    because it tests the counter and not [Running]. When the fourth
    [Start()] is the one that succeeds, it returns normally. *)
Theorem start_Measurement_raises_though_running :
  start_Measurement sim_Running sim_Start sim_sleep (mkSim 0 0 5)
    = (mkSim 5 5 5, Raise RuntimeWarning) /\
  sim_Running (mkSim 5 5 5) = true /\
  start_Measurement sim_Running sim_Start sim_sleep (mkSim 0 0 4)
    = (mkSim 4 4 4, Ok tt).
Proof. repeat split. Qed.

End CANoeFacts.

(* ------------------------------------------------------------------ *)
(** ** C9 and C10: the replay pipeline *)

Module ReplayFacts.
Import Replay.

Lemma producer_inv_start time_speed :
  producer_inv time_speed (start_dist time_speed).
Proof. split; reflexivity. Qed.

Lemma step_parse_keeps st st' evs :
  step T_parse st = Some (st', evs) ->
  shared st' = shared st /\ replay st' = replay st /\
  forallb (fun ev => negb (is_write ev)) evs = true.
Proof.
  unfold step.
  destruct (parse st) as [o | o | o | | ex]; try discriminate.
  - intros H. injection H as <- <-. auto.
  - intros H. injection H as <- <-. auto.
  - destruct (mph_diff (get_speed (shared st)) o) as [x|ex].
    + destruct (kph_diff (get_speed (shared st)) o) as [y|ex];
        intros H; injection H as <- <-; auto.
    + intros H. injection H as <- <-. auto.
Qed.

Lemma step_inv time_speed t st st' evs :
  producer_inv time_speed st -> step t st = Some (st', evs) ->
  producer_inv time_speed st'.
Proof.
  intros Hinv H. destruct t.
  - unfold step in H. unfold producer_inv in *.
    destruct (replay st) as [[|[d v] rest] | v rest | ];
      try destruct (delay_returns (fst (d, v))); try discriminate;
      injection H as <- <-; simpl.
    + simpl in Hinv. tauto.
    + cbn [map snd] in Hinv. rewrite last_cons_default in Hinv.
      exact Hinv.
    + exact Hinv.
  - apply step_parse_keeps in H. destruct H as (Hs & Hr & _).
    unfold producer_inv. rewrite Hs, Hr. exact Hinv.
Qed.

Lemma run_inv time_speed sched : forall st,
  producer_inv time_speed st ->
  producer_inv time_speed (fst (run sched st)).
Proof.
  induction sched as [|t sched IH]; intros st Hinv; simpl.
  - exact Hinv.
  - destruct (step t st) as [[st' evs]|] eqn:E.
    + specialize (IH st' (@step_inv time_speed t st st' evs Hinv E)).
      destruct (run sched st') as [st'' evs']. exact IH.
    + apply IH. exact Hinv.
Qed.

(** Once the producer is done, nothing writes the speed any more. *)
Lemma done_never_writes sched : forall st,
  replay st = PDone ->
  forallb (fun ev => negb (is_write ev)) (snd (run sched st)) = true.
Proof.
  induction sched as [|t sched IH]; intros st Hd; simpl.
  - reflexivity.
  - destruct (step t st) as [[st' evs]|] eqn:E; [|apply IH; exact Hd].
    destruct t.
    + unfold step in E. rewrite Hd in E. discriminate.
    + apply step_parse_keeps in E. destruct E as (_ & Hr & Hw).
      specialize (IH st'). rewrite Hr in IH. specialize (IH Hd).
      destruct (run sched st') as [st'' evs']. simpl in *.
      rewrite forallb_app, Hw, IH. reflexivity.
Qed.

Lemma writes_precede_app_quiet evs tr :
  forallb (fun ev => match ev with GetEnd false => false | _ => true end)
          evs = true ->
  writes_precede_end_seen (evs ++ tr) = writes_precede_end_seen tr.
Proof.
  induction evs as [|ev evs IH]; intros H; [reflexivity|].
  simpl in H. apply andb_true_iff in H. destruct H as [Hev H].
  destruct ev as [ | | | [|] | | | | ]; simpl; try (apply IH; exact H).
  discriminate Hev.
Qed.

Lemma run_writes_precede time_speed sched : forall st,
  producer_inv time_speed st ->
  writes_precede_end_seen (snd (run sched st)) = true.
Proof.
  induction sched as [|t sched IH]; intros st Hinv; simpl.
  - reflexivity.
  - destruct (step t st) as [[st' evs]|] eqn:E; [|apply IH; exact Hinv].
    pose proof (@step_inv time_speed t st st' evs Hinv E) as Hinv'.
    pose proof (IH st' Hinv') as IH'.
    pose proof (done_never_writes sched st') as Hq.
    destruct (run sched st') as [st'' evs'] eqn:Er. simpl in *.
    destruct t.
    + unfold step in E.
      destruct (replay st) as [[|[d v] rest] | v rest | ];
        try destruct (delay_returns (fst (d, v)));
        try discriminate; injection E as <- <-; exact IH'.
    + unfold step in E.
      destruct (parse st) as [o | o | o | | ex]; try discriminate.
      * injection E as E1 <-. subst st'. simpl in *.
        destruct (get_end (shared st)) eqn:Ee; simpl; [exact IH'|].
        rewrite IH', andb_true_r. apply Hq.
        unfold producer_inv, get_end in *.
        destruct (replay st) as [rest | v rest | ]; [| |reflexivity];
          destruct Hinv as [He _]; congruence.
      * injection E as _ <-. exact IH'.
      * destruct (mph_diff (get_speed (shared st)) o) as [x|ex];
          [destruct (kph_diff (get_speed (shared st)) o) as [y|ex]|];
          injection E as _ <-; exact IH'.
Qed.

(** C9, as the code has it. In every interleaving: when the cell says the
    replay has ended, the producer is done and the cell holds the final
    speed, and no write of the speed follows an observation of the end
    by the consumer. The end flag and the speed are read by separate
    calls, though, and the consumer stops at the first observation of
    the end without reading the speed again. *)
Theorem end_flag_follows_final_write time_speed sched :
  get_end (shared (fst (run sched (start_dist time_speed)))) = false ->
  get_speed (shared (fst (run sched (start_dist time_speed))))
    = final_speed time_speed /\
  replay (fst (run sched (start_dist time_speed))) = PDone /\
  writes_precede_end_seen (snd (run sched (start_dist time_speed))) = true /\
  (parse (fst (run sched (start_dist time_speed))) = CDone ->
   step T_parse (fst (run sched (start_dist time_speed))) = None).
Proof.
  intros He.
  pose proof (@run_inv time_speed sched _ (producer_inv_start time_speed))
    as Hinv.
  pose proof (@run_writes_precede time_speed sched _
                (producer_inv_start time_speed)) as Hw.
  unfold producer_inv, get_end, get_speed in *.
  destruct (replay (fst (run sched (start_dist time_speed))))
    as [rest | v rest | ]; destruct Hinv as [He' Hs]; try congruence.
  split; [exact Hs|]. split; [reflexivity|]. split; [exact Hw|].
  intros Hp. unfold step. rewrite Hp. reflexivity.
Qed.

Lemma end_flag_follows_final_write_witness :
  get_speed (shared (fst (run late_write (start_dist two_samples))))
    = final_speed two_samples.
Proof.
  apply (@end_flag_follows_final_write two_samples late_write).
  vm_compute. reflexivity.
Defined.

(** Replaying [(0, 10.0), (1000, 20.0)] under [late_write]: the consumer
    reads 10.0, the producer writes 20.0 and ends, and the consumer
    observes the end and returns: it has never read 20.0. *)
Lemma end_seen_without_final_speed :
  snd (run late_write (start_dist two_samples)) =
    [Delay (PyInt 0); SetSpeed (PyFloat 10); GetEnd true;
     Delay (PyInt 1000); Delay (PyInt 1000); GetSpeed (PyFloat 10);
     AccelMph (PyFloat 10); AccelKph (PyFloat 0x1.8dc338cced628p+2);
     SetSpeed (PyFloat 20); End; GetEnd false] /\
  parse (fst (run late_write (start_dist two_samples))) = CDone /\
  ~ final_speed_seen_before_end.
Proof.
  split; [vm_compute; reflexivity|].
  split; [vm_compute; reflexivity|].
  intros H. specialize (H two_samples late_write).
  vm_compute in H. discriminate H.
Qed.

Lemma kph_not_zero : PrimFloat.eqb Reference.KPH_TO_MPH 0 = false.
Proof. vm_compute. reflexivity. Qed.

Lemma zero_over_kph : (0 / Reference.KPH_TO_MPH)%float = 0%float.
Proof. vm_compute. reflexivity. Qed.

(** Against [old_speed = 0.0]: dividing then subtracting is dividing. *)
Lemma kph_diff_from_zero speed mph kph :
  mph_diff speed (PyFloat 0) = Ok mph ->
  kph_diff speed (PyFloat 0) = Ok kph ->
  Py.truediv mph Reference.KPH_TO_MPH = Ok kph.
Proof.
  unfold mph_diff, kph_diff, Py.truediv, Py.sub.
  rewrite kph_not_zero.
  destruct speed as [z | f]; cbn [Py.to_float bind].
  - destruct (Py.float_of_int z) as [fz|ex]; cbn [Py.to_float bind];
      [|discriminate].
    rewrite zero_over_kph, !float_sub_zero.
    intros H1 H2. injection H1 as <-. injection H2 as <-.
    cbn [Py.to_float bind]. reflexivity.
  - rewrite zero_over_kph, !float_sub_zero.
    intros H1 H2. injection H1 as <-. injection H2 as <-.
    cbn [Py.to_float bind]. reflexivity.
Qed.

Lemma run_cons t sched st st' evs :
  step t st = Some (st', evs) ->
  run (t :: sched) st = (fst (run sched st'), evs ++ snd (run sched st')).
Proof.
  intros E. simpl. rewrite E. destruct (run sched st'). reflexivity.
Qed.

Lemma run_cons_skip t sched st :
  step t st = None -> run (t :: sched) st = run sched st.
Proof. intros E. simpl. rewrite E. reflexivity. Qed.

(** What a step of the producer emits is no call of an accumulation
    hook, and it leaves the consumer where it is. *)
Lemma step_replay_quiet st st' evs tr :
  step T_replay st = Some (st', evs) ->
  parse st' = parse st /\ accel_calls (evs ++ tr) = accel_calls tr.
Proof.
  unfold step.
  destruct (replay st) as [[|[d v] rest] | v rest | ];
    try destruct (delay_returns (fst (d, v))); try discriminate;
    intros H; injection H as <- <-; split; reflexivity.
Qed.

(** The steps of the consumer, by what they do to the list of calls. *)
Lemma step_parse_calls st st' evs tr :
  step T_parse st = Some (st', evs) ->
  (accel_calls (evs ++ tr) = accel_calls tr /\
   (old_speed_of (parse st') = old_speed_of (parse st) \/
    old_speed_of (parse st') = None)) \/
  (exists o x y,
     old_speed_of (parse st) = Some o /\
     mph_diff (get_speed (shared st)) o = Ok x /\
     kph_diff (get_speed (shared st)) o = Ok y /\
     accel_calls (evs ++ tr) = (x, y) :: accel_calls tr).
Proof.
  unfold step.
  destruct (parse st) as [o | o | o | | ex]; try discriminate.
  - intros H. injection H as <- <-. left. split; [reflexivity|].
    simpl. destruct (get_end (shared st)); auto.
  - intros H. injection H as <- <-. left. split; [reflexivity|].
    simpl. auto.
  - destruct (mph_diff (get_speed (shared st)) o) as [x|ex] eqn:Ex.
    + destruct (kph_diff (get_speed (shared st)) o) as [y|ex] eqn:Ey;
        intros H; injection H as <- <-.
      * right. exists o, x, y. repeat split; assumption.
      * left. split; [reflexivity | simpl; auto].
    + intros H. injection H as <- <-.
      left. split; [reflexivity | simpl; auto].
Qed.

(** Every pair of calls comes from one read of the cell. *)
Lemma accel_calls_are_diffs sched : forall st x y,
  In (x, y) (accel_calls (snd (run sched st))) ->
  exists speed old_speed,
    mph_diff speed old_speed = Ok x /\ kph_diff speed old_speed = Ok y.
Proof.
  induction sched as [|t sched IH]; intros st x y Hin.
  - destruct Hin.
  - destruct (step t st) as [[st' evs]|] eqn:E.
    + rewrite (@run_cons t sched st st' evs E) in Hin. simpl snd in Hin.
      destruct t.
      * destruct (@step_replay_quiet st st' evs (snd (run sched st')) E) as [_ Hq].
        rewrite Hq in Hin. eapply IH; eassumption.
      * destruct (@step_parse_calls st st' evs (snd (run sched st')) E)
          as [[Hq _] | (o & x' & y' & _ & Hx & Hy & Hq)];
          rewrite Hq in Hin.
        -- eapply IH; eassumption.
        -- destruct Hin as [Heq | Hin]; [|eapply IH; eassumption].
           injection Heq as <- <-. eauto.
    + rewrite (@run_cons_skip t sched st E) in Hin. eapply IH; eassumption.
Qed.

(** A consumer that has returned or failed calls nothing any more. *)
Lemma ended_consumer_calls_nothing sched : forall st,
  old_speed_of (parse st) = None ->
  accel_calls (snd (run sched st)) = [].
Proof.
  induction sched as [|t sched IH]; intros st Hn.
  - reflexivity.
  - destruct (step t st) as [[st' evs]|] eqn:E.
    + rewrite (@run_cons t sched st st' evs E). simpl snd. destruct t.
      * destruct (@step_replay_quiet st st' evs (snd (run sched st')) E) as [Hp Hq].
        rewrite Hq. apply IH. rewrite Hp. exact Hn.
      * unfold step in E.
        destruct (parse st) as [o | o | o | | ex]; discriminate.
    + rewrite (@run_cons_skip t sched st E). apply IH. exact Hn.
Qed.

(** The first pair of calls is computed against the [old_speed] the
    consumer holds now. *)
Lemma first_call_uses_old_speed sched : forall st o x y,
  old_speed_of (parse st) = Some o ->
  hd_error (accel_calls (snd (run sched st))) = Some (x, y) ->
  exists speed, mph_diff speed o = Ok x /\ kph_diff speed o = Ok y.
Proof.
  induction sched as [|t sched IH]; intros st o x y Ho Hhd.
  - discriminate.
  - destruct (step t st) as [[st' evs]|] eqn:E.
    + rewrite (@run_cons t sched st st' evs E) in Hhd. simpl snd in Hhd.
      destruct t.
      * destruct (@step_replay_quiet st st' evs (snd (run sched st')) E) as [Hp Hq].
        rewrite Hq in Hhd. eapply IH; [|eassumption].
        rewrite Hp. exact Ho.
      * destruct (@step_parse_calls st st' evs (snd (run sched st')) E)
          as [[Hq [Hsame | Hnone]] | (o' & x' & y' & Ho' & Hx & Hy & Hq)];
          rewrite Hq in Hhd.
        -- eapply IH; [|eassumption]. rewrite Hsame. exact Ho.
        -- rewrite (@ended_consumer_calls_nothing sched st' Hnone) in Hhd.
           discriminate.
        -- injection Hhd as <- <-.
           rewrite Ho in Ho'. injection Ho' as <-. eauto.
    + rewrite (@run_cons_skip t sched st E) in Hhd. eapply IH; eassumption.
Qed.

(** C10, as the code has it. In every polling iteration of every run,
    [process_accel_mph] gets [speed - old_speed] and [process_accel_kph]
    gets [speed / 1.609 - old_speed / 1.609], each operation rounded to
    binary64. When [old_speed] is [0.0] the second value is exactly the
    first divided by 1.609; so it is in the first polling iteration of
    every run. *)
Theorem kph_diff_scaled_from_zero :
  (forall time_speed sched x y,
     In (x, y) (accel_calls (snd (run sched (start_dist time_speed)))) ->
     exists speed old_speed,
       mph_diff speed old_speed = Ok x /\
       kph_diff speed old_speed = Ok y) /\
  (forall speed mph kph,
     mph_diff speed (PyFloat 0) = Ok mph ->
     kph_diff speed (PyFloat 0) = Ok kph ->
     Py.truediv mph Reference.KPH_TO_MPH = Ok kph) /\
  (forall time_speed sched x y,
     hd_error (accel_calls (snd (run sched (start_dist time_speed))))
       = Some (x, y) ->
     Py.truediv x Reference.KPH_TO_MPH = Ok y).
Proof.
  split; [intros ts sched x y; apply accel_calls_are_diffs|].
  split; [exact kph_diff_from_zero|].
  intros ts sched x y Hhd.
  destruct (@first_call_uses_old_speed sched (start_dist ts) (PyFloat 0)
              x y eq_refl Hhd) as (speed & Hx & Hy).
  exact (@kph_diff_from_zero speed x y Hx Hy).
Qed.

(** The first iteration of the replay of 64.0 then 65.5: 64.0 is read
    against 0.0, and 39.776258545680548 is 64.0 / 1.609. *)
Lemma kph_diff_scaled_from_zero_witness :
  Py.truediv (PyFloat 64) Reference.KPH_TO_MPH
  = Ok (PyFloat 0x1.3e35c70a5782p+5).
Proof.
  apply (proj2 (proj2 kph_diff_scaled_from_zero) speeding_up in_step).
  vm_compute. reflexivity.
Defined.

(** In the second iteration the consumer passes 1.5 and
    0.93225605966438962, while 1.5 / 1.609 is 0.93225605966438785. *)
Lemma kph_diff_rounds_differently :
  accel_calls (snd (run in_step (start_dist speeding_up))) =
    [(PyFloat 64, PyFloat 0x1.3e35c70a5782p+5);
     (PyFloat 0x1.8p+0, PyFloat 0x1.dd50aa8f8344p-1)] /\
  Py.truediv (PyFloat 0x1.8p+0) Reference.KPH_TO_MPH
    = Ok (PyFloat 0x1.dd50aa8f8343p-1) /\
  ~ kph_is_mph_scaled.
Proof.
  split; [vm_compute; reflexivity|].
  split; [vm_compute; reflexivity|].
  intros H.
  destruct (H speeding_up in_step (PyFloat 0x1.8p+0)
              (PyFloat 0x1.dd50aa8f8344p-1)) as (q & Hq & Heq).
  - vm_compute. right. left. reflexivity.
  - vm_compute in Hq. injection Hq as <-.
    vm_compute in Heq. discriminate Heq.
Qed.

End ReplayFacts.

(* ------------------------------------------------------------------ *)
(** ** When [parse_file] returns *)

Lemma is_ok_true {A} (r : result A) : is_ok r = true -> exists a, r = Ok a.
Proof. destruct r; [eauto | discriminate]. Qed.

Lemma print_time_ok c t :
  time c = Some t -> exact_int t -> print_time c = Ok tt.
Proof.
  intros Ht (f & Hf & _). unfold print_time. rewrite Ht. simpl.
  unfold Py.truediv. simpl. rewrite Hf. simpl.
  replace (PrimFloat.eqb 1000 0) with false by (vm_compute; reflexivity).
  reflexivity.
Qed.

Lemma speed_events_logic_total cfg id c t :
  ready c -> time c = Some t -> exact_int t ->
  ((id =? SPD_MSG_1 cfg) = true -> exists v, speed c = Some v) ->
  exists c', speed_events_logic cfg id c = Ok c' /\ ready c'.
Proof.
  intros [Hidx Hold] Ht Hex Hv. unfold speed_events_logic.
  assert (Hengine :
    exists c',
      (if negb (engine_status cfg c) && engine c
       then let ctx := set_trips (trips c + 1) c in
            let ctx := set_time_speed (time_speed ctx ++ [[]]) ctx in
            let ctx := set_engine false ctx in
            _ <- print_time ctx ;; Ok ctx
       else if engine_status cfg c && negb (engine c)
            then let ctx := set_engine true c in
                 _ <- print_time ctx ;; Ok ctx
            else Ok c) = Ok c' /\ ready c').
  { destruct (negb (engine_status cfg c) && engine c).
    - cbv zeta. rewrite (@print_time_ok _ t) by assumption. simpl.
      eexists. split; [reflexivity|]. split; simpl; [|assumption].
      rewrite length_app. simpl. lia.
    - destruct (engine_status cfg c && negb (engine c)).
      + cbv zeta. rewrite (@print_time_ok _ t) by assumption. simpl.
        eexists. split; [reflexivity|]. split; simpl; assumption.
      + eexists. split; [reflexivity|]. split; assumption. }
  destruct (id =? SPD_MSG_1 cfg).
  - destruct (Hv eq_refl) as [v Hv'].
    destruct (engine c); cbn -[Py.sub append_at Py.index].
    + destruct (@index_lt _ (time_speed c) _ Hidx) as [t0 Ht0].
      rewrite Ht0, Ht. cbn -[Py.sub append_at Py.index].
      assert (Hsub : exists d, Py.sub (PyInt t) (old_time c) = Ok d).
      { destruct Hex as (f & Hf & _).
        destruct Hold as [-> | [z ->]]; simpl.
        - rewrite Hf. simpl. eauto.
        - eauto. }
      destruct Hsub as [d Hd]. rewrite Hd, Hv'.
      cbn -[Py.sub append_at Py.index].
      unfold append_at. rewrite Ht0. simpl.
      eexists. split; [reflexivity|].
      split; simpl; [|eauto].
      rewrite length_app, length_firstn. cbn [List.length].
      rewrite length_skipn. lia.
    + eexists. split; [reflexivity|]. split; assumption.
  - destruct (id =? ENG_MSG_STD cfg); [exact Hengine|].
    destruct (id =? ENG_MSG_EV cfg); [exact Hengine|].
    eexists. split; [reflexivity|]. split; assumption.
Qed.

Lemma parse_line_total cfg line c :
  (forall id fr, signals_decode cfg id fr = true) ->
  ready c -> line_decodes line = true ->
  exists c', parse_line cfg line c = Ok c' /\ ready c'.
Proof.
  intros Hsig Hr Hdec. unfold line_decodes in Hdec. unfold parse_line.
  destruct (get_offset_ms (Py.split line)) as [t|] eqn:Et;
    [|discriminate]. simpl in Hdec |- *.
  pose proof (get_offset_ms_exact _ Et) as Hex.
  destruct (Py.index (Py.split line) 2) as [tok|] eqn:Ei; [|discriminate].
  simpl in Hdec |- *.
  destruct (Py.int16 tok) as [id|] eqn:Eid; [|discriminate].
  simpl in Hdec |- *.
  destruct (get_frame (Py.split line)) as [fr|] eqn:Efr; [|discriminate].
  simpl. specialize (Hsig id fr). unfold signals_decode in Hsig.
  unfold process_frame.
  destruct (id =? SPD_MSG_1 cfg) eqn:E1.
  { apply andb_true_iff in Hsig. destruct Hsig as [Ha Hb].
    apply is_ok_true in Ha. apply is_ok_true in Hb.
    destruct Ha as [a ->]. destruct Hb as [b ->]. simpl.
    apply (@speed_events_logic_total cfg id _ t);
      [exact Hr | reflexivity | exact Hex | intros _; simpl; eauto]. }
  destruct (id =? ENG_MSG_STD cfg) eqn:E2.
  { apply andb_true_iff in Hsig. destruct Hsig as [Ha Hb].
    apply is_ok_true in Ha. apply is_ok_true in Hb.
    destruct Ha as [a ->]. destruct Hb as [b ->]. simpl.
    apply (@speed_events_logic_total cfg id _ t);
      [exact Hr | reflexivity | exact Hex | congruence]. }
  destruct (id =? ENG_MSG_EV cfg) eqn:E3.
  { apply is_ok_true in Hsig. destruct Hsig as [a ->]. simpl.
    apply (@speed_events_logic_total cfg id _ t);
      [exact Hr | reflexivity | exact Hex | congruence]. }
  eexists. split; [reflexivity | exact Hr].
Qed.

Lemma parse_line_undecodable cfg line c :
  line_decodes line = false -> exists ex, parse_line cfg line c = Raise ex.
Proof.
  unfold line_decodes, parse_line. intros H.
  destruct (get_offset_ms (Py.split line)) as [t|ex]; simpl in *; [|eauto].
  destruct (Py.index (Py.split line) 2) as [tok|ex]; simpl in *; [|eauto].
  destruct (Py.int16 tok) as [id|ex]; simpl in *; [|eauto].
  destruct (get_frame (Py.split line)) as [fr|ex]; simpl in *; [|eauto].
  discriminate.
Qed.

Lemma parse_lines_total cfg data :
  (forall id fr, signals_decode cfg id fr = true) ->
  forall c, ready c -> forallb line_decodes data = true ->
  exists c', parse_lines cfg data 3 c = Ok c'.
Proof.
  intros Hsig. induction data as [|line rest IH]; intros c Hr Hd; simpl in *.
  - eauto.
  - apply andb_true_iff in Hd. destruct Hd as [Hl Hd].
    destruct (@parse_line_total cfg line c Hsig Hr Hl) as (c1 & E & Hr1).
    rewrite E. simpl. apply IH; assumption.
Qed.

Lemma parse_lines_fail_fast cfg data : forall c,
  forallb line_decodes data = false ->
  exists ex, parse_lines cfg data 3 c = Raise ex.
Proof.
  induction data as [|line rest IH]; intros c Hd; simpl in *.
  - discriminate.
  - destruct (line_decodes line) eqn:El; simpl in Hd.
    + destruct (parse_line cfg line c) as [c1|ex]; simpl; [|eauto].
      apply IH. exact Hd.
    + destruct (@parse_line_undecodable cfg line c El) as [ex ->].
      simpl. eauto.
Qed.

(** X1. For a configuration whose signal decoders return on every frame
    they are called on, [parse_file] returns exactly when every line
    after the three header lines decodes (timestamp, identifier and
    declared length can be read); otherwise it raises. The trip state
    machine itself never raises: the trip index stays in range and the
    timestamps are ints that convert to float. *)
Theorem parse_file_returns_iff_lines_decode cfg file :
  (forall id fr, signals_decode cfg id fr = true) ->
  (exists trs, parse_file cfg file = Ok trs) <->
  forallb line_decodes (skipn 3 file) = true.
Proof.
  intros Hsig. unfold parse_file.
  rewrite parse_lines_skips_header by lia. change (3 - 0)%nat with 3%nat.
  split.
  - intros [trs H].
    destruct (forallb line_decodes (skipn 3 file)) eqn:E; [reflexivity|].
    destruct (@parse_lines_fail_fast cfg (skipn 3 file)
                (set_engine (engine_status cfg context0) context0) E)
      as [ex Hex].
    rewrite Hex in H. discriminate.
  - intros Hd.
    destruct (@parse_lines_total cfg (skipn 3 file) Hsig
                (set_engine (engine_status cfg context0) context0))
      as [c' E]; [split; simpl; [lia | auto] | exact Hd |].
    rewrite E. simpl. eauto.
Qed.

(** The session of the docstring, with the decoders of the source. *)
Lemma parse_file_returns_iff_lines_decode_witness :
  exists trs, parse_file reference Scenario.docstring_file = Ok trs.
Proof.
  apply (@parse_file_returns_iff_lines_decode reference
           Scenario.docstring_file).
  - intros id fr. unfold signals_decode. cbn.
    unfold Reference.SPD_MSG_1, Reference.ENG_MSG_STD, Reference.ENG_MSG_EV.
    destruct (id =? 0); reflexivity.
  - vm_compute. reflexivity.
Defined.

(* ------------------------------------------------------------------ *)
(** ** The header *)

(** X2. [parse_file] never looks at the first three lines, whatever they
    hold: replacing them changes nothing, and a file of at most three
    lines gives the single empty trip, also when these lines are data
    lines. *)
Theorem parse_file_skips_three_lines cfg file :
  (forall h1 h2 h3,
     parse_file cfg file = parse_file cfg (h1 :: h2 :: h3 :: skipn 3 file)) /\
  ((List.length file <= 3)%nat -> parse_file cfg file = Ok [[]]).
Proof.
  split.
  - intros h1 h2 h3. unfold parse_file.
    rewrite (@parse_lines_skips_header cfg file 0) by lia.
    reflexivity.
  - intros Hlen. unfold parse_file.
    rewrite (@parse_lines_skips_header cfg file 0) by lia.
    change (3 - 0)%nat with 3%nat.
    rewrite skipn_all2 by exact Hlen. reflexivity.
Qed.

(** Three speed lines and no header: nothing is recorded. *)
Lemma parse_file_skips_three_lines_witness :
  parse_file Scenario.segmenting
    ["1.000 1 100 Tx d 1 0A"; "2.000 1 100 Tx d 1 14";
     "2.500 1 100 Tx d 1 00"]%string = Ok [[]].
Proof.
  apply (@parse_file_skips_three_lines Scenario.segmenting
           ["1.000 1 100 Tx d 1 0A"; "2.000 1 100 Tx d 1 14";
            "2.500 1 100 Tx d 1 00"]%string).
  simpl. lia.
Defined.

(* ------------------------------------------------------------------ *)
(** ** A line that is too short *)

Lemma split_aux_blank cs :
  forallb Py.is_space cs = true -> Py.split_aux cs [] = [].
Proof.
  induction cs as [|c cs IH]; simpl; intros H; [reflexivity|].
  apply andb_true_iff in H. destruct H as [Hc H].
  rewrite Hc. apply IH. exact H.
Qed.

Lemma short_line_undecodable line :
  (List.length (Py.split line) < 6)%nat -> line_decodes line = false.
Proof.
  intros Hlen. unfold line_decodes.
  destruct (get_offset_ms (Py.split line)) as [t|ex]; simpl; [|reflexivity].
  destruct (Py.index (Py.split line) 2) as [tok|ex]; simpl; [|reflexivity].
  destruct (Py.int16 tok) as [id|ex]; simpl; [|reflexivity].
  unfold get_frame, Py.index.
  destruct (nth_error (Py.split line) 5) eqn:E; [|reflexivity].
  assert (nth_error (Py.split line) 5 <> None) by congruence.
  apply nth_error_Some in H. lia.
Qed.

Lemma parse_lines_app cfg pre rest : forall c,
  parse_lines cfg (pre ++ rest) 3 c =
  (c' <- parse_lines cfg pre 3 c ;; parse_lines cfg rest 3 c').
Proof.
  induction pre as [|l pre IH]; intros c; simpl; [reflexivity|].
  destruct (parse_line cfg l c) as [c1|ex]; simpl; [apply IH | reflexivity].
Qed.

Lemma skipn_nth_error {A} (l : list A) : forall n a,
  nth_error l n = Some a -> skipn n l = a :: skipn (n + 1) l.
Proof.
  induction l as [|b l IH]; intros [|n] a H; try discriminate.
  - simpl in *. congruence.
  - simpl in H. apply IH in H. exact H.
Qed.

Lemma data_lines_split (file : list string) n line :
  (3 <= n)%nat -> nth_error file n = Some line ->
  skipn 3 file =
  skipn 3 (firstn n file) ++ line :: skipn (n + 1) file.
Proof.
  intros Hn Hnth.
  rewrite <- (firstn_skipn n file) at 1.
  assert (Hlen : (n < List.length file)%nat)
    by (apply nth_error_Some; congruence).
  rewrite skipn_app.
  rewrite length_firstn, Nat.min_l by lia.
  replace (3 - n)%nat with 0%nat by lia. simpl skipn at 2.
  f_equal. apply skipn_nth_error. exact Hnth.
Qed.

(** X3. When the lines before it have been parsed, a line past the header
    with fewer than six tokens makes [parse_file] raise; a line of white
    space only (a blank line at the end of the log, say) raises
    [IndexError]. *)
Theorem short_data_line_raises cfg file n line trs :
  (3 <= n)%nat -> nth_error file n = Some line ->
  (List.length (Py.split line) < 6)%nat ->
  parse_file cfg (firstn n file) = Ok trs ->
  (exists ex, parse_file cfg file = Raise ex) /\
  (forallb Py.is_space (list_ascii_of_string line) = true ->
   parse_file cfg file = Raise IndexError).
Proof.
  intros Hn Hnth Hshort Hpre.
  unfold parse_file in *.
  rewrite (@parse_lines_skips_header cfg file 0) by lia.
  rewrite (@parse_lines_skips_header cfg (firstn n file) 0) in Hpre by lia.
  change (3 - 0)%nat with 3%nat in *.
  rewrite (@data_lines_split file n line Hn Hnth).
  rewrite parse_lines_app.
  destruct (parse_lines cfg (skipn 3 (firstn n file)) 3
              (set_engine (engine_status cfg context0) context0))
    as [c1|ex]; [|discriminate].
  cbn [bind parse_lines Nat.ltb Nat.leb].
  split.
  - destruct (@parse_line_undecodable cfg line c1
                (@short_line_undecodable line Hshort)) as [ex ->].
    simpl. eauto.
  - intros Hblank. unfold parse_line, Py.split.
    rewrite (@split_aux_blank _ Hblank). reflexivity.
Qed.

(** The session of the docstring followed by an empty line. *)
Lemma short_data_line_raises_witness :
  parse_file Scenario.decoding (Scenario.docstring_file ++ [Scenario.nl])
  = Raise IndexError.
Proof.
  apply (@short_data_line_raises Scenario.decoding
           (Scenario.docstring_file ++ [Scenario.nl]) 5 Scenario.nl
           [[(PyFloat 12940, PyFloat 0); (PyInt 200, PyFloat 1)]]);
    vm_compute; first [reflexivity | lia | intros; discriminate].
Defined.

(* ------------------------------------------------------------------ *)
(** ** Trips are only appended to *)

Lemma kept_in_refl c :
  (trips c + 1 = List.length (time_speed c))%nat -> kept_in c (time_speed c).
Proof.
  intros H.
  destruct (@snoc_of_length _ (time_speed c) (trips c)) as (l & a & E & Hl);
    [lia|].
  exists l, a, [], []. rewrite app_nil_r. auto.
Qed.

Lemma trip_step_kept t c c' trs :
  (trips c + 1 = List.length (time_speed c))%nat ->
  trip_step t c c' -> kept_in c' trs ->
  (trips c' + 1 = List.length (time_speed c'))%nat /\ kept_in c trs.
Proof.
  intros Hlen Hstep (closed & cur & more & tail & Ets & Hcl & Etrs).
  destruct Hstep as [Ho Ht He Hts | d v He He' Ht Hd Happ Ho
                    | He He' Ht Hts Ho | He He' Ht Hts Ho].
  - split; [congruence|].
    exists closed, cur, more, tail. rewrite <- Hts, <- Ht. auto.
  - pose proof (@append_at_length _ _ _ _ Happ) as Hl.
    split; [lia|].
    destruct (@snoc_of_length _ (time_speed c) (trips c)) as (l & a & E & Hll);
      [lia|].
    rewrite E, <- Hll, append_at_last in Happ. injection Happ as Happ.
    rewrite Ets in Happ. apply app_inj_tail in Happ. destruct Happ as [<- <-].
    exists l, a, ((d, v) :: more), tail. repeat split; auto.
    rewrite Etrs, <- app_assoc. reflexivity.
  - split; [rewrite Ht, Hts, length_app; simpl; lia|].
    rewrite Ets in Hts. apply app_inj_tail in Hts. destruct Hts as [-> ->].
    destruct (@snoc_of_length _ (time_speed c) (trips c)) as (l & a & E & Hll);
      [lia|].
    exists l, a, [], (more :: tail). rewrite app_nil_r.
    repeat split; auto.
    rewrite Etrs, E, <- app_assoc. reflexivity.
  - split; [congruence|].
    exists closed, cur, more, tail. rewrite <- Hts, <- Ht. auto.
Qed.

Lemma parse_lines_kept cfg file : forall count c c',
  (trips c + 1 = List.length (time_speed c))%nat ->
  parse_lines cfg file count c = Ok c' ->
  Forall (fun x => kept_in x (time_speed c')) (parse_trace cfg file count c).
Proof.
  induction file as [|line rest IH]; intros count c c' Hlen H; simpl in *.
  - injection H as <-. constructor; [|constructor].
    apply kept_in_refl. exact Hlen.
  - destruct (count <? 3)%nat.
    + apply IH; assumption.
    + destruct (parse_line cfg line c) as [c1|ex] eqn:E; simpl in H;
        [|discriminate].
      destruct (@parse_line_step _ _ _ _ E) as (t & _ & _ & Hstep).
      assert (Hlen1 : (trips c1 + 1 = List.length (time_speed c1))%nat).
      { destruct (parse_trace_head cfg rest count c1) as [l El].
        pose proof (IH count c1 c') as IH'.
        destruct Hstep as [Ho Ht He Hts | d v He He' Ht Hd Happ Ho
                          | He He' Ht Hts Ho | He He' Ht Hts Ho].
        - congruence.
        - rewrite (@append_at_length _ _ _ _ Happ). lia.
        - rewrite Ht, Hts, length_app. simpl. lia.
        - congruence. }
      pose proof (IH count c1 c' Hlen1 H) as Hall.
      constructor; [|exact Hall].
      destruct (parse_trace_head cfg rest count c1) as [l El].
      rewrite El in Hall. inversion Hall as [|? ? Hc1 _]; subst.
      exact (proj2 (@trip_step_kept t c c1 (time_speed c') Hlen Hstep Hc1)).
Qed.

(** X4. At every point of a parse the current trip is the last of the
    list, and the list returned in the end keeps what was there: the
    trips closed so far are its first trips, unchanged, and the current
    trip is a prefix of the trip at its index. *)
Theorem closed_trips_are_final cfg file trs :
  parse_file cfg file = Ok trs ->
  Forall (fun c => kept_in c trs) (parse_trace cfg file 0 (initial cfg)).
Proof.
  unfold parse_file. intros H. inv_bind H. injection H as <-.
  apply parse_lines_kept; [reflexivity | exact E].
Qed.

Lemma closed_trips_are_final_witness :
  Forall (fun c =>
            kept_in c [[(PyFloat 1000, PyFloat 10); (PyInt 1000, PyFloat 20)];
                       [(PyInt 2001, PyFloat 40); (PyInt 999, PyFloat 50)];
                       []])
         (parse_trace Scenario.segmenting Scenario.two_trips_file 0
                      (initial Scenario.segmenting)).
Proof.
  apply closed_trips_are_final. vm_compute. reflexivity.
Defined.

(* ------------------------------------------------------------------ *)
(** ** Deltas of a log whose time does not go back *)

Lemma append_at_Forall (P : sample -> Prop) l i x l' :
  append_at l i x = Ok l' -> Forall (Forall P) l -> P x ->
  Forall (Forall P) l'.
Proof.
  unfold append_at. intros H Hall Hx. inv_bind H. injection H as <-.
  apply index_ok in E.
  destruct (@Forall_firstn_skipn _ (Forall P) i l Hall) as [Hf _].
  destruct (@Forall_firstn_skipn _ (Forall P) (i + 1) l Hall) as [_ Hs].
  apply Forall_app. split; [exact Hf|].
  constructor; [|exact Hs].
  apply Forall_app. split; [|constructor; [exact Hx | constructor]].
  rewrite Forall_forall in Hall. apply Hall.
  eapply nth_error_In. exact E.
Qed.

Lemma trip_step_on_time t prev c c' :
  0 <= prev -> prev <= t -> exact_int t ->
  on_time prev c -> trip_step t c c' -> on_time t c'.
Proof.
  intros H0 Hle Hex [Hold Hall] Hstep.
  assert (Hold' : old_time c = PyFloat 0 \/
                  exists z, old_time c = PyInt z /\ z <= t).
  { destruct Hold as [Hz | (z & Hz & Hzl)]; [left; exact Hz|].
    right. exists z. split; [exact Hz | lia]. }
  destruct Hstep as [Ho Ht He Hts | d v He He' Ht Hd Happ Ho
                    | He He' Ht Hts Ho | He He' Ht Hts Ho].
  - split; [rewrite Ho; exact Hold' | rewrite Hts; exact Hall].
  - split.
    + right. exists t. split; [exact Ho | lia].
    + apply (@append_at_Forall nonneg_delta _ _ _ _ Happ Hall).
      exists (t - match old_time c with PyInt z => z | PyFloat _ => 0 end).
      cbn [fst].
      destruct Hold as [Hz | (z & Hz & Hzl)]; rewrite Hz in *.
      * destruct Hex as (f & Hf & Hint).
        unfold Py.sub in Hd. cbn [Py.to_float] in Hd. rewrite Hf in Hd.
        simpl in Hd. injection Hd as <-.
        rewrite float_sub_zero. cbn [ms_value]. rewrite Hint, Z.sub_0_r.
        split; [reflexivity | lia].
      * simpl in Hd. injection Hd as <-. cbn [ms_value].
        split; [reflexivity | lia].
  - split; [rewrite Ho; exact Hold'|].
    rewrite Hts. apply Forall_app. split; [exact Hall|].
    constructor; constructor.
  - split; [rewrite Ho; exact Hold' | rewrite Hts; exact Hall].
Qed.

Lemma parse_lines_on_time cfg data : forall prev c c',
  0 <= prev -> monotone prev data -> on_time prev c ->
  parse_lines cfg data 3 c = Ok c' ->
  Forall (Forall nonneg_delta) (time_speed c').
Proof.
  induction data as [|line rest IH]; intros prev c c' H0 Hm Hon H;
    simpl in *.
  - injection H as <-. exact (proj2 Hon).
  - destruct (parse_line cfg line c) as [c1|ex] eqn:E; simpl in H;
      [|discriminate].
    destruct (@parse_line_step _ _ _ _ E) as (t & Ht & _ & Hstep).
    rewrite Ht in Hm. destruct Hm as [Hle Hm].
    apply (IH t c1 c'); [lia | exact Hm | | exact H].
    apply (@trip_step_on_time t prev c c1); auto.
    eapply get_offset_ms_exact. exact Ht.
Qed.

(** X5. When the timestamps of the data lines are not negative and never
    decrease, every delta of every trip is equal to an integer [>= 0].
    (The parser does not check the order: the hypothesis is needed.) *)
Theorem deltas_not_negative cfg file trs :
  monotone 0 (skipn 3 file) ->
  parse_file cfg file = Ok trs ->
  Forall (Forall nonneg_delta) trs.
Proof.
  intros Hm H. unfold parse_file in H.
  rewrite (@parse_lines_skips_header cfg file 0) in H by lia.
  change (3 - 0)%nat with 3%nat in H.
  inv_bind H. injection H as <-.
  apply (@parse_lines_on_time cfg (skipn 3 file) 0
           (set_engine (engine_status cfg context0) context0) a);
    [lia | exact Hm | | exact E].
  split; [left; reflexivity|].
  simpl. constructor; constructor.
Qed.

Lemma deltas_not_negative_witness :
  Forall (Forall nonneg_delta)
         [[(PyFloat 12940, PyFloat 0); (PyInt 200, PyFloat 1)]].
Proof.
  apply (@deltas_not_negative Scenario.decoding Scenario.docstring_file).
  - vm_compute. repeat split; discriminate.
  - vm_compute. reflexivity.
Defined.

(* ------------------------------------------------------------------ *)
(** ** Timestamps at or below zero *)

Lemma nonpos_times_1000 (sec : PrimFloat.float) :
  (sec <=? 0)%float = true ->
  match Prim2SF (sec * 1000) with
  | S754_finite s _ _ => s = true
  | _ => True
  end.
Proof.
  intros H. rewrite leb_spec in H. rewrite mul_spec.
  set (zero := Prim2SF 0) in H. vm_compute in zero. subst zero.
  set (k := Prim2SF 1000). vm_compute in k. subst k.
  destruct (Prim2SF sec) as [s | s | | s m e]; simpl; auto.
  assert (s = true) by (destruct s; [reflexivity | discriminate H]).
  subst s. apply binary_round_aux_sign.
Qed.

Lemma neg_shiftl_is_ceiling (m : positive) (e : Z) :
  - Z.shiftl (Z.pos m) e = Qceiling (SF_value (S754_finite true m e)).
Proof.
  rewrite shiftl_is_floor. unfold Qceiling. f_equal.
  unfold SF_value. destruct e as [| p | p]; unfold Qfloor, Qopp, inject_Z;
    cbn [Qnum Qden]; rewrite Z.opp_involutive; reflexivity.
Qed.

(** X6. For a timestamp token that reads as a float [sec <= 0], the
    millisecond timestamp is the ceiling of the (binary64) product
    [sec * 1000]: [int] cuts towards zero, so a negative timestamp is
    moved up, not down. *)
Theorem get_offset_ms_cuts_toward_zero offset tok sec :
  Py.index offset 0 = Ok tok -> Py.float tok = Ok sec ->
  (sec <=? 0)%float = true ->
  get_offset_ms offset =
    if float_finite (sec * 1000)
    then Ok (Qceiling (float_value (sec * 1000)))
    else match Prim2SF (sec * 1000) with
         | S754_nan => Raise ValueError
         | _ => Raise OverflowError
         end.
Proof.
  intros Hi Hf Hneg.
  unfold get_offset_ms. rewrite Hi. simpl. rewrite Hf. simpl.
  pose proof (@nonpos_times_1000 sec Hneg) as Hs.
  unfold Py.int_of_float, float_value, float_finite in *.
  destruct (Prim2SF (sec * 1000)) as [s | s | | s m e]; try reflexivity.
  subst s. rewrite neg_shiftl_is_ceiling. reflexivity.
Qed.

(** [-0.0005] s is 0 ms and [-1.0005] s is -1000 ms. *)
Lemma get_offset_ms_cuts_toward_zero_witness :
  get_offset_ms ["-0.0005"%string] = Ok 0 /\
  get_offset_ms ["-1.0005"%string] = Ok (-1000).
Proof.
  split.
  - apply (@get_offset_ms_cuts_toward_zero ["-0.0005"%string] "-0.0005"%string
             (-0x1.0624dd2f1a9fcp-11)%float);
      vm_compute; reflexivity.
  - vm_compute. reflexivity.
Defined.

(* ------------------------------------------------------------------ *)
(** ** The payload that [get_frame] returns *)

Lemma index_5_length {A} (l : list A) a :
  Py.index l 5 = Ok a -> (6 <= List.length l)%nat.
Proof.
  intros H. apply index_ok in H.
  assert (nth_error l 5 <> None) by congruence.
  apply nth_error_Some in H0. lia.
Qed.

(** X7. Whatever the declared length, the frame that [get_frame] returns
    is a prefix of the tokens after the sixth: it never holds one of the
    first six tokens and never changes the order. *)
Theorem get_frame_is_payload_prefix line fr :
  get_frame line = Ok fr -> exists rest, skipn 6 line = fr ++ rest.
Proof.
  unfold get_frame. intros H. inv_bind H. inv_bind H. injection H as <-.
  pose proof (@index_5_length _ line a E) as Hlen.
  unfold Py.slice.
  replace (Z.to_nat (Z.min (Z.of_nat 6) (Z.of_nat (List.length line))))
    with 6%nat by lia.
  eexists. symmetry. apply firstn_skipn.
Qed.

Lemma get_frame_is_payload_prefix_witness :
  exists rest,
    skipn 6 ["1.0"; "1"; "0"; "Tx"; "d"; "2"; "00"; "01"; "Length"]%string
    = ["00"; "01"]%string ++ rest.
Proof.
  apply (@get_frame_is_payload_prefix
           ["1.0"; "1"; "0"; "Tx"; "d"; "2"; "00"; "01"; "Length"]%string
           ["00"; "01"]%string).
  vm_compute. reflexivity.
Defined.

(** X8. A negative declared length is not refused. From -6 to -1 the
    frame is empty; below -6 the slice counts from the end of the line,
    and the frame is the payload without its last [-n - 6] tokens. *)
Theorem get_frame_negative_length line tok n :
  Py.index line 5 = Ok tok -> Py.int10 tok = Ok n -> n < 0 ->
  get_frame line =
    Ok (if n <? -6
        then firstn (Z.to_nat (Z.of_nat (List.length line) + n)) (skipn 6 line)
        else []).
Proof.
  intros Hi Hn Hneg. unfold get_frame. rewrite Hi. simpl. rewrite Hn. simpl.
  pose proof (@index_5_length _ line tok Hi) as Hlen.
  unfold Py.slice.
  replace (Z.to_nat (Z.min (Z.of_nat 6) (Z.of_nat (List.length line))))
    with 6%nat by lia.
  f_equal.
  destruct (n <? -6) eqn:E6.
  - apply Z.ltb_lt in E6.
    replace (n + 6 <? 0) with true by (symmetry; apply Z.ltb_lt; lia).
    f_equal. lia.
  - apply Z.ltb_ge in E6.
    replace (n + 6 <? 0) with false by (symmetry; apply Z.ltb_ge; lia).
    replace (Z.to_nat (Z.min (n + 6) (Z.of_nat (List.length line))
                       - Z.min (Z.of_nat 6) (Z.of_nat (List.length line))))
      with 0%nat by lia.
    reflexivity.
Qed.

(** A declared length of -7 on a line of nine tokens: two payload tokens
    out of three. *)
Lemma get_frame_negative_length_witness :
  get_frame ["1.0"; "1"; "0"; "Tx"; "d"; "-7"; "00"; "01"; "02"]%string
  = Ok ["00"; "01"]%string.
Proof.
  apply (@get_frame_negative_length
           ["1.0"; "1"; "0"; "Tx"; "d"; "-7"; "00"; "01"; "02"]%string
           "-7"%string (-7));
    vm_compute; reflexivity.
Defined.

(* ------------------------------------------------------------------ *)
(** ** Lines with an unknown identifier *)

Lemma set_time_forget t c1 c2 :
  forget c1 = forget c2 -> set_time t c1 = set_time t c2.
Proof.
  unfold forget, set_time. intros H. injection H as -> -> -> -> -> -> -> -> ->.
  reflexivity.
Qed.

Lemma parse_line_forget cfg line c1 c2 :
  forget c1 = forget c2 -> parse_line cfg line c1 = parse_line cfg line c2.
Proof.
  intros H. unfold parse_line.
  destruct (get_offset_ms (Py.split line)) as [t|ex]; [|reflexivity].
  cbn [bind]. rewrite (@set_time_forget t c1 c2 H). reflexivity.
Qed.

Lemma alike_refl r : alike r r.
Proof. destruct r; simpl; reflexivity. Qed.

Lemma parse_lines_forget cfg data : forall c1 c2,
  forget c1 = forget c2 ->
  alike (parse_lines cfg data 3 c1) (parse_lines cfg data 3 c2).
Proof.
  destruct data as [|line rest]; intros c1 c2 H.
  - simpl. exact H.
  - cbn [parse_lines Nat.ltb Nat.leb].
    rewrite (@parse_line_forget cfg line c1 c2 H). apply alike_refl.
Qed.

Lemma parse_line_ignored cfg line c :
  ignored cfg line = true ->
  exists t, parse_line cfg line c = Ok (set_time t c).
Proof.
  unfold ignored, line_decodes, parse_line. intros H.
  apply andb_true_iff in H. destruct H as [Hd Hid].
  destruct (get_offset_ms (Py.split line)) as [t|ex]; [|discriminate].
  cbn [bind] in *.
  destruct (Py.index (Py.split line) 2) as [tok|ex]; [|discriminate].
  cbn [bind] in *.
  destruct (Py.int16 tok) as [id|ex]; [|discriminate].
  cbn [bind] in *.
  destruct (get_frame (Py.split line)) as [fr|ex]; [|discriminate].
  cbn [bind]. exists t. unfold process_frame.
  apply andb_true_iff in Hid. destruct Hid as [Hid H3].
  apply andb_true_iff in Hid. destruct Hid as [H1 H2].
  apply negb_true_iff in H1, H2, H3. rewrite H1, H2, H3. reflexivity.
Qed.

Lemma parse_lines_trimmed cfg data : forall c1 c2,
  forget c1 = forget c2 ->
  alike (parse_lines cfg (filter (fun line => negb (ignored cfg line)) data)
                     3 c1)
        (parse_lines cfg data 3 c2).
Proof.
  induction data as [|line rest IH]; intros c1 c2 H.
  - simpl. exact H.
  - cbn [filter]. destruct (ignored cfg line) eqn:E; cbn [negb].
    + cbn [parse_lines Nat.ltb Nat.leb].
      destruct (@parse_line_ignored cfg line c2 E) as [t ->].
      cbn [bind]. apply IH. rewrite H. reflexivity.
    + cbn [parse_lines Nat.ltb Nat.leb].
      rewrite (@parse_line_forget cfg line c1 c2 H).
      destruct (parse_line cfg line c2) as [c'|ex]; cbn [bind].
      * apply IH. reflexivity.
      * reflexivity.
Qed.

(** X17. Taking out of a log the data lines that decode and whose
    identifier is none of the three that [process_frame] knows changes
    nothing to what [parse_file] returns or raises. *)
Theorem parse_file_of_trimmed_log cfg file :
  parse_file cfg (trimmed cfg file) = parse_file cfg file.
Proof.
  unfold parse_file.
  rewrite (@parse_lines_skips_header cfg file 0) by lia.
  rewrite (@parse_lines_skips_header cfg (trimmed cfg file) 0) by lia.
  change (3 - 0)%nat with 3%nat.
  assert (Hskip : skipn 3 (trimmed cfg file)
                  = filter (fun line => negb (ignored cfg line))
                           (skipn 3 file)).
  { unfold trimmed. rewrite skipn_app.
    rewrite (@skipn_all2 _ 3 (firstn 3 file)) by (rewrite length_firstn; lia).
    rewrite length_firstn.
    destruct (Nat.le_gt_cases 3 (List.length file)) as [Hl|Hl].
    - rewrite Nat.min_l by exact Hl. rewrite Nat.sub_diag. reflexivity.
    - rewrite (@skipn_all2 _ 3 file) by lia. cbn [filter].
      rewrite skipn_nil. reflexivity. }
  rewrite Hskip.
  pose proof (@parse_lines_trimmed cfg (skipn 3 file)
                (set_engine (engine_status cfg context0) context0)
                (set_engine (engine_status cfg context0) context0)
                eq_refl) as Ha.
  destruct (parse_lines cfg (filter _ (skipn 3 file)) 3 _) as [c1|e1];
    destruct (parse_lines cfg (skipn 3 file) 3 _) as [c2|e2];
    simpl in Ha; try contradiction; cbn [bind].
  - unfold forget in Ha. injection Ha as _ _ _ -> _ _ _ _ _. reflexivity.
  - rewrite Ha. reflexivity.
Qed.

(* ------------------------------------------------------------------ *)
(** ** Which deltas are floats *)

Lemma sub_from_zero t d :
  Py.sub (PyInt t) (PyFloat 0) = Ok d -> exists f, d = PyFloat f.
Proof.
  unfold Py.sub. cbn [Py.to_float].
  destruct (Py.float_of_int t) as [f|ex]; [|discriminate].
  simpl. intros H. injection H as <-. eauto.
Qed.

Lemma trip_step_first_is_float t c c' :
  (trips c + 1 = List.length (time_speed c))%nat ->
  first_is_float c -> trip_step t c c' ->
  (trips c' + 1 = List.length (time_speed c'))%nat /\ first_is_float c'.
Proof.
  intros Hlen Hq Hstep. unfold first_is_float in *.
  destruct Hstep as [Ho Ht He Hts | d v He He' Ht Hd Happ Ho
                    | He He' Ht Hts Ho | He He' Ht Hts Ho].
  - rewrite Ho, Ht, Hts. auto.
  - pose proof (@append_at_length _ _ _ _ Happ) as Hl.
    split; [lia|].
    destruct (@snoc_of_length _ (time_speed c) (trips c)) as (l & a & E & Hll);
      [lia|].
    rewrite E, <- Hll, append_at_last in Happ. injection Happ as <-.
    rewrite Ho.
    assert (Hc : List.concat (l ++ [a ++ [(d, v)]])
                 = List.concat (time_speed c) ++ [(d, v)]).
    { rewrite E, !List.concat_app. simpl. rewrite !app_nil_r, app_assoc.
      reflexivity. }
    rewrite Hc.
    destruct (List.concat (time_speed c)) as [|first rest].
    + rewrite Hq in Hd. destruct (@sub_from_zero t d Hd) as [f ->].
      simpl. split; [eauto|]. split; [constructor | eauto].
    + destruct Hq as (Hf & Hr & z & Hz).
      rewrite Hz in Hd. simpl in Hd. injection Hd as <-.
      simpl. split; [exact Hf|]. split; [|eauto].
      apply Forall_app. split; [exact Hr|].
      constructor; [|constructor]. exists (t - z). reflexivity.
  - split; [rewrite Ht, Hts, length_app; simpl; lia|].
    rewrite Hts, Ho, List.concat_app. simpl. rewrite app_nil_r. exact Hq.
  - rewrite Ho, Ht, Hts. auto.
Qed.

Lemma parse_lines_first_is_float cfg data : forall c c',
  (trips c + 1 = List.length (time_speed c))%nat ->
  first_is_float c -> parse_lines cfg data 3 c = Ok c' ->
  first_is_float c'.
Proof.
  induction data as [|line rest IH]; intros c c' Hlen Hq H; simpl in H.
  - injection H as <-. exact Hq.
  - destruct (parse_line cfg line c) as [c1|ex] eqn:E; simpl in H;
      [|discriminate].
    destruct (@parse_line_step _ _ _ _ E) as (t & _ & _ & Hstep).
    destruct (@trip_step_first_is_float t c c1 Hlen Hq Hstep) as [Hlen1 Hq1].
    apply (IH c1 c' Hlen1 Hq1 H).
Qed.

(** X18. Of all the samples that [parse_file] returns, trip after trip,
    only the first has a float delta (it is measured against the initial
    [old_time = 0.0]); every other delta is an int. *)
Theorem only_first_delta_is_float cfg file trs :
  parse_file cfg file = Ok trs ->
  match List.concat trs with
  | [] => True
  | first :: rest => (exists f, fst first = PyFloat f) /\ Forall int_delta rest
  end.
Proof.
  unfold parse_file. intros H.
  rewrite (@parse_lines_skips_header cfg file 0) in H by lia.
  inv_bind H. injection H as <-.
  assert (Hq : first_is_float a).
  { apply (@parse_lines_first_is_float cfg (skipn (3 - 0) file)
             (set_engine (engine_status cfg context0) context0) a);
      [reflexivity | reflexivity | exact E]. }
  unfold first_is_float in Hq.
  destruct (List.concat (time_speed a)); [exact I | tauto].
Qed.

(** The two trips of the segmenting session. *)
Lemma only_first_delta_is_float_witness :
  (exists f, fst (PyFloat 1000, PyFloat 10) = PyFloat f) /\
  Forall int_delta [(PyInt 1000, PyFloat 20); (PyInt 2001, PyFloat 40);
                    (PyInt 999, PyFloat 50)].
Proof.
  apply (@only_first_delta_is_float Scenario.segmenting
           Scenario.two_trips_file
           [[(PyFloat 1000, PyFloat 10); (PyInt 1000, PyFloat 20)];
            [(PyInt 2001, PyFloat 40); (PyInt 999, PyFloat 50)]; []]).
  vm_compute. reflexivity.
Defined.

(* ------------------------------------------------------------------ *)
(** ** Further properties of the replay pipeline *)

Module PipelineFacts.
Import Replay.

(** *** The producer follows the trip *)

Lemma run_app s1 : forall s2 st,
  run (s1 ++ s2) st =
  (fst (run s2 (fst (run s1 st))),
   snd (run s1 st) ++ snd (run s2 (fst (run s1 st)))).
Proof.
  induction s1 as [|t s1 IH]; intros s2 st; simpl.
  - destruct (run s2 st); reflexivity.
  - destruct (step t st) as [[st' evs]|].
    + rewrite IH. destruct (run s1 st') as [st1 e1]. simpl.
      rewrite app_assoc. reflexivity.
    + apply IH.
Qed.

Lemma updates_app tr1 tr2 : updates (tr1 ++ tr2) = updates tr1 ++ updates tr2.
Proof. apply filter_app. Qed.

Lemma step_pending t st st' evs :
  step t st = Some (st', evs) ->
  updates evs ++ pending (replay st') = pending (replay st).
Proof.
  destruct t; unfold step.
  - destruct (replay st) as [[|[d v] rest] | v rest | ];
      try destruct (delay_returns (fst (d, v))); try discriminate;
      intros H; injection H as <- <-; reflexivity.
  - destruct (parse st) as [o | o | o | | ex]; try discriminate.
    + intros H. injection H as <- <-. reflexivity.
    + intros H. injection H as <- <-. reflexivity.
    + destruct (mph_diff (get_speed (shared st)) o) as [x|ex];
        [destruct (kph_diff (get_speed (shared st)) o) as [y|ex]|];
        intros H; injection H as <- <-; reflexivity.
Qed.

Lemma run_pending sched : forall st,
  updates (snd (run sched st)) ++ pending (replay (fst (run sched st)))
  = pending (replay st).
Proof.
  induction sched as [|t sched IH]; intros st; simpl.
  - reflexivity.
  - destruct (step t st) as [[st' evs]|] eqn:E; [|apply IH].
    specialize (IH st'). destruct (run sched st') as [st'' evs'].
    simpl in *. rewrite updates_app, <- app_assoc, IH.
    eapply step_pending. exact E.
Qed.

Lemma script_not_nil ts : script ts <> [].
Proof. unfold script. destruct ts; discriminate. Qed.

(** X9. In every interleaving, the changes made to the shared cell so far
    are a prefix of the trip's script: one [set_speed] per sample with
    the speed of the sample, in the order of the trip, then one [end()].
    Nothing of the script is left exactly when the producer has
    finished. *)
Theorem producer_follows_script time_speed sched :
  exists rest,
    script time_speed
    = updates (snd (run sched (start_dist time_speed))) ++ rest /\
    (replay (fst (run sched (start_dist time_speed))) = PDone <-> rest = []).
Proof.
  exists (pending (replay (fst (run sched (start_dist time_speed))))).
  split.
  - rewrite run_pending. reflexivity.
  - destruct (replay (fst (run sched (start_dist time_speed))))
      as [rest | v rest | ]; simpl.
    + split; [discriminate | intros H; elim (@script_not_nil rest H)].
    + split; discriminate.
    + tauto.
Qed.

(** *** A consumer that cannot raise *)

Lemma converts_float f : converts (PyFloat f).
Proof. reflexivity. Qed.

Lemma converts_to_float v :
  converts v -> exists f, Py.to_float v = Ok f.
Proof.
  unfold converts. destruct (Py.to_float v) as [f|ex]; [eauto | discriminate].
Qed.

Lemma mph_diff_converts speed old_speed :
  converts speed -> converts old_speed ->
  exists x, mph_diff speed old_speed = Ok x.
Proof.
  intros Hs Ho. unfold mph_diff, Py.sub.
  destruct (converts_to_float Hs) as [a Ha].
  destruct (converts_to_float Ho) as [b Hb].
  destruct speed as [z|f], old_speed as [z'|f'];
    try (eexists; reflexivity);
    rewrite ?Ha, ?Hb; simpl; rewrite ?Ha, ?Hb; simpl; eexists; reflexivity.
Qed.

Lemma kph_diff_converts speed old_speed :
  converts speed -> converts old_speed ->
  exists y, kph_diff speed old_speed = Ok y.
Proof.
  intros Hs Ho. unfold kph_diff, Py.truediv.
  destruct (converts_to_float Hs) as [a ->].
  destruct (converts_to_float Ho) as [b ->].
  cbn [bind]. rewrite ReplayFacts.kph_not_zero. cbn [bind Py.sub Py.to_float].
  eexists. reflexivity.
Qed.

Lemma step_sound t st st' evs :
  sound st -> step t st = Some (st', evs) -> sound st' /\ quiet evs.
Proof.
  intros (Hs & Hp & Hc). destruct t; unfold step.
  - destruct (replay st) as [[|[d v] rest] | v rest | ];
      try destruct (delay_returns (fst (d, v))); try discriminate;
      intros H; injection H as <- <-; unfold sound; simpl.
    + repeat split; auto. intros ex [H|[]]. discriminate.
    + inversion Hp; subst. repeat split; auto.
      intros ex [H|[]]. discriminate.
    + destruct Hp as [Hv Hr]. repeat split; auto.
      intros ex [H|[]]. discriminate.
  - destruct (parse st) as [o | o | o | | ex0]; try discriminate.
    + intros H. injection H as <- <-. unfold sound. simpl.
      repeat split; auto.
      * destruct (get_end (shared st)); auto.
      * intros ex [H|[]]. discriminate.
    + intros H. injection H as <- <-. unfold sound. simpl.
      repeat split; auto. intros ex [H|[]]. discriminate.
    + destruct (@mph_diff_converts (get_speed (shared st)) o Hs Hc) as [x ->].
      destruct (@kph_diff_converts (get_speed (shared st)) o Hs Hc) as [y ->].
      intros H. injection H as <- <-. unfold sound. simpl.
      repeat split; auto.
      intros ex [H|[H|[H|[]]]]; discriminate.
Qed.

Lemma run_sound sched : forall st,
  sound st -> sound (fst (run sched st)) /\ quiet (snd (run sched st)).
Proof.
  induction sched as [|t sched IH]; intros st Hs; simpl.
  - split; [exact Hs | intros ex []].
  - destruct (step t st) as [[st' evs]|] eqn:E; [|apply IH; exact Hs].
    destruct (@step_sound t st st' evs Hs E) as [Hs' Hq].
    destruct (IH st' Hs') as [Hs'' Hq'].
    destruct (run sched st') as [st'' evs']. simpl in *.
    split; [exact Hs''|].
    intros ex Hin. apply in_app_or in Hin.
    destruct Hin as [Hin|Hin]; [exact (Hq ex Hin) | exact (Hq' ex Hin)].
Qed.

(** X10. When every speed of the trip is a float, or an int that converts
    to float, the consumer never raises, in any interleaving: none of the
    two differences it computes fails. (An int speed too large for a
    float would make [speed - old_speed] raise [OverflowError].) *)
Theorem consumer_never_raises time_speed sched :
  Forall (fun speed => converts (snd speed)) time_speed ->
  (forall ex, ~ In (Raised ex) (snd (run sched (start_dist time_speed)))) /\
  (forall ex, parse (fst (run sched (start_dist time_speed))) <> CFailed ex).
Proof.
  intros Hall.
  assert (Hs : sound (start_dist time_speed)).
  { unfold sound. simpl. repeat split; auto. }
  destruct (@run_sound sched _ Hs) as [(_ & _ & Hc) Hq].
  split; [exact Hq|].
  intros ex Hf. rewrite Hf in Hc. exact Hc.
Qed.

(** The replay of 64.0 then 65.5. *)
Lemma consumer_never_raises_witness :
  (forall ex, ~ In (Raised ex) (snd (run in_step (start_dist speeding_up)))) /\
  (forall ex, parse (fst (run in_step (start_dist speeding_up))) <> CFailed ex).
Proof.
  apply (@consumer_never_raises speeding_up in_step).
  repeat constructor.
Defined.

(** *** The end of the two threads *)

Lemma turns_cons t t' sched :
  turns t (t' :: sched) =
  ((match t, t' with
    | T_replay, T_replay | T_parse, T_parse => 1
    | _, _ => 0
    end) + turns t sched)%nat.
Proof. unfold turns. simpl. destruct t, t'; reflexivity. Qed.

Lemma step_producer_turns t st st' evs :
  step t st = Some (st', evs) ->
  match t with
  | T_replay => (producer_turns (replay st) = producer_turns (replay st') + 1)%nat
  | T_parse => replay st' = replay st
  end.
Proof.
  destruct t; intros H.
  - unfold step in H.
    destruct (replay st) as [[|[d v] rest] | v rest | ];
      try destruct (delay_returns (fst (d, v))); try discriminate;
      injection H as <- <-; simpl; lia.
  - apply ReplayFacts.step_parse_keeps in H. tauto.
Qed.

(** While its delays return, the producer makes a step at each of its
    turns until it has finished. *)
Lemma step_replay_none st :
  delays_return (replay st) -> step T_replay st = None -> replay st = PDone.
Proof.
  unfold step, delays_return.
  destruct (replay st) as [[|[d v] rest] | v rest | ];
    try discriminate; [|reflexivity].
  intros Hr. inversion Hr as [|x l Hd Hrest]; subst.
  rewrite Hd. discriminate.
Qed.

Lemma step_delays_return t st st' evs :
  delays_return (replay st) -> step t st = Some (st', evs) ->
  delays_return (replay st').
Proof.
  intros Hr H. destruct t.
  - unfold step in H. unfold delays_return in *.
    destruct (replay st) as [[|[d v] rest] | v rest | ];
      try destruct (delay_returns (fst (d, v))); try discriminate;
      injection H as <- <-; simpl.
    + exact I.
    + inversion Hr; assumption.
    + exact Hr.
  - apply ReplayFacts.step_parse_keeps in H. destruct H as (_ & -> & _).
    exact Hr.
Qed.

Lemma producer_gets_done sched : forall st,
  delays_return (replay st) ->
  (producer_turns (replay st) <= turns T_replay sched)%nat ->
  replay (fst (run sched st)) = PDone.
Proof.
  induction sched as [|t sched IH]; intros st Hr Hn.
  - simpl in *. unfold turns in Hn. simpl in Hn.
    destruct (replay st) as [rest | v rest | ]; simpl in Hn;
      [lia | lia | reflexivity].
  - rewrite turns_cons in Hn. simpl.
    destruct (step t st) as [[st' evs]|] eqn:E.
    + pose proof (@step_producer_turns t st st' evs E) as Hstep.
      pose proof (@step_delays_return t st st' evs Hr E) as Hr'.
      specialize (IH st' Hr').
      destruct (run sched st') as [st'' evs']. simpl in *.
      apply IH. destruct t; [lia | rewrite Hstep; lia].
    + destruct t.
      * apply step_replay_none in E; [|exact Hr].
        apply IH; [exact Hr|]. rewrite E. simpl. lia.
      * apply IH; [exact Hr | lia].
Qed.

(** A producer held up by a delay stays held up. *)
Lemma step_held_up t st st' evs :
  held_up (replay st) -> step t st = Some (st', evs) ->
  held_up (replay st').
Proof.
  intros Hh H. destruct t.
  - unfold step in H. unfold held_up in *.
    destruct (replay st) as [[|[d v] rest] | v rest | ].
    + inversion Hh.
    + destruct (delay_returns (fst (d, v))) eqn:Hd; [|discriminate].
      injection H as <- <-. simpl.
      inversion Hh as [x l Hx | x l Hl]; subst; [congruence | exact Hl].
    + injection H as <- <-. exact Hh.
    + discriminate.
  - apply ReplayFacts.step_parse_keeps in H. destruct H as (_ & -> & _).
    exact Hh.
Qed.

Lemma run_held_up sched : forall st,
  held_up (replay st) -> held_up (replay (fst (run sched st))).
Proof.
  induction sched as [|t sched IH]; intros st Hh; simpl.
  - exact Hh.
  - destruct (step t st) as [[st' evs]|] eqn:E; [|apply IH; exact Hh].
    specialize (IH st' (@step_held_up t st st' evs Hh E)).
    destruct (run sched st') as [st'' evs']. exact IH.
Qed.

Lemma done_stays sched : forall st,
  replay st = PDone -> e (shared st) = false ->
  replay (fst (run sched st)) = PDone /\
  e (shared (fst (run sched st))) = false.
Proof.
  induction sched as [|t sched IH]; intros st Hd He; simpl.
  - auto.
  - destruct (step t st) as [[st' evs]|] eqn:E; [|apply IH; assumption].
    specialize (IH st').
    destruct (run sched st') as [st'' evs']. simpl in *.
    destruct t.
    + unfold step in E. rewrite Hd in E. discriminate.
    + apply ReplayFacts.step_parse_keeps in E. destruct E as (Hs & Hr & _).
      apply IH; congruence.
Qed.

Lemma consumer_leaves sched : forall st,
  replay st = PDone -> e (shared st) = false ->
  (consumer_turns (parse st) <= turns T_parse sched)%nat ->
  ended (parse (fst (run sched st))) = true.
Proof.
  induction sched as [|t sched IH]; intros st Hd He Hn.
  - simpl in *. unfold turns in Hn. simpl in Hn.
    destruct (parse st); simpl in *; try lia; reflexivity.
  - rewrite turns_cons in Hn. simpl.
    destruct (step t st) as [[st' evs]|] eqn:E.
    + specialize (IH st').
      destruct (run sched st') as [st'' evs'] eqn:Er. simpl in *.
      destruct t.
      * unfold step in E. rewrite Hd in E. discriminate.
      * pose proof (@ReplayFacts.step_parse_keeps st st' evs E) as (Hs & Hr & _).
        apply IH; [congruence | congruence |].
        unfold step in E.
        destruct (parse st) as [o | o | o | | ex]; try discriminate.
        -- injection E as <- <-. unfold get_end. rewrite He. simpl. lia.
        -- injection E as <- <-. simpl in *. lia.
        -- destruct (mph_diff (get_speed (shared st)) o) as [x|ex];
             [destruct (kph_diff (get_speed (shared st)) o) as [y|ex]|];
             injection E as <- <-; simpl in *; lia.
    + destruct t.
      * apply IH; auto.
      * unfold step in E.
        destruct (parse st) as [o | o | o | | ex] eqn:Ep; try discriminate.
        -- destruct (mph_diff (get_speed (shared st)) o) as [x|ex];
             [destruct (kph_diff (get_speed (shared st)) o) as [y|ex]|];
             discriminate.
        -- apply IH; auto. rewrite Ep. simpl. lia.
        -- apply IH; auto. rewrite Ep. simpl. lia.
Qed.


Lemma step_done_after_end t st st' evs :
  (parse st = CDone -> e (shared st) = false) ->
  step t st = Some (st', evs) ->
  (parse st' = CDone -> e (shared st') = false).
Proof.
  intros Hk. destruct t; unfold step.
  - destruct (replay st) as [[|[d v] rest] | v rest | ];
      try destruct (delay_returns (fst (d, v))); try discriminate;
      intros H; injection H as <- <-; simpl; auto.
  - destruct (parse st) as [o | o | o | | ex]; try discriminate.
    + intros H. injection H as <- <-. simpl. unfold get_end.
      destruct (e (shared st)); [discriminate | reflexivity].
    + intros H. injection H as <- <-. discriminate.
    + destruct (mph_diff (get_speed (shared st)) o) as [x|ex];
        [destruct (kph_diff (get_speed (shared st)) o) as [y|ex]|];
        intros H; injection H as <- <-; discriminate.
Qed.

Lemma run_done_after_end sched : forall st,
  (parse st = CDone -> e (shared st) = false) ->
  (parse (fst (run sched st)) = CDone -> e (shared (fst (run sched st))) = false).
Proof.
  induction sched as [|t sched IH]; intros st Hk; simpl.
  - exact Hk.
  - destruct (step t st) as [[st' evs]|] eqn:E; [|apply IH; exact Hk].
    specialize (IH st' (@step_done_after_end t st st' evs Hk E)).
    destruct (run sched st') as [st'' evs']. exact IH.
Qed.

Lemma ended_producer time_speed st :
  producer_inv time_speed st -> e (shared st) = false -> replay st = PDone.
Proof.
  unfold producer_inv.
  destruct (replay st) as [rest | v rest | ]; [| | reflexivity];
    intros [He _] Hf; congruence.
Qed.

(** X11. The consumer leaves its loop by the end flag only after the
    producer has finished. When every delay of the trip returns (no
    delta is an int too large for a float, none makes the wait [+inf]),
    both threads do end: once the schedule has given the producer two
    turns per sample and one more, and the consumer three turns after
    that (one polling iteration), the producer has finished and the
    consumer has left its loop. When a delay of the trip does not
    return, the producer never finishes: the end flag stays set and the
    consumer never leaves its loop by it, in any interleaving. *)
Theorem pipeline_ends time_speed :
  (forall sched,
     parse (fst (run sched (start_dist time_speed))) = CDone ->
     replay (fst (run sched (start_dist time_speed))) = PDone) /\
  (Forall (fun speed => delay_returns (fst speed) = true) time_speed ->
   forall s1 s2,
     (2 * List.length time_speed + 1 <= turns T_replay s1)%nat ->
     (3 <= turns T_parse s2)%nat ->
     replay (fst (run (s1 ++ s2) (start_dist time_speed))) = PDone /\
     ended (parse (fst (run (s1 ++ s2) (start_dist time_speed)))) = true) /\
  (Exists (fun speed => delay_returns (fst speed) = false) time_speed ->
   forall sched,
     replay (fst (run sched (start_dist time_speed))) <> PDone /\
     get_end (shared (fst (run sched (start_dist time_speed)))) = true /\
     parse (fst (run sched (start_dist time_speed))) <> CDone).
Proof.
  assert (Hsafe : forall sched,
     parse (fst (run sched (start_dist time_speed))) = CDone ->
     replay (fst (run sched (start_dist time_speed))) = PDone).
  { intros sched Hd.
    apply (@ended_producer time_speed).
    + apply ReplayFacts.run_inv. apply ReplayFacts.producer_inv_start.
    + apply run_done_after_end; [discriminate | exact Hd]. }
  split; [exact Hsafe|]. split.
  - intros Hr s1 s2 H1 H2. rewrite run_app. cbn [fst].
    set (st1 := fst (run s1 (start_dist time_speed))).
    assert (Hd : replay st1 = PDone)
      by (apply producer_gets_done; [exact Hr | exact H1]).
    assert (He : e (shared st1) = false).
    { pose proof (@ReplayFacts.run_inv time_speed s1 _
                    (ReplayFacts.producer_inv_start time_speed)) as Hinv.
      fold st1 in Hinv. unfold producer_inv in Hinv. rewrite Hd in Hinv.
      tauto. }
    split.
    + apply done_stays; assumption.
    + apply consumer_leaves; [assumption | assumption |].
      destruct (parse st1); simpl; lia.
  - intros Hh sched.
    pose proof (@run_held_up sched (start_dist time_speed) Hh) as Hheld.
    pose proof (@ReplayFacts.run_inv time_speed sched _
                  (ReplayFacts.producer_inv_start time_speed)) as Hinv.
    assert (Hn : replay (fst (run sched (start_dist time_speed))) <> PDone).
    { intros Hd. rewrite Hd in Hheld. exact Hheld. }
    split; [exact Hn|]. split.
    + unfold producer_inv, get_end in *.
      destruct (replay (fst (run sched (start_dist time_speed))))
        as [rest | v rest | ]; [tauto | tauto | congruence].
    + intros Hc. exact (Hn (Hsafe sched Hc)).
Qed.

(** Two samples: five producer turns, mixed with consumer turns, then
    three consumer turns. And a trip whose first delta is [10**400]: the
    producer is still at the head of its loop, whatever turns it gets. *)
Lemma pipeline_ends_witness :
  (replay (fst (run ([T_replay; T_parse; T_replay; T_replay; T_parse;
                      T_replay; T_replay] ++ [T_parse; T_parse; T_parse])
                    (start_dist two_samples))) = PDone /\
   ended (parse (fst (run ([T_replay; T_parse; T_replay; T_replay; T_parse;
                            T_replay; T_replay] ++ [T_parse; T_parse; T_parse])
                          (start_dist two_samples)))) = true) /\
  PyArith.truediv (PyInt (10 ^ 400)) (PyInt 1000) = Raise OverflowError /\
  replay (fst (run [T_replay; T_parse; T_replay; T_replay; T_parse; T_parse]
                   (start_dist overlong))) = PLoop overlong /\
  get_end (shared (fst (run [T_replay; T_parse; T_replay; T_replay; T_parse;
                             T_parse] (start_dist overlong)))) = true.
Proof.
  split.
  - apply (proj1 (proj2 (pipeline_ends two_samples))).
    + repeat constructor.
    + vm_compute; lia.
    + vm_compute; lia.
  - split; [vm_compute; reflexivity|].
    split; [vm_compute; reflexivity|].
    apply (proj2 (proj2 (pipeline_ends overlong))).
    apply Exists_cons_hd. vm_compute. reflexivity.
Defined.

(** *** What the consumer can read *)

Lemma reads_app tr1 tr2 : reads (tr1 ++ tr2) = reads tr1 ++ reads tr2.
Proof.
  induction tr1 as [|ev tr1 IH]; [reflexivity|].
  destruct ev; simpl; rewrite IH; reflexivity.
Qed.

Lemma step_in_order t st st' evs rs :
  step t st = Some (st', evs) -> in_order rs (ahead st') ->
  in_order (reads evs ++ rs) (ahead st).
Proof.
  destruct t; unfold step, ahead.
  - destruct (replay st) as [[|[d v] rest] | v rest | ];
      try destruct (delay_returns (fst (d, v))); try discriminate;
      intros H; injection H as <- <-; simpl; intros Hr.
    + exact Hr.
    + exact Hr.
    + apply in_order_skip. exact Hr.
  - destruct (parse st) as [o | o | o | | ex]; try discriminate.
    + intros H. injection H as <- <-. simpl. auto.
    + intros H. injection H as <- <-. simpl. auto.
    + destruct (mph_diff (get_speed (shared st)) o) as [x|ex];
        [destruct (kph_diff (get_speed (shared st)) o) as [y|ex]|];
        intros H; injection H as <- <-; simpl; intros Hr;
        apply in_order_stay; exact Hr.
Qed.

Lemma run_in_order sched : forall st,
  in_order (reads (snd (run sched st))) (ahead st).
Proof.
  induction sched as [|t sched IH]; intros st; simpl.
  - constructor.
  - destruct (step t st) as [[st' evs]|] eqn:E; [|apply IH].
    specialize (IH st').
    destruct (run sched st') as [st'' evs']. simpl in *.
    rewrite reads_app. eapply step_in_order; eassumption.
Qed.

(** X12. In every interleaving, the speeds the consumer reads follow the
    trip: read off the list made of the initial [0.0] and the speeds of
    the samples, from left to right, a speed possibly read several
    times and speeds possibly missed, but never one that comes earlier
    in the trip after one that comes later, and never a value that is
    not in the list. *)
Theorem reads_follow_the_trip time_speed sched :
  in_order (reads (snd (run sched (start_dist time_speed))))
           (PyFloat 0 :: map snd time_speed).
Proof. apply (run_in_order sched (start_dist time_speed)). Qed.

End PipelineFacts.

(* ------------------------------------------------------------------ *)
(** ** How far rounding can move a number

    The rounding of [SpecFloat] cuts the mantissa to its precision and
    then moves it up by at most one unit: the result is never below the
    cut mantissa, and its exponent is bounded by the magnitude of the
    number. This is all that the arithmetic of [replay_trip] needs. *)

Lemma shr_1_m (mrs : shr_record) :
  0 <= shr_m mrs -> shr_m (shr_1 mrs) = shr_m mrs / 2.
Proof.
  destruct mrs as [m r s]. cbn [shr_m]. intros Hm.
  destruct m as [|[p|p|]|p]; cbn [shr_1 shr_m]; try lia; try reflexivity.
  - change (Z.pos p~1) with (2 * Z.pos p + 1).
    apply Z.div_unique with (r := 1); lia.
  - change (Z.pos p~0) with (2 * Z.pos p).
    apply Z.div_unique with (r := 0); lia.
Qed.

Lemma shr_iter_m (n : positive) : forall mrs,
  0 <= shr_m mrs ->
  shr_m (SpecFloat.iter_pos shr_1 n mrs) = shr_m mrs / 2 ^ Z.pos n.
Proof.
  intros mrs Hm. rewrite iter_pos_iter.
  induction n as [|n IH] using Pos.peano_ind.
  - simpl Pos.iter. rewrite shr_1_m by exact Hm. reflexivity.
  - rewrite Pos.iter_succ.
    assert (Hge : 0 <= shr_m (Pos.iter shr_1 mrs n)).
    { rewrite IH. apply Z.div_pos; [exact Hm|].
      apply Z.pow_pos_nonneg; lia. }
    rewrite shr_1_m by exact Hge. rewrite IH.
    rewrite Pos2Z.inj_succ, Z.pow_succ_r by lia.
    rewrite Z.div_div by (try apply Z.pow_pos_nonneg; lia).
    f_equal. lia.
Qed.

(** A shift divides the mantissa by a power of two and adds as much to
    the exponent. *)
Lemma shr_spec (mrs : shr_record) (e n : Z) :
  0 <= shr_m mrs ->
  shr_m (fst (shr mrs e n)) = shr_m mrs / 2 ^ Z.max 0 n /\
  snd (shr mrs e n) = e + Z.max 0 n.
Proof.
  intros Hm. unfold shr. destruct n as [|p|p]; cbn [fst snd].
  - simpl. rewrite Z.div_1_r. lia.
  - rewrite shr_iter_m by exact Hm.
    rewrite Z.max_r by lia. auto.
  - rewrite Z.max_l by lia. simpl. rewrite Z.div_1_r. lia.
Qed.

Lemma shr_record_of_loc_m m l : shr_m (shr_record_of_loc m l) = m.
Proof. destruct l as [|[| |]]; reflexivity. Qed.

Lemma round_nearest_even_bounds m l :
  m <= round_nearest_even m l <= m + 1.
Proof.
  unfold round_nearest_even.
  destruct l as [|[| |]]; try lia.
  destruct (Z.even m); lia.
Qed.

Lemma fexp_le x y : x <= y -> fexp prec emax x <= fexp prec emax y.
Proof. unfold fexp. lia. Qed.

Lemma fexp_emin x : SpecFloat.emin prec emax <= fexp prec emax x.
Proof. unfold fexp. lia. Qed.

Lemma Zdigits2_bound (m n : Z) :
  0 <= m -> 0 <= n -> m < 2 ^ n -> Zdigits2 m <= n.
Proof.
  intros Hm Hn Hlt. destruct m as [|p|p]; simpl; [lia | | lia].
  apply digits_bound; assumption.
Qed.

Lemma Zdigits2_gt (m : Z) : 0 <= m -> m < 2 ^ Zdigits2 m.
Proof.
  intros Hm. destruct m as [|p|p]; simpl; [lia | | lia].
  apply digits_gt.
Qed.

Lemma Zdigits2_nonneg (m : Z) : 0 <= Zdigits2 m.
Proof. destruct m; simpl; lia. Qed.

(** The result of rounding a positive mantissa: its mantissa is at
    least the mantissa given, cut at the new exponent, and the new
    exponent is bounded by the magnitude of the number. *)
Lemma binary_round_aux_result sx (m e : Z) l :
  0 < m ->
  exists m2 e2,
    0 <= m2 /\ e <= e2 /\
    e2 <= Z.max e (fexp prec emax (Zdigits2 m + e + 1)) /\
    m / 2 ^ (e2 - e) <= m2 /\
    binary_round_aux prec emax sx m e l =
      match m2 with
      | 0 => S754_zero sx
      | Z.pos p =>
          if e2 <=? emax - prec then S754_finite sx p e2
          else S754_infinity sx
      | Z.neg _ => S754_nan
      end.
Proof.
  intros Hm. unfold binary_round_aux, shr_fexp.
  set (k1 := fexp prec emax (Zdigits2 m + e) - e).
  pose proof (@shr_spec (shr_record_of_loc m l) e k1) as H1.
  rewrite shr_record_of_loc_m in H1. specialize (H1 ltac:(lia)).
  destruct (shr (shr_record_of_loc m l) e k1) as [mrs1 e1].
  cbn [fst snd] in H1. destruct H1 as [Hm1 He1].
  set (m1' := round_nearest_even (shr_m mrs1) (loc_of_shr_record mrs1)).
  pose proof (round_nearest_even_bounds (shr_m mrs1) (loc_of_shr_record mrs1))
    as Hr. fold m1' in Hr.
  assert (Hp1 : 0 < 2 ^ Z.max 0 k1) by (apply Z.pow_pos_nonneg; lia).
  assert (Hm1ge : 0 <= shr_m mrs1)
    by (rewrite Hm1; apply Z.div_pos; lia).
  set (k2 := fexp prec emax (Zdigits2 m1' + e1) - e1).
  pose proof (@shr_spec (shr_record_of_loc m1' loc_Exact) e1 k2) as H2.
  rewrite shr_record_of_loc_m in H2. specialize (H2 ltac:(lia)).
  destruct (shr (shr_record_of_loc m1' loc_Exact) e1 k2) as [mrs2 e2].
  cbn [fst snd] in H2. destruct H2 as [Hm2 He2].
  assert (Hp2 : 0 < 2 ^ Z.max 0 k2) by (apply Z.pow_pos_nonneg; lia).
  exists (shr_m mrs2), e2.
  assert (Hm2ge : 0 <= shr_m mrs2)
    by (rewrite Hm2; apply Z.div_pos; lia).
  split; [exact Hm2ge|]. split; [lia|]. split; [|split; [|reflexivity]].
  - (* the exponent *)
    pose proof (Zdigits2_gt (m := m) ltac:(lia)) as Hd.
    pose proof (Zdigits2_nonneg m) as Hd0.
    set (d := Zdigits2 m) in *.
    pose proof (@fexp_le (d + e) (d + e + 1) ltac:(lia)) as Hmono.
    pose proof (fexp_emin (d + e + 1)) as Hmin.
    assert (He1' : e1 <= Z.max e (fexp prec emax (d + e + 1)))
      by (unfold k1 in *; lia).
    destruct (Z.max_spec 0 k2) as [[Hk2 Hmax]|[Hk2 Hmax]];
      rewrite Hmax in *; [|lia].
    (* a second shift: the exponent is set by the digits of [m1'] *)
    assert (He2' : e2 = fexp prec emax (Zdigits2 m1' + e1))
      by (unfold k2 in *; lia).
    rewrite He2'.
    destruct (Z.le_gt_cases (Z.max 0 k1) d) as [Hk|Hk].
    + assert (Hlt : m1' < 2 ^ (d - Z.max 0 k1 + 1)).
      { assert (shr_m mrs1 < 2 ^ (d - Z.max 0 k1)).
        { rewrite Hm1. apply Z.div_lt_upper_bound; [lia|].
          rewrite <- Z.pow_add_r by lia.
          replace (Z.max 0 k1 + (d - Z.max 0 k1)) with d by lia. exact Hd. }
        rewrite Z.pow_add_r, Z.pow_1_r by lia. lia. }
      pose proof (@Zdigits2_bound m1' (d - Z.max 0 k1 + 1)
                    ltac:(lia) ltac:(lia) Hlt) as Hd'.
      pose proof (@fexp_le (Zdigits2 m1' + e1) (d + e + 1) ltac:(lia)).
      lia.
    + (* everything has been shifted out *)
      assert (Hz : shr_m mrs1 = 0).
      { rewrite Hm1. apply Z.div_small. split; [lia|].
        eapply Z.lt_le_trans; [exact Hd|].
        apply Z.pow_le_mono_r; lia. }
      assert (Hlt : m1' < 2 ^ 1) by (simpl; lia).
      pose proof (@Zdigits2_bound m1' 1 ltac:(lia) ltac:(lia) Hlt) as Hd'.
      assert (He1min : e1 = SpecFloat.emin prec emax).
      { unfold k1, fexp, SpecFloat.emin, prec, emax in *. lia. }
      unfold fexp in *. unfold prec, emax, SpecFloat.emin in *. lia.
  - (* the mantissa *)
    rewrite Hm2.
    replace (e2 - e) with (Z.max 0 k1 + Z.max 0 k2) by lia.
    rewrite Z.pow_add_r by lia.
    rewrite <- Z.div_div by lia.
    rewrite <- Hm1.
    apply Z.div_le_mono; lia.
Qed.
(** When the magnitude leaves room, the result of rounding is a zero or
    a finite number. *)
Lemma binary_round_aux_finite sx (m e : Z) l :
  0 < m ->
  Z.max e (fexp prec emax (Zdigits2 m + e + 1)) <= emax - prec ->
  binary_round_aux prec emax sx m e l = S754_zero sx \/
  exists p e2,
    binary_round_aux prec emax sx m e l = S754_finite sx p e2 /\
    e <= e2 <= Z.max e (fexp prec emax (Zdigits2 m + e + 1)) /\
    m / 2 ^ (e2 - e) <= Z.pos p.
Proof.
  intros Hm Hb.
  destruct (@binary_round_aux_result sx m e l Hm)
    as (m2 & e2 & H0 & He & He' & Hm2 & ->).
  destruct m2 as [|p|p]; [left; reflexivity | | lia].
  right. exists p, e2.
  replace (e2 <=? emax - prec) with true by (symmetry; apply Z.leb_le; lia).
  auto.
Qed.

(** An int below [2^53] as a float: a mantissa of 53 bits and the
    exponent that goes with it. *)
Lemma float_of_small_int (p : positive) :
  Z.pos p < 2 ^ prec ->
  exists m e,
    Py.float_of_int (Z.pos p) = Ok (SF2Prim (S754_finite false m e)) /\
    Prim2SF (SF2Prim (S754_finite false m e)) = S754_finite false m e /\
    Z.pos m = Z.pos p * 2 ^ (- e) /\ -52 <= e <= 0 /\
    Z.pos (digits2_pos m) = prec.
Proof.
  intros Hp.
  assert (Hd : Z.pos (digits2_pos p) <= prec)
    by (apply digits_bound; [unfold prec; lia | exact Hp]).
  destruct (round_small false p Hd) as (m & e & Hr & Hv & He & Hm).
  exists m, e.
  assert (Hdm : Z.pos (digits2_pos m) = prec).
  { pose proof Hv as Hb. simpl in Hb. unfold bounded in Hb.
    apply andb_true_iff in Hb. destruct Hb as [Hc _].
    unfold canonical_mantissa in Hc. apply Z.eqb_eq in Hc.
    pose proof (digits_gt m) as Hgt. rewrite Hm in Hgt.
    assert (Hpow : 2 ^ (- e) < 2 ^ Z.pos (digits2_pos m)).
    { eapply Z.le_lt_trans; [|exact Hgt].
      assert (0 < 2 ^ (- e)) by (apply Z.pow_pos_nonneg; lia). nia. }
    apply Z.pow_lt_mono_r_iff in Hpow; [|lia|lia].
    unfold fexp, SpecFloat.emin, prec, emax in *. lia. }
  split; [|split; [|split; [|split]]].
  - unfold Py.float_of_int. simpl binary_normalize. rewrite Hr. reflexivity.
  - apply Prim2SF_SF2Prim. exact Hv.
  - exact Hm.
  - split; [|exact He].
    pose proof (digits_gt m) as Hgt. rewrite Hdm, Hm in Hgt.
    assert (Hpow : 2 ^ (- e) < 2 ^ prec).
    { eapply Z.le_lt_trans; [|exact Hgt]. nia. }
    apply Z.pow_lt_mono_r_iff in Hpow; [|lia|unfold prec; lia].
    unfold prec in *. lia.
  - exact Hdm.
Qed.

(** The quotient of two floats with full mantissas, before rounding. *)
Lemma SFdiv_normal (ma mb : positive) (ea eb : Z) :
  Z.pos (digits2_pos ma) = prec -> Z.pos (digits2_pos mb) = prec ->
  -1000 <= ea - eb ->
  SFdiv prec emax (S754_finite false ma ea) (S754_finite false mb eb) =
  binary_round_aux prec emax false
    ((Z.pos ma * 2 ^ 53) / Z.pos mb) (ea - eb - 53)
    (new_location (Z.pos mb) ((Z.pos ma * 2 ^ 53) mod Z.pos mb)).
Proof.
  intros Ha Hb He. unfold SFdiv, SFdiv_core_binary.
  change (Zdigits2 (Z.pos ma)) with (Z.pos (digits2_pos ma)).
  change (Zdigits2 (Z.pos mb)) with (Z.pos (digits2_pos mb)).
  rewrite Ha, Hb.
  replace (Z.min (fexp prec emax (prec + ea - (prec + eb))) (ea - eb))
    with (ea - eb - 53)
    by (unfold fexp, SpecFloat.emin, prec, emax; lia).
  replace (ea - eb - (ea - eb - 53)) with 53 by lia.
  rewrite Z.shiftl_mul_pow2 by lia.
  unfold Z.div, Z.modulo.
  destruct (Z.div_eucl (Z.pos ma * 2 ^ 53) (Z.pos mb)) as [q r].
  reflexivity.
Qed.

Lemma valid_mantissa_lt (s : bool) (p : positive) (e : Z) :
  SpecFloat.valid_binary prec emax (S754_finite s p e) = true ->
  Z.pos p < 2 ^ 53.
Proof.
  intros Hb. cbn [SpecFloat.valid_binary] in Hb. unfold bounded in Hb.
  apply andb_true_iff in Hb. destruct Hb as [Hc _].
  unfold canonical_mantissa in Hc. apply Z.eqb_eq in Hc.
  pose proof (digits_gt p) as Hgt.
  eapply Z.lt_le_trans; [exact Hgt|].
  apply Z.pow_le_mono_r; [lia|].
  unfold fexp, SpecFloat.emin, prec, emax in Hc. lia.
Qed.

(* ------------------------------------------------------------------ *)
(** ** [start_Measurement]: what it does to the application *)

Module MeasurementFacts.
Import CANoe.

Section Application.

Variable application : Type.
Variable Running : application -> bool.
Variable Start : application -> application.
Variable sleep : Z -> application -> application.

Let attempt (a : application) : application := sleep 1 (Start a).

Lemma start_loop_attempts fuel : forall app retry,
  0 <= retry -> retry + Z.of_nat fuel = retry_counter ->
  exists k : nat,
    (k <= fuel)%nat /\
    start_loop Running Start sleep fuel app retry
      = (Nat.iter k attempt app, retry + Z.of_nat k) /\
    (forall j, (j < k)%nat -> Running (Nat.iter j attempt app) = false) /\
    ((k < fuel)%nat -> Running (Nat.iter k attempt app) = true).
Proof.
  induction fuel as [|fuel IH]; intros app retry H0 Hf.
  - exists 0%nat. simpl. rewrite Z.add_0_r.
    repeat split; auto; intros; lia.
  - cbn [start_loop].
    destruct (Running app) eqn:Er; cbn [negb andb].
    + exists 0%nat. simpl. rewrite Z.add_0_r.
      repeat split; auto; intros; lia.
    + replace (retry <? retry_counter) with true
        by (symmetry; apply Z.ltb_lt; lia).
      destruct (IH (sleep 1 (Start app)) (retry + 1)) as (k & Hk & E & Hno & Hyes);
        [lia | lia |].
      exists (S k). split; [lia|]. split; [|split].
      * rewrite E, Nat.iter_succ_r. f_equal. lia.
      * intros [|j] Hj; [exact Er|].
        rewrite Nat.iter_succ_r. apply Hno. lia.
      * intros Hlt. rewrite Nat.iter_succ_r. apply Hyes. lia.
Qed.

(** X13. What [start_Measurement] does, for any application: it makes
    [k <= 5] attempts ([Start()] then a sleep of 1 s), where [k] is the
    number of reads of [Running] that said no before the first one that
    said yes, capped at 5. With fewer than five attempts it returns
    normally and the measurement is running; with five it raises. In
    particular it does nothing to a measurement that is already
    running. *)
Theorem start_Measurement_attempts app :
  exists k : nat,
    (k <= 5)%nat /\
    fst (start_Measurement Running Start sleep app)
      = Nat.iter k (fun a => sleep 1 (Start a)) app /\
    (forall j, (j < k)%nat ->
       Running (Nat.iter j (fun a => sleep 1 (Start a)) app) = false) /\
    ((k < 5)%nat ->
       Running (fst (start_Measurement Running Start sleep app)) = true /\
       snd (start_Measurement Running Start sleep app) = Ok tt) /\
    (k = 5%nat ->
       snd (start_Measurement Running Start sleep app) = Raise RuntimeWarning).
Proof.
  destruct (@start_loop_attempts (Z.to_nat retry_counter) app 0)
    as (k & Hk & E & Hno & Hyes); [lia | reflexivity |].
  change (Z.to_nat retry_counter) with 5%nat in *.
  exists k. unfold start_Measurement.
  change (Z.to_nat retry_counter) with 5%nat. rewrite E.
  cbn [fst snd]. fold attempt.
  split; [exact Hk|]. split; [|split; [exact Hno|split]].
  - destruct (0 + Z.of_nat k =? retry_counter); reflexivity.
  - intros Hlt.
    replace (0 + Z.of_nat k =? retry_counter) with false
      by (symmetry; apply Z.eqb_neq; unfold retry_counter; lia).
    cbn [fst snd]. split; [apply Hyes; exact Hlt | reflexivity].
  - intros ->. reflexivity.
Qed.

End Application.

End MeasurementFacts.

(* ------------------------------------------------------------------ *)
(** ** [replay_trip] *)

Module TripFacts.
Import Trip.

(** [int(length / 100)] is 0 for every length below 100. *)
Lemma per_of_short_trip (n : nat) :
  (n < 100)%nat ->
  (q <- PyArith.truediv (PyInt (Z.of_nat n)) (PyInt 100) ;;
   PyArith.int_ (PyFloat q)) = Ok 0.
Proof.
  intros Hn.
  assert (Hall : forallb
            (fun n => match (q <- PyArith.truediv (PyInt (Z.of_nat n))
                                                  (PyInt 100) ;;
                             PyArith.int_ (PyFloat q)) with
                      | Ok 0 => true
                      | _ => false
                      end) (seq 0 100) = true)
    by (vm_compute; reflexivity).
  rewrite forallb_forall in Hall.
  specialize (Hall n). rewrite in_seq in Hall.
  specialize (Hall ltac:(lia)).
  destruct (q <- PyArith.truediv (PyInt (Z.of_nat n)) (PyInt 100) ;;
            PyArith.int_ (PyFloat q))
    as [[| |]|]; try discriminate. reflexivity.
Qed.

Lemma float_of_100 : Py.float_of_int 100 = Ok 100%float.
Proof. vm_compute. reflexivity. Qed.

Lemma Prim2SF_100 :
  Prim2SF 100 = S754_finite false 7036874417766400 (-46).
Proof. vm_compute. reflexivity. Qed.

Lemma int_of_finite (x : PrimFloat.float) :
  match Prim2SF x with
  | S754_zero _ | S754_finite _ _ _ => True
  | _ => False
  end ->
  exists z, Py.int_of_float x = Ok z.
Proof.
  unfold Py.int_of_float. destruct (Prim2SF x); intros H;
    try contradiction; eauto.
Qed.

(** [int(length / 100)] is at least 1 from 100 samples on. *)
Lemma per_of_long_trip (n : Z) :
  100 <= n < 2 ^ 53 ->
  exists per,
    (q <- PyArith.truediv (PyInt n) (PyInt 100) ;; PyArith.int_ (PyFloat q))
    = Ok per /\ 1 <= per.
Proof.
  intros [Hlo Hhi].
  destruct n as [|p|p]; try lia.
  destruct (@float_of_small_int p Hhi) as (m & e & Hf & Hprim & Hm & He & Hd).
  unfold PyArith.truediv, PyArith.int_truediv.
  change (100 =? 0) with false. cbv iota.
  replace (Z.abs (Z.pos p) <? 2 ^ 53) with true
    by (symmetry; apply Z.ltb_lt; exact Hhi).
  change (Z.abs 100 <? 2 ^ 53) with true. cbn [andb].
  rewrite Hf, float_of_100. cbn [bind PyArith.int_].
  unfold Py.int_of_float. rewrite div_spec, Hprim, Prim2SF_100.
  unfold SF64div.
  rewrite SFdiv_normal; [| exact Hd | reflexivity | lia].
  set (q0 := Z.pos m * 2 ^ 53 / 7036874417766400).
  set (e0 := e - -46 - 53).
  set (l := new_location _ _).
  assert (Hq0 : q0 = Z.pos m * 2 ^ 7 / 100).
  { unfold q0. change 7036874417766400 with (100 * 2 ^ 46).
    change (2 ^ 53) with (2 ^ 7 * 2 ^ 46).
    rewrite Z.mul_assoc, Z.div_mul_cancel_r by lia. reflexivity. }
  assert (Hpe : 0 < 2 ^ (- e)) by (apply Z.pow_pos_nonneg; lia).
  assert (Hlow : 2 ^ (- e0) <= q0).
  { rewrite Hq0. unfold e0.
    replace (- (e - -46 - 53)) with (7 + - e) by lia.
    rewrite Z.pow_add_r by lia.
    apply Z.div_le_lower_bound; [lia|]. rewrite Hm. nia. }
  assert (Hmlt : Z.pos m < 2 ^ 53).
  { pose proof (digits_gt m) as Hgt. rewrite Hd in Hgt. exact Hgt. }
  assert (Hup : q0 < 2 ^ 54).
  { rewrite Hq0. apply Z.div_lt_upper_bound; [lia|].
    change (2 ^ 54) with (2 * 2 ^ 53). change (2 ^ 7) with 128. lia. }
  assert (Hq0pos : 0 < q0).
  { eapply Z.lt_le_trans; [|exact Hlow]. apply Z.pow_pos_nonneg; lia. }
  pose proof (@Zdigits2_bound q0 54 ltac:(lia) ltac:(lia) Hup) as Hdq.
  assert (Hfexp : fexp prec emax (Zdigits2 q0 + e0 + 1) <= -5).
  { unfold fexp, SpecFloat.emin, prec, emax, e0. lia. }
  destruct (@binary_round_aux_finite false q0 e0 l Hq0pos)
    as [Hz | (p2 & e2 & Hr & [He2 He2'] & Hm2)].
  { unfold prec, emax, e0 in *. lia. }
  - (* not a zero: the mantissa is at least 2^5 *)
    exfalso.
    destruct (@binary_round_aux_result false q0 e0 l Hq0pos)
      as (m2 & e2 & H0 & He2 & He2' & Hm2 & Hr).
    rewrite Hr in Hz.
    assert (Hm2pos : 0 < m2).
    { eapply Z.lt_le_trans; [|exact Hm2].
      apply Z.div_str_pos. split; [apply Z.pow_pos_nonneg; lia|].
      eapply Z.le_trans; [|exact Hlow].
      apply Z.pow_le_mono_r; unfold e0 in *; lia. }
    destruct m2 as [|p2|p2]; try lia.
    destruct (e2 <=? emax - prec); discriminate.
  - rewrite Hr. eexists. split; [reflexivity|].
    assert (He2neg : e2 <= -5) by lia.
    assert (Hge : 2 ^ (- e2) <= Z.pos p2).
    { eapply Z.le_trans; [|exact Hm2].
      apply Z.div_le_lower_bound; [apply Z.pow_pos_nonneg; lia|].
      rewrite <- Z.pow_add_r by lia.
      replace (e2 - e0 + - e2) with (- e0) by lia. exact Hlow. }
    replace e2 with (- (- e2)) by lia.
    rewrite Z.shiftl_opp_r, Z.shiftr_div_pow2 by lia.
    apply Z.div_le_lower_bound; [apply Z.pow_pos_nonneg; lia | lia].
Qed.

(** A finite float of small exponent times 100 is finite. *)
Lemma times_100_finite (x : PrimFloat.float) :
  match Prim2SF x with
  | S754_zero _ => True
  | S754_finite _ _ e => e <= 53
  | _ => False
  end ->
  exists z, Py.int_of_float (x * 100) = Ok z.
Proof.
  intros Hx. apply int_of_finite. rewrite mul_spec, Prim2SF_100.
  pose proof (Prim2SF_valid x) as Hv.
  unfold SF64mul.
  destruct (Prim2SF x) as [s | s | | s p e]; try contradiction.
  - exact I.
  - cbn [SFmul].
    pose proof (@valid_mantissa_lt s p e Hv) as Hp.
    set (m := Z.pos (p * 7036874417766400)).
    assert (Hm : 0 < m) by (unfold m; lia).
    assert (Hlt : m < 2 ^ 106).
    { unfold m. rewrite Pos2Z.inj_mul.
      change (2 ^ 106) with (2 ^ 53 * 2 ^ 53).
      assert (7036874417766400 < 2 ^ 53) by (vm_compute; reflexivity).
      nia. }
    pose proof (@Zdigits2_bound m 106 ltac:(lia) ltac:(lia) Hlt) as Hd.
    destruct (@binary_round_aux_finite (xorb s false) m (e + -46) loc_Exact Hm)
      as [-> | (p3 & e3 & -> & _)]; [|exact I|exact I].
    unfold fexp, SpecFloat.emin, prec, emax. lia.
Qed.

(** The progress text can always be computed inside the loop. *)
Lemma progress_ok (i n : Z) :
  0 <= i < n -> n < 2 ^ 53 -> exists text, progress i n = Ok text.
Proof.
  intros [Hi Hin] Hn. unfold Trip.progress.
  assert (Hq : exists q,
             PyArith.truediv (PyInt i) (PyInt n) = Ok q /\
             match Prim2SF q with
             | S754_zero _ => True
             | S754_finite _ _ e => e <= 53
             | _ => False
             end).
  { unfold PyArith.truediv, PyArith.int_truediv.
    replace (n =? 0) with false by (symmetry; apply Z.eqb_neq; lia).
    replace (Z.abs i <? 2 ^ 53) with true
      by (symmetry; apply Z.ltb_lt; lia).
    replace (Z.abs n <? 2 ^ 53) with true
      by (symmetry; apply Z.ltb_lt; lia).
    cbn [andb].
    destruct n as [|pn|pn]; try lia.
    destruct (@float_of_small_int pn Hn)
      as (mn & en & Hfn & Hprimn & Hmn & Hen & Hdn).
    destruct i as [|pi|pi]; try lia.
    - (* 0 / n *)
      rewrite Hfn.
      change (Py.float_of_int 0) with (Ok 0%float). cbn [bind].
      eexists. split; [reflexivity|].
      rewrite div_spec, Hprimn. exact I.
    - destruct (@float_of_small_int pi ltac:(unfold prec; lia))
        as (mi & ei & Hfi & Hprimi & Hmi & Hei & Hdi).
      rewrite Hfi, Hfn. cbn [bind].
      eexists. split; [reflexivity|].
      rewrite div_spec, Hprimi, Hprimn. unfold SF64div.
      rewrite SFdiv_normal; [| exact Hdi | exact Hdn | lia].
      set (q0 := Z.pos mi * 2 ^ 53 / Z.pos mn).
      set (l := new_location _ _).
      assert (Hmnlt : Z.pos mn < 2 ^ 53).
      { pose proof (digits_gt mn) as Hgt. rewrite Hdn in Hgt. exact Hgt. }
      assert (Hmilt : Z.pos mi < 2 ^ 53).
      { pose proof (digits_gt mi) as Hgt. rewrite Hdi in Hgt. exact Hgt. }
      assert (Hq0pos : 0 < q0).
      { unfold q0. apply Z.div_str_pos. split; [lia|].
        assert (0 < 2 ^ 53) by (apply Z.pow_pos_nonneg; lia). nia. }
      assert (Hup : q0 < 2 ^ 106).
      { unfold q0. apply Z.div_lt_upper_bound; [lia|].
        change (2 ^ 106) with (2 ^ 53 * 2 ^ 53).
        assert (0 < 2 ^ 53) by (apply Z.pow_pos_nonneg; lia). nia. }
      pose proof (@Zdigits2_bound q0 106 ltac:(lia) ltac:(lia) Hup) as Hdq.
      destruct (@binary_round_aux_finite false q0 (ei - en - 53) l Hq0pos)
        as [-> | (p2 & e2 & -> & [_ He2] & _)]; [| exact I |].
      + unfold fexp, SpecFloat.emin, prec, emax. lia.
      + unfold fexp, SpecFloat.emin, prec, emax in He2. lia. }
  destruct Hq as (q & -> & Hfin). cbn [bind].
  unfold PyArith.mul. cbn [Py.to_float bind].
  rewrite float_of_100. cbn [bind PyArith.int_].
  destruct (@times_100_finite q Hfin) as [z ->]. cbn [bind].
  eexists. reflexivity.
Qed.

Section Application.

Variable application : Type.
Variable Running : application -> bool.
Variable Stop : application -> application.
Variable signal : Type.
Variable GetSignal : string -> Z -> string -> string -> signal.
Variable set_Value : signal -> Z -> application -> application.
Variable wait : PrimFloat.float -> application -> application.

Let the_signal : signal := GetSignal "CAN" 1 "XXX_XXX" "XX_XXX_XXXXXXX".

(** X14. A trip of 1 to 99 samples cannot be replayed: [per] is
    [int(length / 100) = 0], and [i % per] raises [ZeroDivisionError] in
    the first iteration (once its delay has ended). By then the unit
    and the first sample have been written; the other samples are not,
    the loop has printed nothing, and [stop_Measurement] is not
    called. *)
Theorem replay_trip_short_trip_raises row rest secs v w :
  (List.length (row :: rest) < 100)%nat ->
  command row = Ok (secs, v) -> delay_ends secs = true ->
  replay_trip Running Stop GetSignal set_Value wait (row :: rest) w =
    (mkWorld (set_Value the_signal v
                (wait secs (set_Value the_signal Reference.MI (app w))))
             (stdout w),
     Raises ZeroDivisionError).
Proof.
  intros Hlen Hc Hends. unfold replay_trip, then_ at 1, on_app. cbn [app stdout].
  unfold then_ at 1, lift.
  rewrite (@per_of_short_trip (List.length (row :: rest)) Hlen).
  unfold command in Hc.
  destruct (PyArith.truediv (fst row) (PyInt 1000)) as [secs'|] eqn:E1;
    [|discriminate].
  cbn [bind] in Hc.
  destruct (PyArith.mul (snd row) (PyFloat 2)) as [x|] eqn:E2; [|discriminate].
  cbn [bind] in Hc.
  destruct (PyArith.int_ x) as [v'|] eqn:E3; [|discriminate].
  injection Hc as -> ->.
  cbn [replay_loop]. unfold then_, delay, then_, lift, on_app, set_GetSigVal.
  rewrite E1, Hends, E2. cbn [bind]. rewrite E3. cbn [app stdout].
  reflexivity.
Qed.

Lemma then_ok {A B} (m : action application A)
    (k : A -> action application B) w w' a :
  m w = (w', Returns a) -> then_ m k w = k a w'.
Proof. unfold then_. intros ->. reflexivity. Qed.

(** With a step that is not 0 and below [2^53] samples, the loop goes
    through the samples it is given. *)
Lemma replay_loop_runs (length per : Z) (data : list sample) :
  per <> 0 -> length < 2 ^ 53 ->
  forall i cs w,
    0 <= i -> i + Z.of_nat (List.length data) <= length ->
    commands data = Ok cs ->
    forallb (fun c => delay_ends (fst c)) cs = true ->
    exists printed,
      progress_texts length (printing per i (List.length data)) printed /\
      replay_loop set_Value wait the_signal length per data i w =
        (mkWorld (written set_Value wait the_signal cs (app w))
                 (stdout w ++ printed),
         Returns tt).
Proof.
  intros Hper Hlen.
  induction data as [|row rest IH]; intros i cs w Hi Hn Hc Hends.
  - simpl in Hc. injection Hc as <-. exists []. simpl.
    split; [constructor|].
    rewrite app_nil_r. destruct w; reflexivity.
  - cbn [commands] in Hc. unfold command in Hc.
    destruct (PyArith.truediv (fst row) (PyInt 1000)) as [secs|] eqn:E1;
      [|discriminate].
    cbn [bind] in Hc.
    destruct (PyArith.mul (snd row) (PyFloat 2)) as [x|] eqn:E2;
      [|discriminate].
    cbn [bind] in Hc.
    destruct (PyArith.int_ x) as [v|] eqn:E3; [|discriminate].
    cbn [bind] in Hc.
    destruct (commands rest) as [cs'|] eqn:E4; [|discriminate].
    cbn [bind] in Hc. injection Hc as <-.
    cbn [forallb fst] in Hends. apply andb_true_iff in Hends.
    destruct Hends as [Hend Hends].
    cbn [List.length] in Hn.
    cbn [replay_loop].
    rewrite (@then_ok _ _ (delay wait (fst row)) _ w
               (mkWorld (wait secs (app w)) (stdout w)) tt)
      by (unfold delay, then_, lift, on_app; rewrite E1, Hend; reflexivity).
    unfold then_ at 1, lift at 1. rewrite E2. cbn [bind]. rewrite E3.
    unfold then_ at 1, on_app at 1. cbn [app stdout].
    unfold then_ at 1, lift at 1, PyArith.mod_.
    replace (per =? 0) with false by (symmetry; apply Z.eqb_neq; exact Hper).
    set (w2 := mkWorld (set_Value the_signal v (wait secs (app w))) (stdout w)).
    assert (Hprint : exists text,
              progress_texts length
                (if i mod per =? 0 then [i] else []) text /\
              (if i mod per =? 0
               then then_ (lift (progress i length)) (@print application)
               else ret tt) w2
              = (mkWorld (app w2) (stdout w2 ++ text), Returns tt)).
    { destruct (i mod per =? 0).
      - destruct (@progress_ok i length ltac:(lia) Hlen) as [text Ht].
        exists [text]. split; [repeat constructor; exact Ht|].
        unfold then_, lift, print. rewrite Ht. reflexivity.
      - exists []. split; [constructor|].
        unfold ret. rewrite app_nil_r. destruct w2; reflexivity. }
    destruct Hprint as (text & Htext & Ht).
    rewrite (@then_ok _ _ _ _ w2 _ tt Ht).
    destruct (IH (i + 1) cs' (mkWorld (app w2) (stdout w2 ++ text))
                 ltac:(lia) ltac:(lia) eq_refl Hends)
      as (printed & Hprinted & ->).
    exists (text ++ printed). split.
    + unfold printing, progress_texts in *. cbn [List.length range filter].
      destruct (i mod per =? 0);
        [apply (@Forall2_app _ _ _ [i] _ text printed)
        |apply (@Forall2_app _ _ _ [] _ text printed)]; assumption.
    + cbn [app stdout written].
      unfold w2. cbn [app stdout]. rewrite app_assoc. reflexivity.
Qed.

(** X16. A trip that is empty, or has at least 100 samples (and fewer
    than [2^53]), whose deltas and speeds can be turned into seconds and
    signal values, none of the waits being [+inf], is replayed to the
    end, from the application that [CANoe()] has dispatched on:
    [replay_trip] returns; the application has been given the unit,
    then for each sample in the order of the trip a wait of
    [delta / 1000] s followed by the write of [int(speed * 2.0)], and
    at the end [Stop()] if the measurement is running then. What is
    printed after the lines of the constructor is exactly the progress
    text of every index that is a multiple of [per = int(length / 100)],
    in the order of the indices, and nothing else. *)
Theorem replay_trip_replays_every_sample data cs w :
  (data = [] \/ (100 <= List.length data)%nat) ->
  Z.of_nat (List.length data) < 2 ^ 53 ->
  commands data = Ok cs ->
  forallb (fun c => delay_ends (fst c)) cs = true ->
  exists per printed,
    (q <- PyArith.truediv (PyInt (Z.of_nat (List.length data))) (PyInt 100) ;;
     PyArith.int_ (PyFloat q)) = Ok per /\
    progress_texts (Z.of_nat (List.length data))
                   (printing per 0 (List.length data)) printed /\
    replay_trip Running Stop GetSignal set_Value wait data w =
      (mkWorld
         (let a := written set_Value wait the_signal cs
                     (set_Value the_signal Reference.MI (app w)) in
          if Running a then Stop a else a)
         (stdout w ++ printed),
       Returns tt).
Proof.
  intros [-> | H100] Hlen Hc Hends.
  - simpl in Hc. injection Hc as <-. exists 0, [].
    pose proof (@per_of_short_trip 0 ltac:(lia)) as Hp.
    cbn [Z.of_nat] in Hp. cbn [List.length Z.of_nat].
    split; [exact Hp|]. split; [constructor|].
    unfold replay_trip. unfold then_ at 1, on_app at 1. cbn [app stdout].
    unfold then_ at 1, lift at 1.
    cbn [List.length Z.of_nat]. rewrite Hp.
    cbn [replay_loop]. unfold then_, ret, stop_Measurement, on_app, ret.
    cbn [app stdout written]. rewrite app_nil_r.
    unfold set_GetSigVal. fold the_signal.
    destruct (Running _); reflexivity.
  - destruct (@per_of_long_trip (Z.of_nat (List.length data)) ltac:(lia))
      as (per & Hper & Hper1).
    destruct (@replay_loop_runs (Z.of_nat (List.length data)) per data
                ltac:(lia) Hlen 0 cs
                (mkWorld (set_Value the_signal Reference.MI (app w))
                         (stdout w))
                ltac:(lia) ltac:(lia) Hc Hends)
      as (printed & Hprinted & Hloop).
    exists per, printed.
    split; [exact Hper|]. split; [exact Hprinted|].
    unfold replay_trip. unfold then_ at 1, on_app at 1. cbn [app stdout].
    unfold then_ at 1, lift at 1. rewrite Hper.
    unfold set_GetSigVal. fold the_signal.
    rewrite (@then_ok _ _ _ _ _ _ tt Hloop).
    unfold stop_Measurement. cbn [app stdout].
    destruct (Running _); reflexivity.
Qed.

End Application.

(** The trip of the docstring's session, on a running measurement. *)
Lemma replay_trip_short_trip_raises_witness :
  sim_replay_trip [(PyFloat 12940, PyFloat 0); (PyInt 200, PyFloat 1)]
                  (mkSim true [])
  = (mkWorld (mkSim true [Wrote 1; Waited 0x1.9e147ae147ae1p+3; Wrote 0]) [],
     Raises ZeroDivisionError).
Proof.
  apply (@replay_trip_short_trip_raises sim running sim_Stop unit
           sim_GetSignal sim_set_Value sim_wait
           (PyFloat 12940, PyFloat 0) [(PyInt 200, PyFloat 1)]
           0x1.9e147ae147ae1p+3%float 0 (mkWorld (mkSim true []) []));
    vm_compute; first [reflexivity | lia].
Defined.

(** A hundred samples 200 ms apart at speed 1.0, on a running
    measurement: [per] is 1 and every index prints its text. *)
Lemma replay_trip_replays_every_sample_witness :
  exists per printed,
    (q <- PyArith.truediv (PyInt 100) (PyInt 100) ;;
     PyArith.int_ (PyFloat q)) = Ok per /\
    progress_texts 100 (printing per 0 100) printed /\
    sim_replay_trip (repeat (PyInt 200, PyFloat 1) 100) (mkSim true []) =
      (mkWorld
         (mkSim false
            (Wrote 1 ::
             List.concat
               (repeat [Waited 0x1.999999999999ap-3; Wrote 2] 100)))
         printed,
       Returns tt).
Proof.
  destruct (@replay_trip_replays_every_sample sim running sim_Stop unit
              sim_GetSignal sim_set_Value sim_wait
              (repeat (PyInt 200, PyFloat 1) 100)
              (repeat (0x1.999999999999ap-3%float, 2) 100)
              (mkWorld (mkSim true []) []))
    as (per & printed & Hper & Hprinted & H).
  - right. vm_compute. repeat constructor.
  - vm_compute. reflexivity.
  - vm_compute. reflexivity.
  - vm_compute. reflexivity.
  - exists per, printed. split; [exact Hper|]. split; [exact Hprinted|].
    unfold sim_replay_trip. rewrite H.
    vm_compute. reflexivity.
Defined.

End TripFacts.

(* ------------------------------------------------------------------ *)
(** ** [save_to_csv]: an export without engine frames *)

Module CsvFacts.
Import Csv.

Section Library.

Variable datetime : Type.
Variable strptime : string -> result datetime.
Variable plus_timedelta : datetime -> Z -> Z -> result datetime.
Variable strftime : datetime -> string.
Variable str_float : PrimFloat.float -> string.
Variable cfg : config.
Variable engine_status : csv_context datetime -> bool.

Let logic := save_to_file_logic plus_timedelta strftime cfg engine_status.
Let line_step := export_line plus_timedelta strftime cfg engine_status.
Let lines := export_lines plus_timedelta strftime cfg engine_status.

(** The engine flag is off and nothing has been recorded. *)
Let idle (c : csv_context datetime) : Prop :=
  engine c = false /\ time_speed c = [[]].

Lemma export_line_idle line c c' :
  engine_frame cfg line = false -> idle c ->
  line_step line c = Ok c' -> idle c'.
Proof.
  unfold line_step, export_line, engine_frame. intros Hf [He Hts] H.
  repeat inv_bind H.
  match goal with
  | E1 : Py.index (Py.split line) 2 = Ok ?t, E2 : Py.int16 ?t = Ok ?i |- _ =>
      rewrite E1 in Hf; cbn [bind] in Hf; rewrite E2 in Hf
  end.
  unfold process_frame in H.
  match type of Hf with
  | negb (?i =? _) && _ = false => rename i into id
  end.
  destruct (id =? SPD_MSG_1 cfg) eqn:Es.
  - repeat inv_bind H. unfold save_to_file_logic in H.
    rewrite Es in H. cbn [engine set_speed_unit set_speed set_time_ms set_time_s]
      in H.
    rewrite He in H. cbn [negb] in H. injection H as <-.
    split; [exact He | exact Hts].
  - cbn [negb andb] in Hf. apply orb_false_iff in Hf.
    destruct Hf as [Hstd Hev]. rewrite Hstd, Hev in H. injection H as <-.
    split; [exact He | exact Hts].
Qed.

Lemma export_lines_idle file : forall count c c',
  (count <= 3)%nat ->
  Forall (fun l => engine_frame cfg l = false) (skipn (3 - count) file) ->
  idle c -> lines file count c = Ok c' -> idle c'.
Proof.
  induction file as [|line rest IH]; intros count c c' Hc Hall Hi H.
  - simpl in H. injection H as <-. exact Hi.
  - cbn [lines export_lines] in H. unfold lines in H. cbn [export_lines] in H.
    destruct (count <? 3)%nat eqn:E.
    + apply Nat.ltb_lt in E.
      apply (IH (count + 1)%nat c c'); [lia | | exact Hi | exact H].
      replace (3 - count)%nat with (S (3 - (count + 1))) in Hall by lia.
      exact Hall.
    + apply Nat.ltb_ge in E.
      replace (3 - count)%nat with 0%nat in Hall by lia.
      simpl in Hall. inversion Hall as [|? ? Hl Hrest]; subst.
      inv_bind H.
      apply (IH count a c'); [lia | | | exact H].
      * replace (3 - count)%nat with 0%nat by lia. exact Hrest.
      * apply (@export_line_idle line c a Hl Hi E0).
Qed.

(** X15. [save_to_csv] starts with the engine flag off and, unlike
    [parse_file], does not initialise it from [engine_status]: only an
    engine frame can switch it on. So for a log none of whose data lines
    reaches an engine branch (every log, with the identifiers of the
    source, which are all equal), an export that returns has written one
    empty file, [save_to_mph_0.csv], whatever the speed frames. *)
Theorem export_without_engine_frames file :
  Forall (fun l => engine_frame cfg l = false) (skipn 3 file) ->
  is_ok (save_to_csv strptime plus_timedelta strftime str_float cfg
                     engine_status file) = true ->
  save_to_csv strptime plus_timedelta strftime str_float cfg engine_status
              file
  = Ok [("save_to_mph_0.csv"%string, ""%string)].
Proof.
  intros Hall Hok. unfold save_to_csv in *.
  destruct file as [|line rest]; [reflexivity|].
  destruct (strptime (drop_last 1 line)) as [t|ex]; [|discriminate].
  cbn [bind] in *.
  destruct (export_lines plus_timedelta strftime cfg engine_status rest 1
              (mkCsv t 0 false [[]] 0 0 None None None None None))
    as [c'|ex] eqn:E; [|discriminate].
  cbn [bind].
  assert (Hi : idle c').
  { apply (@export_lines_idle rest 1%nat
             (mkCsv t 0 false [[]] 0 0 None None None None None) c');
      [lia | | | exact E].
    - exact Hall.
    - split; reflexivity. }
  destruct Hi as [_ ->]. reflexivity.
Qed.

End Library.

(** The session of the docstring, with the identifiers and decoders of
    the source. *)
Lemma export_without_engine_frames_witness :
  save_to_csv text_strptime text_plus text_strftime text_str_float
              reference (fun _ => true) Scenario.docstring_file
  = Ok [("save_to_mph_0.csv"%string, ""%string)].
Proof.
  apply (@export_without_engine_frames string text_strptime text_plus
           text_strftime text_str_float reference (fun _ => true)
           Scenario.docstring_file).
  - unfold Scenario.docstring_file. cbn [skipn].
    repeat (constructor; [vm_compute; reflexivity|]). constructor.
  - vm_compute. reflexivity.
Defined.

End CsvFacts.

(* ------------------------------------------------------------------ *)
(** ** [set_EnvVar]: waiting for the value to be read back *)

Module EnvVarFacts.
Import EnvVar.

Section Application.

Variable application : Type.
Variable variable : Type.
Variable GetVariable : string -> variable.
Variable get_Value : variable -> application -> pynum.
Variable set_Value : variable -> pynum -> application -> application.
Variable meanwhile : application -> application.

Let back := readback GetVariable get_Value set_Value meanwhile.
Let loop := check_loop GetVariable get_Value meanwhile.

Lemma check_loop_spec var value : forall fuel checker app,
  loop fuel var value checker app =
  if Py.eqb checker value then Some app
  else match fuel with
       | O => None
       | S fuel' =>
           loop fuel' var value
                (snd (get_EnvVar GetVariable get_Value meanwhile var app))
                (fst (get_EnvVar GetVariable get_Value meanwhile var app))
       end.
Proof.
  intros [|fuel] checker app; unfold loop; cbn [check_loop];
    destruct (Py.eqb checker value); reflexivity.
Qed.

(** From the state after [j] readbacks on: the loop returns at the
    first readback that equals the value, if the fuel reaches it. *)
Lemma check_loop_from var value app : forall fuel j,
  loop fuel var value (snd (back j var value app))
       (fst (back j var value app)) =
  match find (fun k => Py.eqb (snd (back k var value app)) value)
             (seq j (S fuel)) with
  | Some k => Some (fst (back k var value app))
  | None => None
  end.
Proof.
  induction fuel as [|fuel IH]; intros j.
  - rewrite check_loop_spec. cbn [seq find].
    destruct (Py.eqb (snd (back j var value app)) value); reflexivity.
  - rewrite check_loop_spec.
    change (seq j (S (S fuel))) with (j :: seq (S j) (S fuel)).
    cbn [find].
    destruct (Py.eqb (snd (back j var value app)) value); [reflexivity|].
    exact (IH (S j)).
Qed.

Lemma set_EnvVar_find fuel var value app :
  set_EnvVar GetVariable get_Value set_Value meanwhile fuel var value app =
  match find (fun k => Py.eqb (snd (back k var value app)) value)
             (seq 0 (S fuel)) with
  | Some k => Some (fst (back k var value app))
  | None => None
  end.
Proof.
  unfold set_EnvVar.
  pose proof (@check_loop_from var value app fuel 0%nat) as H.
  unfold back, loop in *. cbn [readback] in H.
  destruct (get_EnvVar GetVariable get_Value meanwhile var
              (set_Value (GetVariable var) value (meanwhile app)))
    as [app1 checker]. exact H.
Qed.

Lemma find_first (f : nat -> bool) (k : nat) : forall n j,
  (forall i, (j <= i < k)%nat -> f i = false) -> f k = true ->
  (j <= k < j + n)%nat ->
  find f (seq j n) = Some k.
Proof.
  induction n as [|n IH]; intros j Hb Hk Hr; [lia|].
  cbn [seq find].
  destruct (Nat.eq_dec j k) as [->|Hne].
  - rewrite Hk. reflexivity.
  - rewrite (Hb j) by lia. apply IH; [|exact Hk|lia].
    intros i Hi. apply Hb. lia.
Qed.

Lemma find_never (f : nat -> bool) : forall n j,
  (forall i, f i = false) -> find f (seq j n) = None.
Proof.
  induction n as [|n IH]; intros j Hf; [reflexivity|].
  cbn [seq find]. rewrite Hf. apply IH. exact Hf.
Qed.

(** X19. [set_EnvVar] assigns the value and then reads it back until a
    readback is equal to it: when readback [k] is the first that is
    equal, [set_EnvVar] returns after it (given room for [k] readbacks
    after the first one), and the application is as that readback
    found it; when no readback is ever equal, it does not return,
    however many readbacks it is allowed. *)
Theorem set_EnvVar_waits_for_readback var value app :
  (forall k fuel,
     (forall j, (j < k)%nat ->
        Py.eqb (snd (readback GetVariable get_Value set_Value meanwhile
                              j var value app)) value = false) ->
     Py.eqb (snd (readback GetVariable get_Value set_Value meanwhile
                           k var value app)) value = true ->
     (k <= fuel)%nat ->
     set_EnvVar GetVariable get_Value set_Value meanwhile fuel var value app
     = Some (fst (readback GetVariable get_Value set_Value meanwhile
                           k var value app))) /\
  ((forall k,
      Py.eqb (snd (readback GetVariable get_Value set_Value meanwhile
                            k var value app)) value = false) ->
   forall fuel,
     set_EnvVar GetVariable get_Value set_Value meanwhile fuel var value app
     = None).
Proof.
  split.
  - intros k fuel Hb Hk Hf. rewrite set_EnvVar_find.
    rewrite (@find_first _ k (S fuel) 0%nat); [reflexivity | | exact Hk | lia].
    intros i Hi. apply Hb. lia.
  - intros Hn fuel. rewrite set_EnvVar_find.
    rewrite find_never; [reflexivity | exact Hn].
Qed.

Lemma eqb_nan (x : pynum) : Py.eqb x (PyFloat nan) = false.
Proof.
  destruct x as [z|f]; cbn [Py.eqb].
  - reflexivity.
  - rewrite FloatAxioms.eqb_spec.
    destruct (Prim2SF f) as [[|]|[|]| |[|] m e]; reflexivity.
Qed.

(** X20. [set_EnvVar] with the value NaN never returns, whatever the
    application does: no readback is equal to NaN, not even NaN. *)
Theorem set_EnvVar_nan_never_returns var app fuel :
  set_EnvVar GetVariable get_Value set_Value meanwhile fuel var
             (PyFloat nan) app = None.
Proof.
  rewrite set_EnvVar_find. rewrite find_never; [reflexivity|].
  intros k. apply eqb_nan.
Qed.

End Application.

(** An application that stores the value at once: the first readback is
    equal, and [set_EnvVar] returns without looping. *)
Lemma set_EnvVar_waits_for_readback_witness :
  set_EnvVar (fun _ => tt) cell_get cell_set (fun a => a) 0 "speed"
             (PyInt 3) (PyInt 0)
  = Some (PyInt 3).
Proof.
  apply (proj1 (@set_EnvVar_waits_for_readback pynum unit (fun _ => tt)
                  cell_get cell_set (fun a => a) "speed"%string
                  (PyInt 3) (PyInt 0)) 0%nat 0%nat).
  - intros j Hj. lia.
  - reflexivity.
  - lia.
Defined.

End EnvVarFacts.
